(** * utrstats: score decoding, match normalisation and season statistics

    A shallow embedding of the pure core of the repository:
    - [parseScoresFromRawText], [fixMatchData] and [generateStats] of
      generate-full-review.js,
    - [calculateGamesFromSets] of recompute-dynamodb-stats.js,
    - the walkover detection of [scrapeMatches] in scraper-full.js,
    followed by the properties that the specification states about them.
    Further modules embed [recalculateWonFromSets] and the match loop of
    [recomputeStats], the callouts that rank by integers, the score loop and
    the set loop of [scrapeMatches], [findRatingBefore] and
    [findRatingAfter], and [escapeCSV] of lambda-handler-v2.js; the
    properties that the code itself shows for them, and further ones for
    the decoder, the normaliser and the aggregator, close the file.

    Conventions of the model.
    - A JavaScript string is a [string] of 8-bit characters; the character
      classes of the regular expressions ([\d], [\s], [[A-Z]], [[a-z]]) are
      their ASCII parts.
    - JavaScript numbers that hold integers are [Z] (values read from text)
      or [nat] (counters that are only ever incremented).  [parseInt] is
      exact here; the double it returns in JavaScript is exact up to 2^53.
    - [undefined]/[null] are [None]; a field that is tested for truthiness
      only is a [bool].
    - A rating ("d.dd") is the integer number of hundredths. *)

From Stdlib Require Import ZArith Ascii String List Bool Lia.
From Stdlib Require Import Numbers.DecimalString Numbers.DecimalPos.
From Stdlib Require Import Sorting.Sorted.
From stdpp Require Import base option list strings gmap.

Local Open Scope string_scope.

(** ** JavaScript strings *)

Module JS.

Definition code (c : ascii) : N := N_of_ascii c.

Definition isDigit (c : ascii) : bool := (48 <=? code c)%N && (code c <=? 57)%N.
Definition isUpper (c : ascii) : bool := (65 <=? code c)%N && (code c <=? 90)%N.
Definition isLower (c : ascii) : bool := (97 <=? code c)%N && (code c <=? 122)%N.
Definition isAlpha (c : ascii) : bool := isUpper c || isLower c.

(** [\s]: tab, line feed, vertical tab, form feed, carriage return, space. *)
Definition isSpace (c : ascii) : bool :=
  ((9 <=? code c)%N && (code c <=? 13)%N) || (code c =? 32)%N.

Definition isHexDigit (c : ascii) : bool :=
  isDigit c || ((65 <=? code c)%N && (code c <=? 70)%N)
            || ((97 <=? code c)%N && (code c <=? 102)%N).

(** [Number(c)] for a decimal digit character. *)
Definition digitValue (c : ascii) : Z := Z.of_N (code c) - 48.

Definition hexValue (c : ascii) : Z :=
  if isDigit c then Z.of_N (code c) - 48
  else if (code c <=? 70)%N then Z.of_N (code c) - 55
  else Z.of_N (code c) - 87.

Definition lowerChar (c : ascii) : ascii :=
  if isUpper c then ascii_of_N (code c + 32) else c.

(** [s.toLowerCase()] *)
Fixpoint toLowerCase (s : string) : string :=
  match s with
  | EmptyString => EmptyString
  | String c r => String (lowerChar c) (toLowerCase r)
  end.

(** The longest prefix of [s] whose characters satisfy [p], and the rest. *)
Fixpoint span (p : ascii -> bool) (s : string) : string * string :=
  match s with
  | EmptyString => (EmptyString, EmptyString)
  | String c r =>
      if p c then let '(a, b) := span p r in (String c a, b)
      else (EmptyString, s)
  end.

Fixpoint allChars (p : ascii -> bool) (s : string) : bool :=
  match s with
  | EmptyString => true
  | String c r => p c && allChars p r
  end.

Fixpoint filterChars (p : ascii -> bool) (s : string) : string :=
  match s with
  | EmptyString => EmptyString
  | String c r => if p c then String c (filterChars p r) else filterChars p r
  end.

Fixpoint rev (s : string) : string :=
  match s with
  | EmptyString => EmptyString
  | String c r => rev r ++ String c EmptyString
  end.

Definition trimStart (s : string) : string := snd (span isSpace s).
Definition trimEnd (s : string) : string := rev (trimStart (rev s)).
(** [s.trim()] *)
Definition trim (s : string) : string := trimEnd (trimStart s).

Definition nonEmpty (s : string) : bool :=
  match s with EmptyString => false | _ => true end.

(** [s.indexOf(t)], with [None] for -1. *)
Fixpoint indexOf (t s : string) : option nat :=
  if String.prefix t s then Some 0
  else match s with
       | EmptyString => None
       | String _ r => S <$> indexOf t r
       end.

(** [s.includes(t)] *)
Definition includes (t s : string) : bool :=
  match indexOf t s with Some _ => true | None => false end.

(** [s.substring(0, n)] and [s.substring(n)] for [0 <= n]. *)
Fixpoint take (n : nat) (s : string) : string :=
  match n, s with
  | S k, String c r => String c (take k r)
  | _, _ => EmptyString
  end.

Fixpoint drop (n : nat) (s : string) : string :=
  match n, s with
  | S k, String _ r => drop k r
  | _, _ => s
  end.

(** [s.split(sep)] for a one-character separator: the current piece is
    accumulated in [cur]; the result always has at least one piece. *)
Fixpoint splitGo (sep : ascii) (cur : string) (s : string) : list string :=
  match s with
  | EmptyString => [cur]
  | String c r =>
      if Ascii.eqb c sep then cur :: splitGo sep EmptyString r
      else splitGo sep (cur ++ String c EmptyString) r
  end.

Definition split (sep : ascii) (s : string) : list string :=
  splitGo sep EmptyString s.

(** [l.join(sep)] *)
Fixpoint join (sep : string) (l : list string) : string :=
  match l with
  | [] => EmptyString
  | [x] => x
  | x :: r => x ++ sep ++ join sep r
  end.

(** Template-literal rendering of an integer number. *)
Definition showZ (z : Z) : string := NilZero.string_of_int (Z.to_int z).
Definition showNat (n : nat) : string := showZ (Z.of_nat n).

Fixpoint digitsValue (radix : Z) (val : ascii -> Z) (acc : Z) (s : string) : Z :=
  match s with
  | EmptyString => acc
  | String c r => digitsValue radix val (radix * acc + val c) r
  end.

(** [parseInt(s)] with no radix argument: leading white space is skipped,
    a sign is read, a [0x]/[0X] prefix selects base 16, and the longest run
    of digits is converted; [None] is [NaN]. *)
Definition parseIntUnsigned (s : string) : option Z :=
  match s with
  | String "0" (String x r) =>
      if (Ascii.eqb x "x" || Ascii.eqb x "X")%bool then
        let '(ds, _) := span isHexDigit r in
        if nonEmpty ds then Some (digitsValue 16 hexValue 0 ds) else None
      else
        let '(ds, _) := span isDigit s in Some (digitsValue 10 digitValue 0 ds)
  | _ =>
      let '(ds, _) := span isDigit s in
      if nonEmpty ds then Some (digitsValue 10 digitValue 0 ds) else None
  end.

Definition parseInt (s : string) : option Z :=
  match trimStart s with
  | String "-" r => Z.opp <$> parseIntUnsigned r
  | String "+" r => parseIntUnsigned r
  | r => parseIntUnsigned r
  end.

(** [a >= n] and the like on a possibly-[NaN] number: false on [NaN]. *)
Definition geNum (a : option Z) (n : Z) : bool :=
  match a with Some x => (n <=? x)%Z | None => false end.

End JS.


(** ** The score decoder (generate-full-review.js, parseScoresFromRawText) *)

(** The argument [type]: "doubles", or anything else, which is treated as
    "singles". *)
Inductive MatchType := Singles | Doubles.

(** What one [sets.push] of the decoder records.  [render] gives the string
    that the source builds with its template literal at that place. *)
Inductive SetOutcome :=
| RegularSet (my opp : Z)
    (* `${my}-${opp}` in the regular-set branch *)
| TiebreakSet (my opp : Z) (sub : option (Z * Z))
    (* `${my}-${opp}(${nextMy}-${nextOpp})` or `${my}-${opp}` *)
| SuperTiebreak (userWon : bool) (score : option (Z * Z))
    (* `1-0(${stbUser}-${stbOpp})`, `0-1(...)`, "1-0" or "0-1" *)
| Decider (stbUser stbOpp : Z).
    (* `${stbUser}-${stbOpp}`: super tiebreak without indicator *)

Definition render (o : SetOutcome) : string :=
  match o with
  | RegularSet my opp => JS.showZ my ++ "-" ++ JS.showZ opp
  | TiebreakSet my opp (Some (a, b)) =>
      JS.showZ my ++ "-" ++ JS.showZ opp ++ "(" ++ JS.showZ a ++ "-" ++ JS.showZ b ++ ")"
  | TiebreakSet my opp None => JS.showZ my ++ "-" ++ JS.showZ opp
  | SuperTiebreak true (Some (a, b)) => "1-0(" ++ JS.showZ a ++ "-" ++ JS.showZ b ++ ")"
  | SuperTiebreak false (Some (a, b)) => "0-1(" ++ JS.showZ a ++ "-" ++ JS.showZ b ++ ")"
  | SuperTiebreak true None => "1-0"
  | SuperTiebreak false None => "0-1"
  | Decider a b => JS.showZ a ++ "-" ++ JS.showZ b
  end.

(** The result object [{ sets, won }], under the names [fixMatchData] gives
    to its two fields; [parsedWon = None] is [won: null]. *)
Record Decoded := { parsedSets : list string; parsedWon : option bool }.

Module Decoder.

Local Open Scope Z_scope.

(** *** Isolation of the two digit runs *)

(** One attempt of [/(\d+\.\d{2})/] at the start of [s]: the text after the
    match.  No alternative of the pattern can succeed once the greedy one
    has failed, so the attempt is deterministic. *)
Definition matchUtr (s : string) : option string :=
  let '(ds, r) := JS.span JS.isDigit s in
  if JS.nonEmpty ds then
    match r with
    | String "." (String a (String b r')) =>
        if JS.isDigit a && JS.isDigit b then Some r' else None
    | _ => None
    end
  else None.

(** One attempt of [/(\d+\.\d{2})\s+(\d+)/] at the start of [s]: the second
    group and the text after the match. *)
Definition matchUtrScore (s : string) : option (string * string) :=
  match matchUtr s with
  | Some r =>
      let '(ws, r1) := JS.span JS.isSpace r in
      let '(sc, r2) := JS.span JS.isDigit r1 in
      if JS.nonEmpty ws && JS.nonEmpty sc then Some (sc, r2) else None
  | None => None
  end.

(** [[...rawText.matchAll(re)]] for a pattern with the attempt function
    [m]: the search restarts where the last match ended.  [skip] counts the
    characters of [s] that lie inside the last match. *)
Fixpoint matchAllGo {A} (m : string -> option (A * string)) (skip : nat)
    (s : string) : list A :=
  match skip with
  | S k => match s with
           | EmptyString => []
           | String _ r => matchAllGo m k r
           end
  | O =>
      match s with
      | EmptyString => []
      | String _ r =>
          match m s with
          | Some (a, rest) =>
              a :: matchAllGo m (String.length s - String.length rest - 1) r
          | None => matchAllGo m 0 r
          end
      end
  end.

Definition matchAll {A} (m : string -> option (A * string)) (s : string) : list A :=
  matchAllGo m 0 s.

(** The digit runs of a singles fragment: the second groups of the first
    two matches of [utrPattern]. *)
Definition singlesScores (rawText : string) : option (string * string) :=
  match matchAll matchUtrScore rawText with
  | u :: o :: _ => Some (u, o)
  | _ => None
  end.

(** The digit runs of a doubles fragment.  [allUtrs] is represented by the
    text that follows each match, which is
    [rawText.substring(m.index + m[0].length)]. *)
Definition leadingDigits (s : string) : option string :=
  let '(ds, _) := JS.span JS.isDigit s in
  if JS.nonEmpty ds then Some ds else None.

Definition doublesScores (rawText : string) : option (string * string) :=
  match matchAll (fun s => (fun r => (r, r)) <$> matchUtr s) rawText with
  | _ :: afterSecondUtr :: _ :: afterFourthUtr :: _ =>
      match leadingDigits (JS.trim afterSecondUtr),
            leadingDigits (JS.trim afterFourthUtr) with
      | Some u, Some o => Some (u, o)
      | _, _ => None
      end
  | _ => None
  end.

(** [str.split("").map(Number)] on a run of digits. *)
Definition digitsOf (s : string) : list Z :=
  map JS.digitValue (list_ascii_of_string s).

(** *** The scan over digit pairs *)

(** [parseInt(ds.join(""))] for a list of decimal digits. *)
Definition parseDigits (ds : list Z) : Z :=
  fold_left (fun acc d => 10 * acc + d) ds 0.

Definition inRange07 (d : Z) : bool := (0 <=? d) && (d <=? 7).

Definition isTiebreakPair (my opp : Z) : bool :=
  ((my =? 7) && (opp =? 6)) || ((my =? 6) && (opp =? 7)).

Definition isIndicatorPair (my opp : Z) : bool :=
  ((my =? 0) && (opp =? 1)) || ((my =? 1) && (opp =? 0)).

Definition isValidSet (my opp : Z) : bool :=
  ((my =? 6) && (opp <=? 4)) ||
  ((opp =? 6) && (my <=? 4)) ||
  ((my =? 7) && (opp =? 5)) ||
  ((opp =? 7) && (my =? 5)) ||
  ((my =? 7) && (opp =? 6)) ||
  ((opp =? 7) && (my =? 6)) ||
  ((my <=? 6) && (opp <=? 6) && (negb (my =? 0) || negb (opp =? 0))).

(** [nextUser === 1 && nextOpp === 1] *)
Definition isContinuation (nextUser nextOpp : option Z) : bool :=
  match nextUser, nextOpp with
  | Some a, Some b => (a =? 1) && (b =? 1)
  | _, _ => false
  end.

(** [remainingUser] and [remainingOpp]: the digits after the indicator
    pair, less a (1,1) pair when digits follow it on both sides.  [us1] and
    [os1] are [userDigits.slice(i + 1)] and [oppDigits.slice(i + 1)]. *)
Definition remainingAfterIndicator (us1 os1 : list Z) : list Z * list Z :=
  match us1, os1 with
  | a :: (_ :: _) as us2, b :: (_ :: _) as os2 =>
      if (a =? 1) && (b =? 1) then (us2, os2) else (us1, os1)
  | _, _ => (us1, os1)
  end.

Definition firstTwo (ds : list Z) : Z := parseDigits (firstn 2 ds).
Definition lastDigit (ds : list Z) : Z := List.last ds 0.

(** The special case of the "0-11" layout: ten points for the user when
    the opponent's next digit is 0. *)
Definition stbSpecialCase (nextUser nextOpp : option Z)
    (remainingUser remainingOpp : list Z) : Z * Z :=
  if isContinuation nextUser nextOpp then
    match remainingUser, remainingOpp with
    | ru0 :: _, ro0 :: _ => if ro0 =? 0 then (10, ru0) else (0, 0)
    | _, _ => (0, 0)
    end
  else (0, 0).

(** "Strategy 1" of the source with its two dead [else if] arms kept. *)
Definition stbStrategy1 (nextUser nextOpp : option Z)
    (remainingUser remainingOpp : list Z) (stb : Z * Z) : Z * Z :=
  if (2 <=? length remainingOpp)%nat then
    let oppFirstTwo := firstTwo remainingOpp in
    let userSingle := lastDigit remainingUser in
    if 10 <=? oppFirstTwo then (userSingle, oppFirstTwo)
    else if (2 <=? length remainingUser)%nat then
      let userFirstTwo := firstTwo remainingUser in
      let oppSingle := lastDigit remainingOpp in
      if 10 <=? userFirstTwo then (userFirstTwo, oppSingle) else stb
    else stb
  else if (3 <=? length remainingOpp)%nat then
    let oppLastTwo := parseDigits (skipn (length remainingOpp - 2) remainingOpp) in
    let userSingle := lastDigit remainingUser in
    if 10 <=? oppLastTwo then (userSingle, oppLastTwo) else stb
  else if (length remainingOpp =? 1)%nat && (length remainingUser =? 1)%nat then
    if isContinuation nextUser nextOpp then
      match remainingUser, remainingOpp with
      | ru0 :: _, ro0 :: _ => if (ro0 =? 0) && (0 <? ru0) then (ru0, 10) else stb
      | _, _ => stb
      end
    else stb
  else stb.

(** [(stbUser, stbOpp)] as they stand when the source tests
    [stbUser >= 10 || stbOpp >= 10]; both remaining lists are non-empty. *)
Definition stbScores (nextUser nextOpp : option Z)
    (remainingUser remainingOpp : list Z) : Z * Z :=
  let stb0 := stbSpecialCase nextUser nextOpp remainingUser remainingOpp in
  if (fst stb0 <? 10) && (snd stb0 <? 10) then
    let stb1 := stbStrategy1 nextUser nextOpp remainingUser remainingOpp stb0 in
    if (fst stb1 <? 10) && (snd stb1 <? 10) then
      (parseDigits remainingUser, parseDigits remainingOpp)
    else stb1
  else stb0.

(** The whole super-tiebreak branch for the indicator pair [(my, _)]. *)
Definition superTiebreakOutcome (my : Z) (us1 os1 : list Z) : SetOutcome :=
  let nextUser := head us1 in
  let nextOpp := head os1 in
  let '(remainingUser, remainingOpp) := remainingAfterIndicator us1 os1 in
  let bare := SuperTiebreak (my =? 1) None in
  match remainingUser, remainingOpp with
  | _ :: _, _ :: _ =>
      let '(stbUser, stbOpp) := stbScores nextUser nextOpp remainingUser remainingOpp in
      if (10 <=? stbUser) || (10 <=? stbOpp) then
        SuperTiebreak (stbOpp <? stbUser) (Some (stbUser, stbOpp))
      else bare
  | _, _ => bare
  end.

(** The un-indicated super tiebreak over [userDigits.slice(i)] and
    [oppDigits.slice(i)], both non-empty inside the loop. *)
Definition deciderOutcome (us os : list Z) : option SetOutcome :=
  let stbUser := parseDigits us in
  let stbOpp := parseDigits os in
  if ((10 <=? stbUser) || (10 <=? stbOpp)) && negb (stbUser =? stbOpp)
  then Some (Decider stbUser stbOpp) else None.

(** The loop variables [sets], [userSetsWon] and [oppSetsWon]. *)
Record Scan := { outcomes : list SetOutcome; userSetsWon : nat; oppSetsWon : nat }.

(** [sets.push(o)] followed by the increment the source makes there. *)
Definition pushUser (o : SetOutcome) (st : Scan) : Scan :=
  {| outcomes := outcomes st ++ [o];
     userSetsWon := S (userSetsWon st); oppSetsWon := oppSetsWon st |}.
Definition pushOpp (o : SetOutcome) (st : Scan) : Scan :=
  {| outcomes := outcomes st ++ [o];
     userSetsWon := userSetsWon st; oppSetsWon := S (oppSetsWon st) |}.
Definition pushNone (o : SetOutcome) (st : Scan) : Scan :=
  {| outcomes := outcomes st ++ [o];
     userSetsWon := userSetsWon st; oppSetsWon := oppSetsWon st |}.

(** [if (a > b) userSetsWon++; else oppSetsWon++;] *)
Definition pushByScore (a b : Z) (o : SetOutcome) (st : Scan) : Scan :=
  if b <? a then pushUser o st else pushOpp o st.

(** [if (my > opp) userSetsWon++; else if (opp > my) oppSetsWon++;] *)
Definition pushRegular (my opp : Z) (st : Scan) : Scan :=
  if opp <? my then pushUser (RegularSet my opp) st
  else if my <? opp then pushOpp (RegularSet my opp) st
  else pushNone (RegularSet my opp) st.

Definition pushSuperTiebreak (o : SetOutcome) (st : Scan) : Scan :=
  match o with
  | SuperTiebreak true _ => pushUser o st
  | _ => pushOpp o st
  end.

(** The [while] loop.  [us] and [os] are [userDigits.slice(i)] and
    [oppDigits.slice(i)]; the loop runs while both are non-empty, and
    [i++] / [i += 2] drop one or two digits from both.  After a tiebreak
    pair followed by a pair within 0..7, the source pushes the same string
    and skips two pairs whether or not the pair after that is within 0..7,
    so its two arms are one here. *)
Fixpoint scan (us os : list Z) (st : Scan) {struct us} : Scan :=
  match us, os with
  | my :: us1, opp :: os1 =>
      if isTiebreakPair my opp then
        match us1, os1 with
        | nextMy :: us2, nextOpp :: os2 =>
            if inRange07 nextMy && inRange07 nextOpp then
              scan us2 os2
                (pushByScore my opp (TiebreakSet my opp (Some (nextMy, nextOpp))) st)
            else
              scan us1 os1 (pushByScore my opp (TiebreakSet my opp None) st)
        | _, _ =>
            scan us1 os1 (pushByScore my opp (TiebreakSet my opp None) st)
        end
      else if isIndicatorPair my opp then
        pushSuperTiebreak (superTiebreakOutcome my us1 os1) st
      else if inRange07 my && inRange07 opp && isValidSet my opp then
        scan us1 os1 (pushRegular my opp st)
      else
        match deciderOutcome us os with
        | Some (Decider a b as o) => pushByScore a b o st
        | _ => st
        end
  | _, _ => st
  end.

Definition scanStart : Scan := {| outcomes := []; userSetsWon := 0; oppSetsWon := 0 |}.

(** The decoder once the digit runs are known. *)
Definition decodeDigits (userScoreStr oppScoreStr : string) : Scan :=
  scan (digitsOf userScoreStr) (digitsOf oppScoreStr) scanStart.

Definition resultOf (st : Scan) : Decoded :=
  {| parsedSets := map render (outcomes st);
     parsedWon := Some (oppSetsWon st <? userSetsWon st)%nat |}.

(** [parseScoresFromRawText(rawText, playerName, type)]; [rawText = None]
    is a missing text.  The argument [playerName] is never read. *)
Definition parseScoresFromRawText (rawText : option string) (playerName : string)
    (type : MatchType) : Decoded :=
  match rawText with
  | None | Some EmptyString => {| parsedSets := []; parsedWon := None |}
  | Some text =>
      match (match type with
             | Doubles => doublesScores text
             | Singles => singlesScores text
             end) with
      | Some (userScoreStr, oppScoreStr) => resultOf (decodeDigits userScoreStr oppScoreStr)
      | None => {| parsedSets := []; parsedWon := None |}
      end
  end.

End Decoder.

Export Decoder.


(** ** Matches *)

(** A match object as the scraper stores it and as [fixMatchData] returns
    it.  Of the pass-through fields only those that the statistics read
    are kept. *)
Record Match := {
  rawText : option string;
  date : option string;
  opponent : option string;
  opponentId : option string;
  myUtr : option Z;
  myUtrBefore : option Z;
  opponentUtr : option Z;
  opponentUtrBefore : option Z;
  sets : option (list string);
  won : option bool;
  isWalkover : bool;
  score : option string
}.

(** ** Walkover detection of the scraper (scraper-full.js, scrapeMatches) *)

Module Scraper.





End Scraper.

(** ** Normalisation (generate-full-review.js, normalizeDate and fixMatchData) *)

Module Normalizer.

Local Open Scope Z_scope.

Definition allDigits (n : nat) (s : string) : bool :=
  JS.allChars JS.isDigit s && (String.length s =? n)%nat.

(** [/^\d{4}-\d{2}-\d{2}$/.test(s)] *)
Definition isIsoDate (s : string) : bool :=
  match JS.split "-" s with
  | [y; m; d] => allDigits 4 y && allDigits 2 m && allDigits 2 d
  | _ => false
  end.

Definition monthMap (mon : string) : option string :=
  if String.eqb mon "Jan" then Some "01" else
  if String.eqb mon "Feb" then Some "02" else
  if String.eqb mon "Mar" then Some "03" else
  if String.eqb mon "Apr" then Some "04" else
  if String.eqb mon "May" then Some "05" else
  if String.eqb mon "Jun" then Some "06" else
  if String.eqb mon "Jul" then Some "07" else
  if String.eqb mon "Aug" then Some "08" else
  if String.eqb mon "Sep" then Some "09" else
  if String.eqb mon "Oct" then Some "10" else
  if String.eqb mon "Nov" then Some "11" else
  if String.eqb mon "Dec" then Some "12" else None.

(** One attempt of [/([A-Za-z]{3})\s*(\d{1,2})/] at the start of [s]. *)
Definition matchMonDay (s : string) : option (string * string) :=
  match s with
  | String a (String b (String c r)) =>
      if JS.isAlpha a && JS.isAlpha b && JS.isAlpha c then
        match JS.trimStart r with
        | String d1 (String d2 _) =>
            if JS.isDigit d1 then
              Some (String a (String b (String c EmptyString)),
                    if JS.isDigit d2 then String d1 (String d2 EmptyString)
                    else String d1 EmptyString)
            else None
        | String d1 EmptyString =>
            if JS.isDigit d1
            then Some (String a (String b (String c EmptyString)), String d1 EmptyString)
            else None
        | EmptyString => None
        end
      else None
  | _ => None
  end.

(** [s.match(re)] without the [g] flag: the leftmost match. *)
Fixpoint searchMonDay (s : string) : option (string * string) :=
  match matchMonDay s with
  | Some r => Some r
  | None => match s with
            | EmptyString => None
            | String _ r => searchMonDay r
            end
  end.

(** [day.padStart(2, "0")] for a day of one or two characters. *)
Definition padDay (day : string) : string :=
  match day with
  | String _ EmptyString => "0" ++ day
  | _ => day
  end.

(** [normalizeDate(dateStr, inferYear)]; [None] is [null]. *)
Definition normalizeDate (dateStr : option string) (inferYear : string) : option string :=
  match dateStr with
  | None | Some EmptyString => None
  | Some d =>
      if isIsoDate d then Some d
      else match searchMonDay d with
           | Some (mon, day) =>
               Some (inferYear ++ "-" ++ default "01" (monthMap mon) ++ "-" ++ padDay day)
           | None => Some d
           end
  end.

(** [s.replace(/\([^)]+\)/, "")]: the first parenthesis that is followed by
    at least one character other than [")"] and then by [")"] is removed
    with what it encloses. *)
Fixpoint stripParenthetical (s : string) : string :=
  match s with
  | EmptyString => EmptyString
  | String c r =>
      if Ascii.eqb c "(" then
        match JS.span (fun x => negb (Ascii.eqb x ")")) r with
        | (String _ _, String _ after) => after
        | _ => String c (stripParenthetical r)
        end
      else String c (stripParenthetical r)
  end.

Definition is01 (c : ascii) : bool := Ascii.eqb c "0" || Ascii.eqb c "1".

(** [s.match(/^[01]-[01]\(/)] *)
Definition startsLikeScoredSuperTiebreak (s : string) : bool :=
  match s with
  | String a (String "-" (String b (String "(" _))) => is01 a && is01 b
  | _ => false
  end.

(** [s.match(/^\d{2,}-\d{2,}$/)] *)
Definition looksConcatenated (s : string) : bool :=
  match JS.split "-" s with
  | [a; b] =>
      JS.allChars JS.isDigit a && (2 <=? String.length a)%nat &&
      JS.allChars JS.isDigit b && (2 <=? String.length b)%nat
  | _ => false
  end.

(** The two numbers of a set string once its parenthetical is removed;
    [None] when there are not exactly two parts. *)
Definition setNumbers (set_ : string) : option (option Z * option Z) :=
  match JS.split "-" (stripParenthetical set_) with
  | [pa; pb] => Some (JS.parseInt pa, JS.parseInt pb)
  | _ => None
  end.

Definition is10 (a b : option Z) : bool :=
  match a, b with Some x, Some y => (x =? 1) && (y =? 0) | _, _ => false end.
Definition is01pair (a b : option Z) : bool :=
  match a, b with Some x, Some y => (x =? 0) && (y =? 1) | _, _ => false end.

(** The callback of [sets.some(...)]; [n] is [sets.length]. *)
Definition looksSuperTiebreak (n : nat) (s : string) : bool :=
  if startsLikeScoredSuperTiebreak s then true
  else match setNumbers s with
       | Some (a, b) =>
           if JS.geNum a 10 || JS.geNum b 10 then true
           else if is10 a b || is01pair a b then (3 <=? n)%nat
           else false
       | None => false
       end.

(** The callback of [sets.forEach(...)] that counts [mySets] and [oppSets]. *)
Definition countSet (hasSuperTiebreak : bool) (acc : nat * nat) (set_ : string)
    : nat * nat :=
  let '(mySets, oppSets) := acc in
  match setNumbers set_ with
  | Some (Some a, Some b) =>
      if hasSuperTiebreak && (a =? 1) && (b =? 0) then (S mySets, oppSets)
      else if hasSuperTiebreak && (a =? 0) && (b =? 1) then (mySets, S oppSets)
      else if hasSuperTiebreak &&
              startsLikeScoredSuperTiebreak (stripParenthetical set_) then
        if (a =? 1) && (b =? 0) then (S mySets, oppSets)
        else if (a =? 0) && (b =? 1) then (mySets, S oppSets)
        else (mySets, oppSets)
      else if b <? a then (S mySets, oppSets)
      else if a <? b then (mySets, S oppSets)
      else (mySets, oppSets)
  | _ => (mySets, oppSets)
  end.

(** [m.isWalkover || m.rawText?.toLowerCase().includes("walkover")] *)
Definition walkoverFlag (m : Match) : bool :=
  isWalkover m ||
  match rawText m with
  | Some text => JS.includes "walkover" (JS.toLowerCase text)
  | None => false
  end.

Section FixMatchData.

(** [TARGET_YEAR], the default of [normalizeDate]'s second argument. *)
Variable TARGET_YEAR : string.
Variable playerName : string.
Variable type : MatchType.

(** The set list that [fixMatchData] settles on. *)
Definition chosenSets (m : Match) : list string :=
  let sets0 := default [] (sets m) in
  let reparse :=
    match type with Doubles => true | Singles => false end
    || match sets0 with
       | first :: _ => looksConcatenated first
       | [] => false
       end
    || (length sets0 =? 0)%nat in
  if reparse then parsedSets (parseScoresFromRawText (rawText m) playerName type)
  else sets0.

(** The body of the [matches.map] callback. *)
Definition fixMatch (m : Match) : Match :=
  let parsed := parseScoresFromRawText (rawText m) playerName type in
  let sets1 := chosenSets m in
  let hasSuperTiebreak := existsb (looksSuperTiebreak (length sets1)) sets1 in
  let '(mySets, oppSets) := fold_left (countSet hasSuperTiebreak) sets1 (0, 0)%nat in
  let won0 := (oppSets <? mySets)%nat in
  let won1 :=
    if (mySets =? 0)%nat && (oppSets =? 0)%nat then
      match won m, parsedWon parsed with
      | Some w, _ => w
      | None, Some w => w
      | None, None => won0
      end
    else won0 in
  let won2 := if walkoverFlag m then default true (won m) else won1 in
  {| rawText := rawText m;
     date := match normalizeDate (date m) TARGET_YEAR with
             | Some d => if JS.nonEmpty d then Some d else date m
             | None => date m
             end;
     opponent := opponent m;
     opponentId := opponentId m;
     myUtr := myUtr m;
     myUtrBefore := myUtrBefore m;
     opponentUtr := opponentUtr m;
     opponentUtrBefore := opponentUtrBefore m;
     sets := Some sets1;
     won := Some won2;
     isWalkover := walkoverFlag m;
     score := Some (JS.join " " sets1) |}.

Definition fixMatchData (matches : list Match) : list Match := map fixMatch matches.

End FixMatchData.

End Normalizer.

(** ** Season statistics (generate-full-review.js, generateStats) *)

(** The nested objects of [stats], one module per shape so that the field
    names of the source can be kept. *)
Module Rec.
Record t := { wins : nat; losses : nat; walkovers : nat }.
End Rec.

Module WL.
Record t := { wins : nat; losses : nat }.
End WL.

Module GR.
Record t := { given : nat; received : nat }.
End GR.

Module WonLost.
Record t := { won : nat; lost : nat }.
End WonLost.

Module Games.
Record t := { won : Z; lost : Z }.
End Games.

Module GD.
Record t := { wonWithFewer : nat; lostWithMore : nat }.
End GD.

(** An entry of [stats.opponents], [stats.teams] or [stats.partners]; the
    last two kinds of entry have no [utr] and no [id]. *)
Module Agg.
Record t := {
  played : nat; wins : nat; losses : nat;
  gamesWon : Z; gamesLost : Z;
  setsWon : nat; setsLost : nat;
  utr : option Z; id : option string
}.
End Agg.

(** An entry of [stats.matches]. *)
Module Clean.
Record t := {
  date : option string;
  opponent : option string;
  partner : option string;
  opponentId : option string;
  opponentUtr : Z;
  opponentUtrBefore : option Z;
  myUtr : Z;
  myUtrBefore : option Z;
  won : option bool;
  isWalkover : bool;
  sets : list string;
  score : string
}.
End Clean.

(** [stats] while the matches are folded.  The tables are keyed by name;
    a name is assumed not to be a member of [Object.prototype]. *)
Record Stats := {
  record : Rec.t;
  vsHigherRated : WL.t;
  vsLowerRated : WL.t;
  bagels : GR.t;
  breadsticks : GR.t;
  tiebreaks : WonLost.t;
  superTiebreaks : WonLost.t;
  setsRecord : WonLost.t;
  gamesRecord : Games.t;
  decidingSets : WonLost.t;
  gamesDifferential : GD.t;
  opponents : gmap string Agg.t;
  partners : gmap string Agg.t;
  teams : gmap string Agg.t;
  longestWinStreak : nat;
  longestLossStreak : nat;
  matches : list Clean.t
}.

(** An entry of [monthlyData]. *)
Module Month.
Record t := { wins : nat; losses : nat; month : option string; total : nat; winPct : Z }.
End Month.

Module Aggregator.

Local Open Scope Z_scope.

(** *** Set strings *)

(** [(\d+)-(\d+)\)] up to the end of the string. *)
Definition scoreInParens (r : string) : option (string * string) :=
  let '(d1, r1) := JS.span JS.isDigit r in
  match r1 with
  | String "-" r2 =>
      let '(d2, r3) := JS.span JS.isDigit r2 in
      match r3 with
      | String ")" EmptyString =>
          if JS.nonEmpty d1 && JS.nonEmpty d2 then Some (d1, d2) else None
      | _ => None
      end
  | _ => None
  end.

(** [set.match(/^([01])-([01])\((\d+)-(\d+)\)$/)]: the first group. *)
Definition matchScoredSuperTiebreak (set_ : string) : option ascii :=
  match set_ with
  | String a (String "-" (String b (String "(" r))) =>
      if Normalizer.is01 a && Normalizer.is01 b then
        match scoreInParens r with Some _ => Some a | None => None end
      else None
  | _ => None
  end.

(** [set.match(/^[01]-[01]$/)]: the character before the dash. *)
Definition matchBareSuperTiebreak (set_ : string) : option ascii :=
  match set_ with
  | String a (String "-" (String b EmptyString)) =>
      if Normalizer.is01 a && Normalizer.is01 b then Some a else None
  | _ => None
  end.

Definition is67 (c : ascii) : bool := Ascii.eqb c "6" || Ascii.eqb c "7".

(** [set.match(/^([67])-([67])(?:\((\d+)-(\d+)\))?$/)]: the first two groups. *)
Definition matchTiebreak (set_ : string) : option (ascii * ascii) :=
  match set_ with
  | String a (String "-" (String b r)) =>
      if is67 a && is67 b then
        match r with
        | EmptyString => Some (a, b)
        | String "(" r' =>
            match scoreInParens r' with Some _ => Some (a, b) | None => None end
        | _ => None
        end
      else None
  | _ => None
  end.

(** Which arm of the [m.sets.forEach] callback a set string takes. *)
Inductive SetKind :=
| ScoredSuperTiebreak (myWon : Z)        (* "1-0(score)" or "0-1(score)" *)
| BareSuperTiebreak (myWon : Z)          (* "1-0" or "0-1" *)
| Tiebreak (myGames oppGames : Z)        (* "7-6(score)" or "6-7(score)" *)
| LargeScore (myGames oppGames : Z)      (* a score of 10 or more *)
| Regular (myGames oppGames : Z)
| Unreadable.                            (* the early [return]s *)

Definition classifySet (set_ : string) : SetKind :=
  match matchScoredSuperTiebreak set_ with
  | Some a => ScoredSuperTiebreak (JS.digitValue a)
  | None =>
      match matchBareSuperTiebreak set_ with
      | Some a => BareSuperTiebreak (JS.digitValue a)
      | None =>
          match matchTiebreak set_ with
          | Some (a, b) => Tiebreak (JS.digitValue a) (JS.digitValue b)
          | None =>
              match Normalizer.setNumbers set_ with
              | Some (Some myGames, Some oppGames) =>
                  if (10 <=? myGames) || (10 <=? oppGames)
                  then LargeScore myGames oppGames
                  else Regular myGames oppGames
              | _ => Unreadable
              end
          end
      end
  end.

(** The variables declared under "Set analysis" for one match. *)
Record Tally := {
  matchSetsWon : nat;       (* [setsWon] *)
  matchSetsLost : nat;      (* [setsLost] *)
  matchGamesWon : Z;
  matchGamesLost : Z;
  hasSuperTiebreak : bool
}.

Definition emptyTally : Tally :=
  {| matchSetsWon := 0; matchSetsLost := 0; matchGamesWon := 0; matchGamesLost := 0;
     hasSuperTiebreak := false |}.

(** *** Updates of single fields of [stats] *)

Definition setSuperTiebreaks (v : WonLost.t) (s : Stats) : Stats :=
  {| record := record s; vsHigherRated := vsHigherRated s;
     vsLowerRated := vsLowerRated s; bagels := bagels s;
     breadsticks := breadsticks s; tiebreaks := tiebreaks s;
     superTiebreaks := v;
     setsRecord := setsRecord s; gamesRecord := gamesRecord s;
     decidingSets := decidingSets s; gamesDifferential := gamesDifferential s;
     opponents := opponents s; partners := partners s; teams := teams s;
     longestWinStreak := longestWinStreak s;
     longestLossStreak := longestLossStreak s; matches := matches s |}.

Definition setTiebreaks (v : WonLost.t) (s : Stats) : Stats :=
  {| record := record s; vsHigherRated := vsHigherRated s;
     vsLowerRated := vsLowerRated s; bagels := bagels s;
     breadsticks := breadsticks s;
     tiebreaks := v;
     superTiebreaks := superTiebreaks s; setsRecord := setsRecord s;
     gamesRecord := gamesRecord s; decidingSets := decidingSets s;
     gamesDifferential := gamesDifferential s; opponents := opponents s;
     partners := partners s; teams := teams s;
     longestWinStreak := longestWinStreak s;
     longestLossStreak := longestLossStreak s; matches := matches s |}.

Definition setBagels (v : GR.t) (s : Stats) : Stats :=
  {| record := record s; vsHigherRated := vsHigherRated s;
     vsLowerRated := vsLowerRated s;
     bagels := v;
     breadsticks := breadsticks s; tiebreaks := tiebreaks s;
     superTiebreaks := superTiebreaks s; setsRecord := setsRecord s;
     gamesRecord := gamesRecord s; decidingSets := decidingSets s;
     gamesDifferential := gamesDifferential s; opponents := opponents s;
     partners := partners s; teams := teams s;
     longestWinStreak := longestWinStreak s;
     longestLossStreak := longestLossStreak s; matches := matches s |}.

Definition setBreadsticks (v : GR.t) (s : Stats) : Stats :=
  {| record := record s; vsHigherRated := vsHigherRated s;
     vsLowerRated := vsLowerRated s; bagels := bagels s;
     breadsticks := v;
     tiebreaks := tiebreaks s; superTiebreaks := superTiebreaks s;
     setsRecord := setsRecord s; gamesRecord := gamesRecord s;
     decidingSets := decidingSets s; gamesDifferential := gamesDifferential s;
     opponents := opponents s; partners := partners s; teams := teams s;
     longestWinStreak := longestWinStreak s;
     longestLossStreak := longestLossStreak s; matches := matches s |}.

Definition incWon (c : WonLost.t) : WonLost.t :=
  {| WonLost.won := S (WonLost.won c); WonLost.lost := WonLost.lost c |}.
Definition incLost (c : WonLost.t) : WonLost.t :=
  {| WonLost.won := WonLost.won c; WonLost.lost := S (WonLost.lost c) |}.
Definition incGiven (c : GR.t) : GR.t :=
  {| GR.given := S (GR.given c); GR.received := GR.received c |}.
Definition incReceived (c : GR.t) : GR.t :=
  {| GR.given := GR.given c; GR.received := S (GR.received c) |}.

(** [hasSuperTiebreak = true; ...; setsWon++] and its twin. *)
Definition superTiebreakWon (t : Tally) : Tally :=
  {| matchSetsWon := S (matchSetsWon t); matchSetsLost := matchSetsLost t;
     matchGamesWon := matchGamesWon t; matchGamesLost := matchGamesLost t;
     hasSuperTiebreak := true |}.
Definition superTiebreakLost (t : Tally) : Tally :=
  {| matchSetsWon := matchSetsWon t; matchSetsLost := S (matchSetsLost t);
     matchGamesWon := matchGamesWon t; matchGamesLost := matchGamesLost t;
     hasSuperTiebreak := true |}.

(** [matchGamesWon += myGames; matchGamesLost += oppGames] and the set
    counters raised by [dw] and [dl]. *)
Definition addGames (myGames oppGames : Z) (dw dl : nat) (t : Tally) : Tally :=
  {| matchSetsWon := matchSetsWon t + dw; matchSetsLost := matchSetsLost t + dl;
     matchGamesWon := matchGamesWon t + myGames;
     matchGamesLost := matchGamesLost t + oppGames;
     hasSuperTiebreak := hasSuperTiebreak t |}.

(** The callback of [m.sets.forEach]. *)
Definition analyzeSet (st : Stats * Tally) (set_ : string) : Stats * Tally :=
  let '(s, t) := st in
  match classifySet set_ with
  | ScoredSuperTiebreak myWon | BareSuperTiebreak myWon =>
      if myWon =? 1
      then (setSuperTiebreaks (incWon (superTiebreaks s)) s, superTiebreakWon t)
      else (setSuperTiebreaks (incLost (superTiebreaks s)) s, superTiebreakLost t)
  | Tiebreak myGames oppGames =>
      let s' :=
        if (myGames =? 7) && (oppGames =? 6) then setTiebreaks (incWon (tiebreaks s)) s
        else if (myGames =? 6) && (oppGames =? 7) then setTiebreaks (incLost (tiebreaks s)) s
        else s in
      (s', if oppGames <? myGames then addGames myGames oppGames 1 0 t
           else addGames myGames oppGames 0 1 t)
  | LargeScore myGames oppGames =>
      if oppGames <? myGames
      then (setSuperTiebreaks (incWon (superTiebreaks s)) s, superTiebreakWon t)
      else (setSuperTiebreaks (incLost (superTiebreaks s)) s, superTiebreakLost t)
  | Regular myGames oppGames =>
      let t' :=
        if oppGames <? myGames then addGames myGames oppGames 1 0 t
        else if myGames <? oppGames then addGames myGames oppGames 0 1 t
        else addGames myGames oppGames 0 0 t in
      let s' :=
        if (myGames =? 6) && (oppGames =? 0) then setBagels (incGiven (bagels s)) s
        else if (myGames =? 0) && (oppGames =? 6) then setBagels (incReceived (bagels s)) s
        else if (myGames =? 6) && (oppGames =? 1) then setBreadsticks (incGiven (breadsticks s)) s
        else if (myGames =? 1) && (oppGames =? 6) then setBreadsticks (incReceived (breadsticks s)) s
        else s in
      (s', t')
  | Unreadable => (s, t)
  end.

(** *** Partner and opposing team of a doubles fragment *)

(** One attempt of [/([A-Z][a-z]+ [A-Z][a-z]+)/] at the start of [s]: the
    matched text and what follows it. *)
Definition matchFullName (s : string) : option (string * string) :=
  match s with
  | String a r =>
      let '(l1, r1) := JS.span JS.isLower r in
      match r1 with
      | String " " (String b r2) =>
          let '(l2, r3) := JS.span JS.isLower r2 in
          if JS.isUpper a && JS.nonEmpty l1 && JS.isUpper b && JS.nonEmpty l2
          then Some (String a l1 ++ " " ++ String b l2, r3)%string
          else None
      | _ => None
      end
  | EmptyString => None
  end.

Section PerMatch.

Variable type : MatchType.
Variable playerName : string.

Definition isDoubles : bool := match type with Doubles => true | Singles => false end.

(** [partner] and [team] as the callback computes them; [None] is [null]. *)
Definition partnerAndTeam (m : Match) : option string * option string :=
  match rawText m with
  | Some (String _ _ as text) =>
      if isDoubles then
        let allNames := matchAll matchFullName text in
        let playerNameParts := JS.split " " playerName in
        let playerFirstName := List.hd EmptyString playerNameParts in
        let playerLastName := List.last playerNameParts EmptyString in
        let partner_ :=
          match allNames with
          | _ :: _ :: _ =>
              let firstTwo := firstn 2 allNames in
              let found :=
                match List.find (fun name =>
                         negb (JS.includes playerFirstName name)
                         || negb (JS.includes playerLastName name)) firstTwo with
                | Some n => Some n
                | None => List.find (fun name => negb (String.eqb name playerName)) firstTwo
                end in
              match found with
              | Some partnerName =>
                  if negb (String.eqb partnerName playerName) then Some partnerName else None
              | None => None
              end
          | _ => None
          end in
        let team_ :=
          match allNames with
          | _ :: _ :: n3 :: n4 :: _ =>
              Some (if String.ltb n4 n3 then n4 ++ " / " ++ n3 else n3 ++ " / " ++ n4)%string
          | _ => None
          end in
        (partner_, team_)
      else (None, None)
  | _ => (None, None)
  end.

(** [a || b || 0] on ratings: [undefined] and [0] are falsy. *)
Definition ratingOr (a : option Z) (b : Z) : Z :=
  match a with
  | Some x => if x =? 0 then b else x
  | None => b
  end.

Definition myUtrOf (m : Match) : Z := ratingOr (myUtr m) (ratingOr (myUtrBefore m) 0).
Definition oppUtrOf (m : Match) : Z :=
  ratingOr (opponentUtr m) (ratingOr (opponentUtrBefore m) 0).

(** [m.opponent] when it is truthy. *)
Definition opponentName (m : Match) : option string :=
  match opponent m with
  | Some (String _ _ as n) => Some n
  | _ => None
  end.

(** The state of the fold: [stats] and the two streak variables declared
    next to it. *)
Record Fold := { stats : Stats; currentWinStreak : nat; currentLossStreak : nat }.

(** "Record (excluding walkovers)". *)
Definition recordPhase (m : Match) (f : Fold) : Fold :=
  let s := stats f in
  match won m with
  | Some true =>
      let cws := S (currentWinStreak f) in
      {| stats :=
        {| record := {| Rec.wins := S (Rec.wins (record s)); Rec.losses := Rec.losses (record s);
                 Rec.walkovers := Rec.walkovers (record s) |};
           vsHigherRated := vsHigherRated s; vsLowerRated := vsLowerRated s;
           bagels := bagels s; breadsticks := breadsticks s; tiebreaks := tiebreaks s;
           superTiebreaks := superTiebreaks s; setsRecord := setsRecord s;
           gamesRecord := gamesRecord s; decidingSets := decidingSets s;
           gamesDifferential := gamesDifferential s; opponents := opponents s;
           partners := partners s; teams := teams s;
           longestWinStreak := if (longestWinStreak s <? cws)%nat then cws else longestWinStreak s;
           longestLossStreak := longestLossStreak s; matches := matches s |};
         currentWinStreak := cws; currentLossStreak := 0 |}
  | Some false =>
      let cls := S (currentLossStreak f) in
      {| stats :=
        {| record := {| Rec.wins := Rec.wins (record s); Rec.losses := S (Rec.losses (record s));
                 Rec.walkovers := Rec.walkovers (record s) |};
           vsHigherRated := vsHigherRated s; vsLowerRated := vsLowerRated s;
           bagels := bagels s; breadsticks := breadsticks s; tiebreaks := tiebreaks s;
           superTiebreaks := superTiebreaks s; setsRecord := setsRecord s;
           gamesRecord := gamesRecord s; decidingSets := decidingSets s;
           gamesDifferential := gamesDifferential s; opponents := opponents s;
           partners := partners s; teams := teams s;
           longestWinStreak := longestWinStreak s;
           longestLossStreak := if (longestLossStreak s <? cls)%nat then cls else longestLossStreak s;
           matches := matches s |};
         currentWinStreak := 0; currentLossStreak := cls |}
  | None => f
  end.

Definition winFor (c : WL.t) : WL.t :=
  {| WL.wins := S (WL.wins c); WL.losses := WL.losses c |}.
Definition lossFor (c : WL.t) : WL.t :=
  {| WL.wins := WL.wins c; WL.losses := S (WL.losses c) |}.

(** "vs Higher/Lower rated". *)
Definition ratingPhase (m : Match) (s : Stats) : Stats :=
  let higher := myUtrOf m <? oppUtrOf m in
  match won m with
  | Some w =>
      let upd := if w then winFor else lossFor in
      {| record := record s;
         vsHigherRated := if higher then upd (vsHigherRated s) else vsHigherRated s;
         vsLowerRated := if higher then vsLowerRated s else upd (vsLowerRated s);
         bagels := bagels s; breadsticks := breadsticks s; tiebreaks := tiebreaks s;
         superTiebreaks := superTiebreaks s; setsRecord := setsRecord s;
         gamesRecord := gamesRecord s; decidingSets := decidingSets s;
         gamesDifferential := gamesDifferential s; opponents := opponents s;
         partners := partners s; teams := teams s;
         longestWinStreak := longestWinStreak s;
         longestLossStreak := longestLossStreak s; matches := matches s |}
  | None => s
  end.

Definition freshAgg (utr_ : option Z) (id_ : option string) : Agg.t :=
  {| Agg.played := 0; Agg.wins := 0; Agg.losses := 0; Agg.gamesWon := 0;
     Agg.gamesLost := 0; Agg.setsWon := 0; Agg.setsLost := 0;
     Agg.utr := utr_; Agg.id := id_ |}.

(** [e.played++] and, by the result, [e.wins++] or [e.losses++]. *)
Definition countPlayed (w : option bool) (e : Agg.t) : Agg.t :=
  {| Agg.played := S (Agg.played e);
     Agg.wins := match w with Some true => S (Agg.wins e) | _ => Agg.wins e end;
     Agg.losses := match w with Some false => S (Agg.losses e) | _ => Agg.losses e end;
     Agg.gamesWon := Agg.gamesWon e; Agg.gamesLost := Agg.gamesLost e;
     Agg.setsWon := Agg.setsWon e; Agg.setsLost := Agg.setsLost e;
     Agg.utr := Agg.utr e; Agg.id := Agg.id e |}.

(** The entry under [k] is created when absent, then counted. *)
Definition countIn (fresh : Agg.t) (w : option bool) (k : string)
    (tbl : gmap string Agg.t) : gmap string Agg.t :=
  <[k := countPlayed w (default fresh (tbl !! k))]> tbl.

(** "Track opponents/teams with game counts". *)
Definition tablePhase (m : Match) (s : Stats) : Stats :=
  let '(partner_, team_) := partnerAndTeam m in
  match (if isDoubles then team_ else None) with
  | Some team =>
      {| record := record s; vsHigherRated := vsHigherRated s;
         vsLowerRated := vsLowerRated s; bagels := bagels s;
         breadsticks := breadsticks s; tiebreaks := tiebreaks s;
         superTiebreaks := superTiebreaks s; setsRecord := setsRecord s;
         gamesRecord := gamesRecord s; decidingSets := decidingSets s;
         gamesDifferential := gamesDifferential s; opponents := opponents s;
         partners := match partner_ with
                  | Some p => countIn (freshAgg None None) (won m) p (partners s)
                  | None => partners s
                  end;
         teams := countIn (freshAgg None None) (won m) team (teams s);
         longestWinStreak := longestWinStreak s;
         longestLossStreak := longestLossStreak s; matches := matches s |}
  | None =>
      match opponentName m with
      | Some o =>
          {| record := record s; vsHigherRated := vsHigherRated s;
             vsLowerRated := vsLowerRated s; bagels := bagels s;
             breadsticks := breadsticks s; tiebreaks := tiebreaks s;
             superTiebreaks := superTiebreaks s; setsRecord := setsRecord s;
             gamesRecord := gamesRecord s; decidingSets := decidingSets s;
             gamesDifferential := gamesDifferential s;
             opponents := countIn (freshAgg (Some (oppUtrOf m)) (opponentId m)) (won m) o
                         (opponents s);
             partners := partners s; teams := teams s;
             longestWinStreak := longestWinStreak s;
             longestLossStreak := longestLossStreak s; matches := matches s |}
      | None => s
      end
  end.

(** The four [+=] on an existing entry; nothing when there is none. *)
Definition addToEntry (t : Tally) (k : option string) (tbl : gmap string Agg.t)
    : gmap string Agg.t :=
  match k with
  | Some name =>
      match tbl !! name with
      | Some e =>
          <[name := {| Agg.played := Agg.played e; Agg.wins := Agg.wins e;
                       Agg.losses := Agg.losses e;
                       Agg.gamesWon := Agg.gamesWon e + matchGamesWon t;
                       Agg.gamesLost := Agg.gamesLost e + matchGamesLost t;
                       Agg.setsWon := Agg.setsWon e + matchSetsWon t;
                       Agg.setsLost := Agg.setsLost e + matchSetsLost t;
                       Agg.utr := Agg.utr e; Agg.id := Agg.id e |}]> tbl
      | None => tbl
      end
  | None => tbl
  end.

(** [wentToDecider] *)
Definition wentToDecider (t : Tally) : bool :=
  ((1 <=? matchSetsWon t)%nat && (1 <=? matchSetsLost t)%nat) || hasSuperTiebreak t.

(** What follows the [forEach] over the sets of one match. *)
Definition afterSets (m : Match) (t : Tally) (s : Stats) : Stats :=
  let '(partner_, team_) := partnerAndTeam m in
  let gw := matchGamesWon t in
  let gl := matchGamesLost t in
  {| record := record s; vsHigherRated := vsHigherRated s;
     vsLowerRated := vsLowerRated s; bagels := bagels s;
     breadsticks := breadsticks s; tiebreaks := tiebreaks s;
     superTiebreaks := superTiebreaks s;
     setsRecord := {| WonLost.won := WonLost.won (setsRecord s) + matchSetsWon t;
                     WonLost.lost := WonLost.lost (setsRecord s) + matchSetsLost t |};
     gamesRecord := {| Games.won := Games.won (gamesRecord s) + gw;
                      Games.lost := Games.lost (gamesRecord s) + gl |};
     decidingSets := if wentToDecider t then
         match won m with
         | Some true => incWon (decidingSets s)
         | Some false => incLost (decidingSets s)
         | None => decidingSets s
         end
       else decidingSets s;
     gamesDifferential := match won m with
       | Some true =>
           if gw <? gl
           then {| GD.wonWithFewer := S (GD.wonWithFewer (gamesDifferential s));
                   GD.lostWithMore := GD.lostWithMore (gamesDifferential s) |}
           else gamesDifferential s
       | Some false =>
           if gl <? gw
           then {| GD.wonWithFewer := GD.wonWithFewer (gamesDifferential s);
                   GD.lostWithMore := S (GD.lostWithMore (gamesDifferential s)) |}
           else gamesDifferential s
       | None => gamesDifferential s
       end;
     opponents := if isDoubles then opponents s else addToEntry t (opponentName m) (opponents s);
     partners := if isDoubles then addToEntry t partner_ (partners s) else partners s;
     teams := if isDoubles then addToEntry t team_ (teams s) else teams s;
     longestWinStreak := longestWinStreak s;
     longestLossStreak := longestLossStreak s; matches := matches s |}.

(** "Set analysis": nothing happens for a missing or empty set list. *)
Definition setPhase (m : Match) (s : Stats) : Stats :=
  match sets m with
  | Some ((_ :: _) as l) =>
      let '(s', t) := fold_left analyzeSet l (s, emptyTally) in
      afterSets m t s'
  | _ => s
  end.

(** [s.replace(/\(\d+\)/, "")] *)
Fixpoint stripLoserPoints (s : string) : string :=
  match s with
  | EmptyString => EmptyString
  | String c r =>
      if Ascii.eqb c "(" then
        match JS.span JS.isDigit r with
        | (String _ _, String ")" after) => after
        | _ => String c (stripLoserPoints r)
        end
      else String c (stripLoserPoints r)
  end.

Definition cleanScore (m : Match) : string :=
  match sets m with
  | Some l => JS.join " " (map stripLoserPoints l)
  | None => if isWalkover m then "W/O" else ""
  end.

(** The object pushed on [stats.matches]. *)
Definition cleanMatch (m : Match) : Clean.t :=
  let '(partner_, team_) := partnerAndTeam m in
  {| Clean.date := date m;
     Clean.opponent :=
       if isDoubles then team_
       else Some (default "Unknown" (opponentName m));
     Clean.partner := if isDoubles then partner_ else None;
     Clean.opponentId := opponentId m;
     Clean.opponentUtr := oppUtrOf m;
     Clean.opponentUtrBefore := opponentUtrBefore m;
     Clean.myUtr := myUtrOf m;
     Clean.myUtrBefore := myUtrBefore m;
     Clean.won := won m;
     Clean.isWalkover := isWalkover m;
     Clean.sets := default [] (sets m);
     Clean.score := cleanScore m |}.

Definition pushPhase (m : Match) (s : Stats) : Stats :=
  {| record := record s; vsHigherRated := vsHigherRated s;
     vsLowerRated := vsLowerRated s; bagels := bagels s;
     breadsticks := breadsticks s; tiebreaks := tiebreaks s;
     superTiebreaks := superTiebreaks s; setsRecord := setsRecord s;
     gamesRecord := gamesRecord s; decidingSets := decidingSets s;
     gamesDifferential := gamesDifferential s; opponents := opponents s;
     partners := partners s; teams := teams s;
     longestWinStreak := longestWinStreak s;
     longestLossStreak := longestLossStreak s;
     matches := matches s ++ [cleanMatch m] |}.

(** [stats.record.walkovers++] *)
Definition countWalkover (s : Stats) : Stats :=
  {| record := {| Rec.wins := Rec.wins (record s); Rec.losses := Rec.losses (record s);
               Rec.walkovers := S (Rec.walkovers (record s)) |};
     vsHigherRated := vsHigherRated s; vsLowerRated := vsLowerRated s;
     bagels := bagels s; breadsticks := breadsticks s; tiebreaks := tiebreaks s;
     superTiebreaks := superTiebreaks s; setsRecord := setsRecord s;
     gamesRecord := gamesRecord s; decidingSets := decidingSets s;
     gamesDifferential := gamesDifferential s; opponents := opponents s;
     partners := partners s; teams := teams s;
     longestWinStreak := longestWinStreak s;
     longestLossStreak := longestLossStreak s; matches := matches s |}.

Definition onStats (g : Stats -> Stats) (f : Fold) : Fold :=
  {| stats := g (stats f); currentWinStreak := currentWinStreak f;
     currentLossStreak := currentLossStreak f |}.

(** The callback of [matches.forEach]. *)
Definition perMatch (f : Fold) (m : Match) : Fold :=
  if isWalkover m then onStats countWalkover f
  else
    onStats (pushPhase m)
      (onStats (setPhase m)
         (onStats (tablePhase m)
            (onStats (ratingPhase m) (recordPhase m f)))).

Definition initialStats : Stats :=
  {| record := {| Rec.wins := 0; Rec.losses := 0; Rec.walkovers := 0 |};
     vsHigherRated := {| WL.wins := 0; WL.losses := 0 |};
     vsLowerRated := {| WL.wins := 0; WL.losses := 0 |};
     bagels := {| GR.given := 0; GR.received := 0 |};
     breadsticks := {| GR.given := 0; GR.received := 0 |};
     tiebreaks := {| WonLost.won := 0; WonLost.lost := 0 |};
     superTiebreaks := {| WonLost.won := 0; WonLost.lost := 0 |};
     setsRecord := {| WonLost.won := 0; WonLost.lost := 0 |};
     gamesRecord := {| Games.won := 0; Games.lost := 0 |};
     decidingSets := {| WonLost.won := 0; WonLost.lost := 0 |};
     gamesDifferential := {| GD.wonWithFewer := 0; GD.lostWithMore := 0 |};
     opponents := ∅; partners := ∅; teams := ∅;
     longestWinStreak := 0; longestLossStreak := 0;
     matches := [] |}.

Definition initialFold : Fold :=
  {| stats := initialStats; currentWinStreak := 0; currentLossStreak := 0 |}.

(** The first [forEach] of [generateStats]. *)
Definition foldMatches (ms : list Match) : Fold := fold_left perMatch ms initialFold.

(** *** After the fold *)

(** [Math.round((a / b) * 100)] for [b > 0], taken exactly: halves round
    up.  The double computation can fall on the other side of a half only
    when [100 * a / b] is itself a half-integer. *)
Definition roundPct (a b : Z) : Z := (200 * a + b) / (2 * b).

Definition pctOf (a b : Z) : Z := if 0 <? b then roundPct a b else 0.

Definition monthNames : list string :=
  ["Jan"; "Feb"; "Mar"; "Apr"; "May"; "Jun"; "Jul"; "Aug"; "Sep"; "Oct"; "Nov"; "Dec"]%string.

(** [monthKey] of a dated match; [None] is [undefined]. *)
Definition monthKey (d : string) : option string :=
  if Normalizer.isIsoDate d then
    match JS.parseInt (JS.take 2 (JS.drop 5 d)) with
    | Some n => if 1 <=? n then monthNames !! Z.to_nat (n - 1) else None
    | None => None
    end
  else Some (JS.take 3 d).

(** The property name under which a month key is stored. *)
Definition propertyName (k : option string) : string := default "undefined" k.

(** A JavaScript object used as a table: the properties in creation order. *)
Definition Table (V : Type) : Type := list (string * V).

Fixpoint tableGet {V} (k : string) (t : Table V) : option V :=
  match t with
  | [] => None
  | (k', v) :: r => if String.eqb k k' then Some v else tableGet k r
  end.

(** [t[k] = v] for a present [k] replaces in place, for an absent one adds
    at the end. *)
Fixpoint tableSet {V} (k : string) (v : V) (t : Table V) : Table V :=
  match t with
  | [] => [(k, v)]
  | (k', v') :: r => if String.eqb k k' then (k, v) :: r else (k', v') :: tableSet k v r
  end.

(** A canonical array index: such property names are enumerated first, in
    numeric order. *)
Definition arrayIndex (k : string) : option Z :=
  if JS.allChars JS.isDigit k && JS.nonEmpty k
     && (String.eqb k "0" || negb (String.prefix "0" k)) then
    let n := JS.digitsValue 10 JS.digitValue 0 k in
    if n <? 4294967295 then Some n else None
  else None.

Fixpoint insertByIndex {V} (n : Z) (v : V) (l : list (Z * V)) : list (Z * V) :=
  match l with
  | [] => [(n, v)]
  | (n', v') :: r => if n <? n' then (n, v) :: l else (n', v') :: insertByIndex n v r
  end.

(** [Object.values(t)] *)
Definition objectValues {V} (t : Table V) : list V :=
  let indexed :=
    fold_right (fun '(k, v) acc =>
        match arrayIndex k with Some n => insertByIndex n v acc | None => acc end) [] t in
  let named :=
    List.filter (fun '(k, _) => match arrayIndex k with Some _ => false | None => true end) t in
  map snd indexed ++ map snd named.

(** An entry of [monthlyStats]: wins, losses and [month]. *)
Definition MonthEntry : Type := nat * nat * option string.

(** The callback that fills [monthlyStats]. *)
Definition monthlyStep (t : Table MonthEntry) (c : Clean.t) : Table MonthEntry :=
  match Clean.date c with
  | Some (String _ _ as d) =>
      let key := monthKey d in
      let '(w, l, mo) := default (0, 0, key)%nat (tableGet (propertyName key) t) in
      tableSet (propertyName key)
        match Clean.won c with
        | Some true => (S w, l, mo)
        | Some false => (w, S l, mo)
        | None => (w, l, mo)
        end t
  | _ => t
  end.

Definition toMonth (e : MonthEntry) : Month.t :=
  let '(w, l, mo) := e in
  {| Month.wins := w; Month.losses := l; Month.month := mo;
     Month.total := (w + l)%nat;
     Month.winPct := pctOf (Z.of_nat w) (Z.of_nat (w + l)) |}.

(** [l.sort((a, b) => key(b) - key(a))]: the stable sort by falling key. *)
Fixpoint insertDesc {A} (key : A -> Z) (x : A) (l : list A) : list A :=
  match l with
  | [] => [x]
  | y :: r => if key x <? key y then y :: insertDesc key x r else x :: l
  end.

Definition sortDesc {A} (key : A -> Z) (l : list A) : list A :=
  fold_right (insertDesc key) [] l.

(** [monthlyData] after the sort. *)
Definition monthlyData (ms : list Clean.t) : list Month.t :=
  sortDesc Month.winPct
    (List.filter (fun mo => (0 <? Month.total mo)%nat)
       (map toMonth (objectValues (fold_left monthlyStep ms [])))).

(** The two numbers of the first set as the comeback count reads them. *)
Definition firstSetNumbers (set_ : string) : option (Z * Z) :=
  match map (fun p => JS.parseInt (JS.filterChars JS.isDigit p)) (JS.split "-" set_) with
  | [Some a; Some b] => Some (a, b)
  | _ => None
  end.

(** The callback that counts [comebacks] and [chokes]. *)
Definition comebackStep (acc : nat * nat) (c : Clean.t) : nat * nat :=
  let '(comebacks, chokes) := acc in
  match Clean.sets c with
  | first :: _ :: _ =>
      match firstSetNumbers first with
      | Some (a, b) =>
          let wonFirstSet := b <? a in
          match Clean.won c with
          | Some true => if wonFirstSet then acc else (S comebacks, chokes)
          | Some false => if wonFirstSet then (comebacks, S chokes) else acc
          | None => acc
          end
      | None => acc
      end
  | _ => acc
  end.

(** The object that [generateStats] returns, without the callouts and the
    head-to-head network (they rank by double arithmetic and are not used
    below). *)
Record SeasonStats := {
  folded : Stats;
  record_winPct : Z;
  gamesRecord_winPct : Z;
  monthlyBreakdown : list Month.t;
  bestMonth : option Month.t;
  worstMonth : option Month.t;
  comebacks : WonLost.t
}.

Definition generateStats (ms : list Match) : SeasonStats :=
  let s := stats (foldMatches ms) in
  let total := (Rec.wins (record s) + Rec.losses (record s))%nat in
  let monthly := monthlyData (matches s) in
  let '(comebacks_, chokes) := fold_left comebackStep (matches s) (0, 0)%nat in
  {| folded := s;
     record_winPct := pctOf (Z.of_nat (Rec.wins (record s))) (Z.of_nat total);
     gamesRecord_winPct :=
       pctOf (Games.won (gamesRecord s))
             (Games.won (gamesRecord s) + Games.lost (gamesRecord s));
     monthlyBreakdown := monthly;
     bestMonth := head monthly;
     worstMonth := last monthly;
     comebacks := {| WonLost.won := comebacks_; WonLost.lost := chokes |} |}.

End PerMatch.

End Aggregator.

(** ** Game totals of one match (recompute-dynamodb-stats.js) *)

Module Recompute.

Local Open Scope Z_scope.

(** [calculateGamesFromSets(sets)]: [(matchGamesWon, matchGamesLost,
    hasSuperTiebreak)]. *)
Definition calculateGamesFromSets (sets_ : list string) : Z * Z * bool :=
  fold_left (fun '(matchGamesWon, matchGamesLost, hasSuperTiebreak) set_ =>
      match Aggregator.matchScoredSuperTiebreak set_ with
      | Some _ => (matchGamesWon, matchGamesLost, true)
      | None =>
          match Aggregator.matchBareSuperTiebreak set_ with
          | Some _ => (matchGamesWon, matchGamesLost, true)
          | None =>
              match Aggregator.matchTiebreak set_ with
              | Some (a, b) =>
                  (matchGamesWon + JS.digitValue a, matchGamesLost + JS.digitValue b,
                   hasSuperTiebreak)
              | None =>
                  match Normalizer.setNumbers set_ with
                  | Some (Some myGames, Some oppGames) =>
                      if (10 <=? myGames) || (10 <=? oppGames)
                      then (matchGamesWon, matchGamesLost, true)
                      else (matchGamesWon + myGames, matchGamesLost + oppGames,
                            hasSuperTiebreak)
                  | _ => (matchGamesWon, matchGamesLost, hasSuperTiebreak)
                  end
              end
          end
      end) sets_ (0, 0, false).

End Recompute.

(** ** Stored reviews recomputed (recompute-dynamodb-stats.js, recomputeStats) *)

Module RecomputeStats.

Local Open Scope Z_scope.

(** [recalculateWonFromSets(sets)]; [None] is [null].  A missing set list
    and an empty one are treated alike by the source and are both [[]]
    here. *)
Definition recalculateWonFromSets (sets_ : list string) : option bool :=
  match sets_ with
  | [] => None
  | _ :: _ =>
      let hasSuperTiebreak :=
        existsb (Normalizer.looksSuperTiebreak (length sets_)) sets_ in
      let '(mySets, oppSets) :=
        fold_left (Normalizer.countSet hasSuperTiebreak) sets_ (0, 0)%nat in
      Some (oppSets <? mySets)%nat
  end.

(** [match.won = recalculatedWon] *)
Definition setWon (w : option bool) (c : Clean.t) : Clean.t :=
  {| Clean.date := Clean.date c; Clean.opponent := Clean.opponent c;
     Clean.partner := Clean.partner c; Clean.opponentId := Clean.opponentId c;
     Clean.opponentUtr := Clean.opponentUtr c;
     Clean.opponentUtrBefore := Clean.opponentUtrBefore c;
     Clean.myUtr := Clean.myUtr c; Clean.myUtrBefore := Clean.myUtrBefore c;
     Clean.won := w;
     Clean.isWalkover := Clean.isWalkover c;
     Clean.sets := Clean.sets c; Clean.score := Clean.score c |}.

Definition sameResult (a b : option bool) : bool :=
  match a, b with
  | Some x, Some y => Bool.eqb x y
  | None, None => true
  | _, _ => false
  end.

(** The variables of the loop over [singles.matches], and the matches as
    the loop leaves them. *)
Record Loop := {
  wonWithFewer : nat;
  lostWithMore : nat;
  matchesUpdated : nat;
  updated : list Clean.t
}.

(** The callback of [singles.matches.forEach], without the best win and the
    worst loss, which compare differences of doubles. *)
Definition recomputeMatch (st : Loop) (c : Clean.t) : Loop :=
  if Clean.isWalkover c then
    {| wonWithFewer := wonWithFewer st; lostWithMore := lostWithMore st;
       matchesUpdated := matchesUpdated st; updated := updated st ++ [c] |}
  else
    match Clean.sets c with
    | [] =>
        {| wonWithFewer := wonWithFewer st; lostWithMore := lostWithMore st;
           matchesUpdated := matchesUpdated st; updated := updated st ++ [c] |}
    | _ :: _ =>
        let recalculatedWon := recalculateWonFromSets (Clean.sets c) in
        let corrects :=
          match recalculatedWon with
          | Some _ => negb (sameResult recalculatedWon (Clean.won c))
          | None => false
          end in
        let c' := if corrects then setWon recalculatedWon c else c in
        let correctedWon := Clean.won c' in
        let '(matchGamesWon, matchGamesLost, _) :=
          Recompute.calculateGamesFromSets (Clean.sets c) in
        let fewer :=
          match correctedWon with
          | Some true => matchGamesWon <? matchGamesLost
          | _ => false
          end in
        let more :=
          match correctedWon with
          | Some false => matchGamesLost <? matchGamesWon
          | _ => false
          end in
        {| wonWithFewer := if fewer then S (wonWithFewer st) else wonWithFewer st;
           lostWithMore := if more then S (lostWithMore st) else lostWithMore st;
           matchesUpdated := if corrects then S (matchesUpdated st) else matchesUpdated st;
           updated := updated st ++ [c'] |}
    end.

(** The loop of [recomputeStats] over [singles.matches]. *)
Definition recomputeMatches (ms : list Clean.t) : Loop :=
  fold_left recomputeMatch ms
    {| wonWithFewer := 0; lostWithMore := 0; matchesUpdated := 0; updated := [] |}.

End RecomputeStats.

(** ** Callouts (generate-full-review.js generateStats, recompute-dynamodb-stats.js
    recomputeStats) *)

Module Callouts.

Local Open Scope Z_scope.

(** An element of [Object.entries(stats.opponents)] or
    [Object.entries(stats.teams)]: the name and the entry.  The callouts
    are functions of this list, in the order in which [Object.entries]
    gives it. *)
Definition Entry : Type := string * Agg.t.

Definition played (e : Entry) : Z := Z.of_nat (Agg.played (snd e)).
Definition wins (e : Entry) : Z := Z.of_nat (Agg.wins (snd e)).
Definition losses (e : Entry) : Z := Z.of_nat (Agg.losses (snd e)).

(** [gameDiff: data.gamesWon - data.gamesLost] *)
Definition gameDiff (e : Entry) : Z := Agg.gamesWon (snd e) - Agg.gamesLost (snd e).

(** [l.sort(cmp)]: the stable sort by a comparator that returns a number;
    [a] comes before [b] when [cmp a b < 0], and elements that compare
    equal keep their order. *)
Fixpoint insertWith {A} (cmp : A -> A -> Z) (x : A) (l : list A) : list A :=
  match l with
  | [] => [x]
  | y :: r => if 0 <? cmp x y then y :: insertWith cmp x r else x :: l
  end.

Definition sortWith {A} (cmp : A -> A -> Z) (l : list A) : list A :=
  fold_right (insertWith cmp) [] l.

(** The comparator of [nemesisCandidates.sort]. *)
Definition nemesisOrder (a b : Entry) : Z :=
  let aNet := losses a - wins a in
  let bNet := losses b - wins b in
  if negb (aNet =? bNet) then bNet - aNet
  else if negb (gameDiff a =? gameDiff b) then gameDiff a - gameDiff b
  else played b - played a.

(** The comparator of [dominatedCandidates.sort]. *)
Definition dominatedOrder (a b : Entry) : Z :=
  let aNet := wins a - losses a in
  let bNet := wins b - losses b in
  if negb (aNet =? bNet) then bNet - aNet
  else if negb (gameDiff a =? gameDiff b) then gameDiff b - gameDiff a
  else played b - played a.

(** [nemesisCandidates[0]] after the sort; [None] when there is no
    candidate. *)
Definition nemesisEntry (entries : list Entry) : option Entry :=
  head (sortWith nemesisOrder
          (List.filter (fun o => (1 <=? losses o) && (2 <=? played o)) entries)).

(** [dominatedCandidates[0]] after the sort. *)
Definition dominatedEntry (entries : list Entry) : option Entry :=
  head (sortWith dominatedOrder
          (List.filter (fun o => (1 <=? wins o) && (2 <=? played o)) entries)).

(** The object stored for a callout: [name], [record], [gamesRecord] and,
    for singles, [utr]. *)
Record Callout := {
  name : string;
  record_ : string;
  gamesRecord_ : string;
  utr : option Z
}.

Definition describe (e : Entry) : Callout :=
  {| name := fst e;
     record_ := JS.showZ (wins e) ++ "-" ++ JS.showZ (losses e);
     gamesRecord_ := JS.showZ (Agg.gamesWon (snd e)) ++ "-" ++ JS.showZ (Agg.gamesLost (snd e));
     utr := Agg.utr (snd e) |}.

(** [stats.nemesis] and [stats.dominatedOpponent]; [None] is [null] or a
    property that was not set. *)
Definition nemesis (entries : list Entry) : option Callout :=
  describe <$> nemesisEntry entries.
Definition dominatedOpponent (entries : list Entry) : option Callout :=
  describe <$> dominatedEntry entries.

(** [stats.frequentOpponents]: the list sorted by [played], falling, and
    cut to five. *)
Definition frequentEntries (entries : list Entry) : list Entry :=
  firstn 5 (Aggregator.sortDesc played entries).

Definition frequentOpponents (entries : list Entry) : list (Callout * Z) :=
  map (fun e => (describe e, played e)) (frequentEntries entries).

End Callouts.

(** ** Scores and sets of a scraped card (scraper-full.js, scrapeMatches) *)

Module ScoreTokens.

Local Open Scope Z_scope.

(** The [while] loop over [rawScores]: two characters that [parseInt]
    reads as 10 or more make one score, otherwise one character makes one.
    [None] is [NaN]. *)
Fixpoint tokens (rawScores : string) : list (option Z) :=
  match rawScores with
  | EmptyString => []
  | String a r1 =>
      match r1 with
      | EmptyString => [JS.parseInt (String a EmptyString)]
      | String b r2 =>
          if JS.geNum (JS.parseInt (String a (String b EmptyString))) 10
          then JS.parseInt (String a (String b EmptyString)) :: tokens r2
          else JS.parseInt (String a EmptyString) :: tokens r1
      end
  end.

(** [scores.filter((n) => !isNaN(n))] *)
Definition scores (rawScores : string) : list Z := omap (fun t => t) (tokens rawScores).

(** [isValidTiebreak] *)
Definition isValidTiebreak (nextMy nextOpp : Z) : bool :=
  ((7 <=? nextMy) || (7 <=? nextOpp))
  && (2 <=? Z.abs (nextMy - nextOpp))
  && negb ((nextMy =? 7) && (nextOpp =? 6))
  && negb ((nextMy =? 6) && (nextOpp =? 7)).

Definition setString (my opp : Z) : string := JS.showZ my ++ "-" ++ JS.showZ opp.

(** The loop that fills [match.sets].  [pairs] is what is left of
    [myScores] and [oppScores] from index [i] on, and [sup] what is left of
    [tiebreakScoresFromSup] from [supScoreIdx] on. *)
Fixpoint buildSets (pairs : list (Z * Z)) (sup : list Z) {struct pairs} : list string :=
  match pairs with
  | [] => []
  | (my, opp) :: rest =>
      if ((my =? 7) && (opp =? 6)) || ((my =? 6) && (opp =? 7)) then
        setString my opp ::
          match sup with
          | _ :: sup' => buildSets rest sup'
          | [] =>
              match rest with
              | (nextMy, nextOpp) :: rest' =>
                  if isValidTiebreak nextMy nextOpp then buildSets rest' []
                  else buildSets rest []
              | [] => []
              end
          end
      else if ((my =? 1) && (opp =? 0)) || ((my =? 0) && (opp =? 1)) then
        match rest with
        | (stbMy, stbOpp) :: rest' => setString stbMy stbOpp :: buildSets rest' sup
        | [] => [setString my opp]
        end
      else setString my opp :: buildSets rest sup
  end.

(** [match.sets] for the two lists of scores. *)
Definition setsOf (myScores oppScores : list Z) (sup : list Z) : list string :=
  if (0 <? length myScores)%nat && (0 <? length oppScores)%nat
     && (length myScores =? length oppScores)%nat
  then buildSets (combine myScores oppScores) sup
  else [].

(** [match.sets] for the two runs of score characters of a card. *)
Definition scrapedSets (myRaw oppRaw : string) (sup : list Z) : list string :=
  setsOf (scores myRaw) (scores oppRaw) sup.

End ScoreTokens.

(** ** Ratings before and after a match (scraper-full.js) *)

Module RatingHistory.

Local Open Scope Z_scope.

(** An entry of a rating history: the time value of [new Date(entry.date)]
    ([None] for an invalid date, which compares false with everything) and
    the rating. *)
Record Entry := { time : option Z; rating : Z }.

(** [entryDate <= date] and [entryDate > date] on two [Date] objects. *)
Definition notAfter (entryDate date : option Z) : bool :=
  match entryDate, date with Some a, Some b => a <=? b | _, _ => false end.
Definition isAfter (entryDate date : option Z) : bool :=
  match entryDate, date with Some a, Some b => b <? a | _, _ => false end.

(** [findRatingBefore(history, date)]: the loop with [closest] as its
    variable; it stops at the first entry that is not on or before
    [date]. *)
Fixpoint findRatingBeforeFrom (closest : option Entry) (history : list Entry)
    (date : option Z) : option Entry :=
  match history with
  | [] => closest
  | entry :: rest =>
      if notAfter (time entry) date then findRatingBeforeFrom (Some entry) rest date
      else closest
  end.

Definition findRatingBefore (history : list Entry) (date : option Z) : option Entry :=
  findRatingBeforeFrom None history date.

(** [findRatingAfter(history, date)] *)
Fixpoint findRatingAfter (history : list Entry) (date : option Z) : option Entry :=
  match history with
  | [] => None
  | entry :: rest =>
      if isAfter (time entry) date then Some entry else findRatingAfter rest date
  end.

End RatingHistory.

(** ** The CSV export (lambda-handler-v2.js, generateCSV) *)

Module CsvExport.

Definition quote : ascii := "034"%char.
Definition comma : ascii := ","%char.
Definition newline : ascii := "010"%char.

(** [str.replace] with the global pattern for a quote: every quote is
    written twice. *)
Fixpoint doubleQuotes (str : string) : string :=
  match str with
  | EmptyString => EmptyString
  | String c r =>
      if Ascii.eqb c quote then String quote (String quote (doubleQuotes r))
      else String c (doubleQuotes r)
  end.

(** [escapeCSV(value)]; [None] is [null] or [undefined], and a value that
    is not a string is given by [String(value)]. *)
Definition escapeCSV (value : option string) : string :=
  match value with
  | None => EmptyString
  | Some str =>
      if JS.includes (String comma EmptyString) str
         || JS.includes (String quote EmptyString) str
         || JS.includes (String newline EmptyString) str
      then String quote (doubleQuotes str ++ String quote EmptyString)
      else str
  end.

(** [rows.map((row) => row.map(escapeCSV).join(",")).join("\n")] *)
Definition csvOf (rows : list (list (option string))) : string :=
  JS.join (String newline EmptyString)
    (map (fun row => JS.join (String comma EmptyString) (map escapeCSV row)) rows).

End CsvExport.

(** * Properties *)

(** ** The decoder *)

Section DecoderProperties.

Local Open Scope Z_scope.

(** A regular set in which both sides have the same number of games. *)
Definition isLevel (o : SetOutcome) : bool :=
  match o with
  | RegularSet my opp => my =? opp
  | _ => false
  end.

Definition levelSets (st : Scan) : nat := length (List.filter isLevel (outcomes st)).

(** Every recorded set is credited to one side, or is level. *)
Definition balanced (st : Scan) : Prop :=
  (userSetsWon st + oppSetsWon st + levelSets st = length (outcomes st))%nat.

Lemma levelSets_push o sets_ u v :
  levelSets {| outcomes := sets_ ++ [o]; userSetsWon := u; oppSetsWon := v |}
  = (length (List.filter isLevel sets_) + (if isLevel o then 1 else 0))%nat.
Proof.
  unfold levelSets; simpl. rewrite List.filter_app, List.length_app; simpl.
  destruct (isLevel o); reflexivity.
Qed.

Lemma balanced_pushUser o st :
  isLevel o = false -> balanced st -> balanced (pushUser o st).
Proof.
  unfold balanced, pushUser; intros Ho H. rewrite levelSets_push, Ho; simpl.
  rewrite List.length_app; simpl. unfold levelSets in H. lia.
Qed.

Lemma balanced_pushOpp o st :
  isLevel o = false -> balanced st -> balanced (pushOpp o st).
Proof.
  unfold balanced, pushOpp; intros Ho H. rewrite levelSets_push, Ho; simpl.
  rewrite List.length_app; simpl. unfold levelSets in H. lia.
Qed.

Lemma balanced_pushNone o st :
  isLevel o = true -> balanced st -> balanced (pushNone o st).
Proof.
  unfold balanced, pushNone; intros Ho H. rewrite levelSets_push, Ho; simpl.
  rewrite List.length_app; simpl. unfold levelSets in H. lia.
Qed.

Lemma balanced_pushByScore a b o st :
  isLevel o = false -> balanced st -> balanced (pushByScore a b o st).
Proof.
  intros; unfold pushByScore; destruct (b <? a);
    auto using balanced_pushUser, balanced_pushOpp.
Qed.

Lemma balanced_pushRegular my opp st :
  balanced st -> balanced (pushRegular my opp st).
Proof.
  intros H; unfold pushRegular.
  destruct (opp <? my) eqn:E1; [apply balanced_pushUser; simpl; auto; lia|].
  destruct (my <? opp) eqn:E2; [apply balanced_pushOpp; simpl; auto; lia|].
  apply balanced_pushNone; simpl; auto; lia.
Qed.

Lemma balanced_pushSuperTiebreak my us1 os1 st :
  balanced st -> balanced (pushSuperTiebreak (superTiebreakOutcome my us1 os1) st).
Proof.
  intros H. unfold pushSuperTiebreak.
  assert (Hk : exists w sc, superTiebreakOutcome my us1 os1 = SuperTiebreak w sc).
  { unfold superTiebreakOutcome.
    destruct (remainingAfterIndicator us1 os1) as [[|? ?] [|? ?]]; eauto.
    destruct (stbScores _ _ _ _) as [a b].
    destruct ((10 <=? a) || (10 <=? b)); eauto. }
  destruct Hk as (w & sc & ->).
  destruct w; [apply balanced_pushUser | apply balanced_pushOpp]; auto.
Qed.

(** The loop keeps [balanced]; the induction is on a bound of the number
    of digits left, since a step may consume two pairs. *)
Lemma scan_balanced n : forall us os st,
  (length us <= n)%nat -> balanced st -> balanced (scan us os st).
Proof.
  induction n as [|n IH]; intros us os st Hn Hb.
  - destruct us; [destruct os; exact Hb | simpl in Hn; lia].
  - destruct us as [|my us1]; [destruct os; exact Hb|].
    destruct os as [|opp os1]; [exact Hb|].
    simpl in Hn. cbn [scan].
    destruct (isTiebreakPair my opp).
    { destruct us1 as [|nextMy us2].
      - apply IH; [simpl; lia | apply balanced_pushByScore; auto].
      - destruct os1 as [|nextOpp os2].
        + apply IH; [simpl in *; lia | apply balanced_pushByScore; auto].
        + destruct (inRange07 nextMy && inRange07 nextOpp);
            (apply IH; [simpl in *; lia | apply balanced_pushByScore; auto]). }
    destruct (isIndicatorPair my opp).
    { apply balanced_pushSuperTiebreak; exact Hb. }
    destruct (inRange07 my && inRange07 opp && isValidSet my opp).
    { apply IH; [lia | apply balanced_pushRegular; exact Hb]. }
    unfold deciderOutcome.
    destruct (_ && negb _); [apply balanced_pushByScore; auto | exact Hb].
Qed.

Lemma balanced_start : balanced scanStart.
Proof. reflexivity. Qed.

Lemma decodeDigits_balanced userScoreStr oppScoreStr :
  balanced (decodeDigits userScoreStr oppScoreStr).
Proof.
  unfold decodeDigits. eapply scan_balanced; [reflexivity | apply balanced_start].
Qed.



(** When the digit runs are isolated and no set is decoded, both counters
    are zero and the answer is [won: false]. *)
Lemma no_sets_means_lost (userScoreStr oppScoreStr : string) :
  parsedSets (resultOf (decodeDigits userScoreStr oppScoreStr)) = [] ->
  parsedWon (resultOf (decodeDigits userScoreStr oppScoreStr)) = Some false.
Proof.
  intros H. pose proof (decodeDigits_balanced userScoreStr oppScoreStr) as Hb.
  unfold balanced, levelSets in Hb. unfold resultOf in *; cbn [parsedSets parsedWon] in *.
  destruct (outcomes (decodeDigits userScoreStr oppScoreStr)); [|discriminate].
  cbn in Hb. f_equal. apply Nat.ltb_ge. lia.
Qed.

(** C2: the decoder is a total function, but for the two fragments below,
    whose digit runs are "8" and "6" (a pro set) and "0" and "0", it
    decodes no set and still answers [won: false] instead of [null]. *)
Lemma C2_no_sets_yet_lost :
  parseScoresFromRawText (Some "Harper Chalat 5.74 8 John Smith 4.50 6")
    "Harper Chalat" Singles
  = {| parsedSets := []; parsedWon := Some false |}
  /\ parseScoresFromRawText (Some "Harper Chalat 5.74 0 John Smith 4.50 0")
       "Harper Chalat" Singles
     = {| parsedSets := []; parsedWon := Some false |}.
Proof. split; vm_compute; reflexivity. Qed.



(** *** The score of an indicated super tiebreak *)

Definition isDigitZ (d : Z) : Prop := 0 <= d <= 9.





Lemma remaining_digits us1 os1 ru ro :
  remainingAfterIndicator us1 os1 = (ru, ro) ->
  Forall isDigitZ us1 -> Forall isDigitZ os1 ->
  Forall isDigitZ ru /\ Forall isDigitZ ro.
Proof.
  unfold remainingAfterIndicator; intros H Hu Ho.
  destruct us1 as [|a [|a' us2]]; destruct os1 as [|b [|b' os2]];
    try (inversion H; subst; split; assumption).
  destruct ((a =? 1) && (b =? 1)); inversion H; subst; split; auto;
    match goal with Hx : Forall _ (_ :: ?l) |- Forall _ ?l => inversion Hx; assumption end.
Qed.

Lemma lastDigit_digit ds : Forall isDigitZ ds -> 0 <= lastDigit ds <= 9.
Proof.
  unfold lastDigit. induction 1 as [|d l Hd Hl IH]; simpl; [lia|].
  destruct l; [exact Hd | exact IH].
Qed.








End DecoderProperties.

(** ** Walkovers in the normaliser *)

Section NormalizerProperties.

Variables (TARGET_YEAR playerName : string) (type : MatchType).



End NormalizerProperties.


(** ** The aggregator *)

Section AggregatorProperties.

Import Aggregator.

Variables (type : MatchType) (playerName : string).

Local Open Scope Z_scope.
Local Open Scope list_scope.

(** The tally of a set list does not depend on the statistics it is
    computed next to. *)
Definition tallyOf (l : list string) : Tally :=
  snd (fold_left analyzeSet l (initialStats, emptyTally)).

Lemma analyzeSet_snd s1 s2 t x :
  snd (analyzeSet (s1, t) x) = snd (analyzeSet (s2, t) x).
Proof.
  unfold analyzeSet. destruct (classifySet x); cbn [snd];
    repeat match goal with |- context [if ?c then _ else _] => destruct c end;
    reflexivity.
Qed.

Lemma fold_analyzeSet_snd l : forall s1 s2 t,
  snd (fold_left analyzeSet l (s1, t)) = snd (fold_left analyzeSet l (s2, t)).
Proof.
  induction l as [|x l IH]; intros s1 s2 t; [reflexivity|].
  cbn [fold_left].
  pose proof (analyzeSet_snd s1 s2 t x) as E.
  destruct (analyzeSet (s1, t) x) as [a1 t1], (analyzeSet (s2, t) x) as [a2 t2].
  cbn [snd] in E. subst t2. apply IH.
Qed.

(** The fields that the per-set callback leaves alone. *)
Definition outsideSets (s : Stats) :=
  (record s, vsHigherRated s, vsLowerRated s, setsRecord s, gamesRecord s,
   decidingSets s, gamesDifferential s, opponents s, partners s, teams s,
   longestWinStreak s, longestLossStreak s, matches s).

Lemma analyzeSet_frame s t x : outsideSets (fst (analyzeSet (s, t) x)) = outsideSets s.
Proof.
  unfold analyzeSet. destruct (classifySet x); cbn [fst];
    repeat match goal with |- context [if ?c then _ else _] => destruct c end;
    reflexivity.
Qed.

Lemma fold_analyzeSet_frame l : forall s t,
  outsideSets (fst (fold_left analyzeSet l (s, t))) = outsideSets s.
Proof.
  induction l as [|x l IH]; intros s t; [reflexivity|].
  cbn [fold_left]. pose proof (analyzeSet_frame s t x) as E.
  destruct (analyzeSet (s, t) x) as [s1 t1]. cbn [fst] in E. rewrite IH. exact E.
Qed.

(** What one match adds to the two anomaly counters. *)
Definition anomalyOf (m : Match) : nat * nat :=
  if isWalkover m then (0, 0)%nat
  else match sets m with
       | Some ((_ :: _) as l) =>
           let t := tallyOf l in
           match won m with
           | Some true => if matchGamesWon t <? matchGamesLost t then (1, 0)%nat else (0, 0)%nat
           | Some false => if matchGamesLost t <? matchGamesWon t then (0, 1)%nat else (0, 0)%nat
           | None => (0, 0)%nat
           end
       | _ => (0, 0)%nat
       end.

Definition anomalies (s : Stats) : nat * nat :=
  (GD.wonWithFewer (gamesDifferential s), GD.lostWithMore (gamesDifferential s)).

Definition addPair (a b : nat * nat) : nat * nat := (fst a + fst b, snd a + snd b)%nat.

Lemma recordPhase_gd m f :
  gamesDifferential (stats (recordPhase m f)) = gamesDifferential (stats f).
Proof. unfold recordPhase. destruct (won m) as [[|]|]; reflexivity. Qed.

Lemma ratingPhase_gd m s : gamesDifferential (ratingPhase m s) = gamesDifferential s.
Proof. unfold ratingPhase. destruct (won m); reflexivity. Qed.

Lemma tablePhase_gd m s :
  gamesDifferential (tablePhase type playerName m s) = gamesDifferential s.
Proof.
  unfold tablePhase. destruct (partnerAndTeam _ _ _) as [p t].
  destruct (if isDoubles type then t else None); [reflexivity|].
  destruct (opponentName m); reflexivity.
Qed.

Lemma perMatch_anomalies f m :
  anomalies (stats (perMatch type playerName f m)) = addPair (anomalies (stats f)) (anomalyOf m).
Proof.
  unfold Aggregator.perMatch, anomalyOf, anomalies, addPair.
  destruct (isWalkover m).
  { cbn. f_equal; lia. }
  cbn [onStats stats pushPhase gamesDifferential].
  unfold setPhase.
  destruct (sets m) as [[|x l]|].
  1,3: rewrite tablePhase_gd, ratingPhase_gd, recordPhase_gd; cbn; f_equal; lia.
  set (s0 := tablePhase _ _ _ _).
  pose proof (fold_analyzeSet_frame (x :: l) s0 emptyTally) as Hf.
  pose proof (fold_analyzeSet_snd (x :: l) s0 initialStats emptyTally) as Ht.
  fold (tallyOf (x :: l)) in Ht.
  destruct (fold_left analyzeSet (x :: l) (s0, emptyTally)) as [s' t].
  cbn [fst snd] in Hf, Ht. subst t.
  assert (Hgd : gamesDifferential s' = gamesDifferential (stats f)).
  { injection Hf as _ _ _ _ _ _ Hg _ _ _ _ _ _. rewrite Hg. subst s0.
    rewrite tablePhase_gd, ratingPhase_gd, recordPhase_gd. reflexivity. }
  unfold afterSets. destruct (partnerAndTeam _ _ _) as [p t].
  cbn [gamesDifferential]. rewrite Hgd.
  destruct (won m) as [[|]|];
    repeat match goal with |- context [if ?c then _ else _] => destruct c end;
    cbn; f_equal; lia.
Qed.

Lemma fold_perMatch_anomalies ms : forall f,
  anomalies (stats (fold_left (perMatch type playerName) ms f))
  = addPair (anomalies (stats f)) (fold_right (fun m acc => addPair (anomalyOf m) acc) (0, 0)%nat ms).
Proof.
  induction ms as [|m ms IH]; intros f; cbn [fold_left fold_right].
  - unfold addPair, anomalies; cbn. f_equal; lia.
  - rewrite IH, perMatch_anomalies. unfold addPair; cbn [fst snd]. f_equal; lia.
Qed.

(** C9: the anomaly counters of a list that continues [P] by [R] are those
    of [P] plus those of [R], hence not below those of [P]; and folding
    [R] from the state reached after [P] is folding [P ++ R]. *)
Theorem C9_anomaly_counters_monotone (P R : list Match) :
  let gd l := gamesDifferential (folded (generateStats type playerName l)) in
  (GD.wonWithFewer (gd P) <= GD.wonWithFewer (gd (P ++ R)))%nat
  /\ (GD.lostWithMore (gd P) <= GD.lostWithMore (gd (P ++ R)))%nat
  /\ GD.wonWithFewer (gd (P ++ R)) = (GD.wonWithFewer (gd P) + GD.wonWithFewer (gd R))%nat
  /\ GD.lostWithMore (gd (P ++ R)) = (GD.lostWithMore (gd P) + GD.lostWithMore (gd R))%nat
  /\ fold_left (perMatch type playerName) R (foldMatches type playerName P)
     = foldMatches type playerName (P ++ R).
Proof.
  intros gd.
  assert (Hgd : forall l, (GD.wonWithFewer (gd l), GD.lostWithMore (gd l))
                = fold_right (fun m acc => addPair (anomalyOf m) acc) (0, 0)%nat l).
  { intros l. subst gd. cbv beta.
    assert (E : folded (generateStats type playerName l) = stats (foldMatches type playerName l)).
    { unfold Aggregator.generateStats. destruct (fold_left comebackStep _ _). reflexivity. }
    rewrite E. unfold Aggregator.foldMatches.
    change (anomalies (stats (fold_left (perMatch type playerName) l initialFold)) =
            fold_right (fun m acc => addPair (anomalyOf m) acc) (0, 0)%nat l).
    rewrite fold_perMatch_anomalies. unfold addPair; cbn [fst snd anomalies].
    destruct (fold_right _ _ _). reflexivity. }
  assert (Happ : forall a b, fold_right (fun m acc => addPair (anomalyOf m) acc) (0, 0)%nat (a ++ b)
      = addPair (fold_right (fun m acc => addPair (anomalyOf m) acc) (0, 0)%nat a)
                (fold_right (fun m acc => addPair (anomalyOf m) acc) (0, 0)%nat b)).
  { intros a b. induction a as [|m a IH]; cbn [app fold_right].
    - unfold addPair; cbn. destruct (fold_right _ _ _); reflexivity.
    - rewrite IH. unfold addPair; cbn [fst snd]. f_equal; lia. }
  pose proof (Hgd P) as HP. pose proof (Hgd R) as HR. pose proof (Hgd (P ++ R)) as HPR.
  rewrite Happ, <- HP, <- HR in HPR. unfold addPair in HPR. cbn [fst snd] in HPR.
  injection HPR as H1 H2.
  repeat split; try lia.
  unfold Aggregator.foldMatches. rewrite fold_left_app. reflexivity.
Qed.

(** *** The deciding-set record *)

(** The side that the per-set callback credits a set to, if any. *)
Definition creditOf (x : string) : option bool :=
  match classifySet x with
  | ScoredSuperTiebreak w | BareSuperTiebreak w => Some (w =? 1)
  | Tiebreak a b | LargeScore a b => Some (b <? a)
  | Regular a b => if b <? a then Some true else if a <? b then Some false else None
  | Unreadable => None
  end.

Definition wonByMe (x : string) : bool :=
  match creditOf x with Some true => true | _ => false end.
Definition wonByOpp (x : string) : bool :=
  match creditOf x with Some false => true | _ => false end.

(** The set strings that the callback takes for a super tiebreak. *)
Definition isSuperTiebreakSet (x : string) : bool :=
  match classifySet x with
  | ScoredSuperTiebreak _ | BareSuperTiebreak _ | LargeScore _ _ => true
  | _ => false
  end.

(** "Went to a decider" as the specification words it: both sides won a
    set before the final one, or the final set is a super tiebreak. *)
Definition deciderAsStated (l : list string) : bool :=
  (existsb wonByMe (removelast l) && existsb wonByOpp (removelast l))
  || match last l with Some x => isSuperTiebreakSet x | None => false end.

(** "Went to a decider" over all the sets of the match. *)
Definition deciderOverAllSets (l : list string) : bool :=
  (existsb wonByMe l && existsb wonByOpp l) || existsb isSuperTiebreakSet l.

Lemma analyzeSet_tally s t x :
  let t' := snd (analyzeSet (s, t) x) in
  (1 <=? matchSetsWon t')%nat = (1 <=? matchSetsWon t)%nat || wonByMe x
  /\ (1 <=? matchSetsLost t')%nat = (1 <=? matchSetsLost t)%nat || wonByOpp x
  /\ hasSuperTiebreak t' = hasSuperTiebreak t || isSuperTiebreakSet x.
Proof.
  unfold analyzeSet, wonByMe, wonByOpp, isSuperTiebreakSet, creditOf.
  destruct (classifySet x); cbn [snd];
    repeat match goal with |- context [if ?c then _ else _] => destruct c end;
    cbn [snd matchSetsWon matchSetsLost hasSuperTiebreak superTiebreakWon
         superTiebreakLost addGames];
    rewrite ?orb_false_r, ?orb_true_r, ?Nat.add_0_r;
    repeat split; try reflexivity;
    destruct (matchSetsWon t), (matchSetsLost t); reflexivity.
Qed.

Lemma fold_analyzeSet_tally l : forall s t,
  let t' := snd (fold_left analyzeSet l (s, t)) in
  (1 <=? matchSetsWon t')%nat = (1 <=? matchSetsWon t)%nat || existsb wonByMe l
  /\ (1 <=? matchSetsLost t')%nat = (1 <=? matchSetsLost t)%nat || existsb wonByOpp l
  /\ hasSuperTiebreak t' = hasSuperTiebreak t || existsb isSuperTiebreakSet l.
Proof.
  induction l as [|x l IH]; intros s t; cbn [fold_left existsb snd].
  - rewrite !orb_false_r. auto.
  - pose proof (analyzeSet_tally s t x) as (A1 & A2 & A3).
    destruct (analyzeSet (s, t) x) as [s1 t1]. cbn [snd] in A1, A2, A3.
    destruct (IH s1 t1) as (B1 & B2 & B3).
    rewrite B1, B2, B3, A1, A2, A3, !orb_assoc. auto.
Qed.

Lemma wentToDecider_tallyOf l : wentToDecider (tallyOf l) = deciderOverAllSets l.
Proof.
  unfold wentToDecider, deciderOverAllSets, tallyOf.
  destruct (fold_analyzeSet_tally l initialStats emptyTally) as (B1 & B2 & B3).
  rewrite B1, B2, B3. reflexivity.
Qed.

Lemma recordPhase_ds m f :
  decidingSets (stats (recordPhase m f)) = decidingSets (stats f).
Proof. unfold recordPhase. destruct (won m) as [[|]|]; reflexivity. Qed.

Lemma ratingPhase_ds m s : decidingSets (ratingPhase m s) = decidingSets s.
Proof. unfold ratingPhase. destruct (won m); reflexivity. Qed.

Lemma tablePhase_ds m s :
  decidingSets (tablePhase type playerName m s) = decidingSets s.
Proof.
  unfold tablePhase. destruct (partnerAndTeam _ _ _) as [p t].
  destruct (if isDoubles type then t else None); [reflexivity|].
  destruct (opponentName m); reflexivity.
Qed.

(** The match of the counterexample: a split pair of sets recorded as lost. *)
Definition splitSetsMatch : Match :=
  {| rawText := None; date := Some "2025-03-01"; opponent := Some "John Smith";
     opponentId := None; myUtr := Some 574; myUtrBefore := None;
     opponentUtr := Some 450; opponentUtrBefore := None;
     sets := Some ["6-4"; "4-6"]; won := Some false; isWalkover := false;
     score := None |}.

(** C7, as stated, fails: in the match "6-4", "4-6" only one side has won
    a set before the final set and the final set is no super tiebreak, yet
    the match is counted as a deciding-set loss. *)
Lemma C7_split_sets_counterexample :
  deciderAsStated ["6-4"; "4-6"] = false
  /\ decidingSets (stats (Aggregator.perMatch Singles "Harper Chalat" initialFold splitSetsMatch))
     = {| WonLost.won := 0; WonLost.lost := 1 |}.
Proof. split; vm_compute; reflexivity. Qed.

(** C7, amended: a match that is no walkover and has a non-empty set list
    enters the deciding-set record exactly when both sides are credited
    with at least one set of the match, the final set included, or some
    set of the match is a super tiebreak; it then counts as a deciding-set
    win if [won] is true and as a loss if [won] is false. *)
Theorem C7_deciding_sets (f : Fold) (m : Match) (x : string) (l : list string) :
  isWalkover m = false ->
  sets m = Some (x :: l) ->
  decidingSets (stats (perMatch type playerName f m))
  = if deciderOverAllSets (x :: l) then
      match won m with
      | Some true => incWon (decidingSets (stats f))
      | Some false => incLost (decidingSets (stats f))
      | None => decidingSets (stats f)
      end
    else decidingSets (stats f).
Proof.
  intros Hw Hs. unfold Aggregator.perMatch. rewrite Hw.
  cbn [onStats stats pushPhase decidingSets].
  unfold setPhase. rewrite Hs.
  set (s0 := tablePhase _ _ _ _).
  pose proof (fold_analyzeSet_frame (x :: l) s0 emptyTally) as Hf.
  pose proof (fold_analyzeSet_snd (x :: l) s0 initialStats emptyTally) as Ht.
  fold (tallyOf (x :: l)) in Ht.
  destruct (fold_left analyzeSet (x :: l) (s0, emptyTally)) as [s' t].
  cbn [fst snd] in Hf, Ht. subst t.
  assert (Hds : decidingSets s' = decidingSets (stats f)).
  { injection Hf as _ _ _ _ _ Hd _ _ _ _ _ _ _. rewrite Hd. subst s0.
    rewrite tablePhase_ds, ratingPhase_ds, recordPhase_ds. reflexivity. }
  unfold afterSets. destruct (partnerAndTeam _ _ _) as [p t].
  cbn [decidingSets]. rewrite Hds, wentToDecider_tallyOf. reflexivity.
Qed.

(** *** Walkovers *)

Lemma analyzeSet_countWalkover s t x :
  analyzeSet (countWalkover s, t) x
  = (countWalkover (fst (analyzeSet (s, t) x)), snd (analyzeSet (s, t) x)).
Proof.
  unfold analyzeSet. destruct (classifySet x); cbn [fst snd];
    repeat match goal with |- context [if ?c then _ else _] => destruct c end;
    reflexivity.
Qed.

Lemma fold_analyzeSet_countWalkover l : forall s t,
  fold_left analyzeSet l (countWalkover s, t)
  = (countWalkover (fst (fold_left analyzeSet l (s, t))),
     snd (fold_left analyzeSet l (s, t))).
Proof.
  induction l as [|x l IH]; intros s t; [reflexivity|].
  cbn [fold_left]. rewrite analyzeSet_countWalkover.
  destruct (analyzeSet (s, t) x) as [s1 t1]. cbn [fst snd]. apply IH.
Qed.

Lemma recordPhase_countWalkover m f :
  recordPhase m (onStats countWalkover f) = onStats countWalkover (recordPhase m f).
Proof. unfold recordPhase. destruct (won m) as [[|]|]; reflexivity. Qed.

Lemma ratingPhase_countWalkover m s :
  ratingPhase m (countWalkover s) = countWalkover (ratingPhase m s).
Proof. unfold ratingPhase. destruct (won m); reflexivity. Qed.

Lemma tablePhase_countWalkover m s :
  tablePhase type playerName m (countWalkover s)
  = countWalkover (tablePhase type playerName m s).
Proof.
  unfold tablePhase. destruct (partnerAndTeam _ _ _) as [p t].
  destruct (if isDoubles type then t else None); [reflexivity|].
  destruct (opponentName m); reflexivity.
Qed.

Lemma afterSets_countWalkover m t s :
  afterSets type playerName m t (countWalkover s)
  = countWalkover (afterSets type playerName m t s).
Proof.
  unfold afterSets. destruct (partnerAndTeam _ _ _) as [p tm]. reflexivity.
Qed.

Lemma setPhase_countWalkover m s :
  setPhase type playerName m (countWalkover s)
  = countWalkover (setPhase type playerName m s).
Proof.
  unfold setPhase. destruct (sets m) as [[|x l]|]; try reflexivity.
  rewrite fold_analyzeSet_countWalkover.
  destruct (fold_left analyzeSet (x :: l) (s, emptyTally)) as [s1 t1].
  cbn [fst snd]. apply afterSets_countWalkover.
Qed.

Lemma pushPhase_countWalkover m s :
  pushPhase type playerName m (countWalkover s)
  = countWalkover (pushPhase type playerName m s).
Proof. reflexivity. Qed.

Lemma perMatch_countWalkover f m :
  perMatch type playerName (onStats countWalkover f) m
  = onStats countWalkover (perMatch type playerName f m).
Proof.
  unfold Aggregator.perMatch. destruct (isWalkover m); [reflexivity|].
  rewrite recordPhase_countWalkover.
  unfold onStats at 1 2 3 4 5 6 7 8. cbn [stats currentWinStreak currentLossStreak].
  rewrite ratingPhase_countWalkover, tablePhase_countWalkover,
    setPhase_countWalkover, pushPhase_countWalkover.
  reflexivity.
Qed.

Lemma fold_perMatch_countWalkover ms : forall f,
  fold_left (perMatch type playerName) ms (onStats countWalkover f)
  = onStats countWalkover (fold_left (perMatch type playerName) ms f).
Proof.
  induction ms as [|m ms IH]; intros f; [reflexivity|].
  cbn [fold_left]. rewrite perMatch_countWalkover. apply IH.
Qed.

Lemma foldMatches_walkover (L1 L2 : list Match) (w : Match) :
  isWalkover w = true ->
  foldMatches type playerName (L1 ++ w :: L2)
  = onStats countWalkover (foldMatches type playerName (L1 ++ L2)).
Proof.
  intros Hw. unfold Aggregator.foldMatches. rewrite !fold_left_app.
  cbn [fold_left]. unfold Aggregator.perMatch at 2. rewrite Hw.
  apply fold_perMatch_countWalkover.
Qed.

(** Every field of [stats] but [record]. *)
Definition outsideRecord (s : Stats) :=
  (vsHigherRated s, vsLowerRated s, bagels s, breadsticks s, tiebreaks s,
   superTiebreaks s, setsRecord s, gamesRecord s, decidingSets s,
   gamesDifferential s, opponents s, partners s, teams s,
   longestWinStreak s, longestLossStreak s, matches s).

(** What [generateStats] derives after the fold. *)
Definition derived (r : SeasonStats) :=
  (record_winPct r, gamesRecord_winPct r, monthlyBreakdown r, bestMonth r,
   worstMonth r, comebacks r).

(** C10: a walkover anywhere in the list raises the walkover counter by
    one and changes nothing else: wins and losses, the current and longest
    streaks, every other field of the statistics (rating splits, bagels,
    breadsticks, tiebreaks, set and game totals, deciding sets, anomaly
    counters, the tables and the match list), and what is derived from
    them (percentages, monthly breakdown, best and worst month, comebacks
    and chokes) are those of the list without the walkover. *)
Theorem C10_walkover_only_counted (L1 L2 : list Match) (w : Match) :
  isWalkover w = true ->
  let a := foldMatches type playerName (L1 ++ w :: L2) in
  let b := foldMatches type playerName (L1 ++ L2) in
  Rec.walkovers (record (stats a)) = S (Rec.walkovers (record (stats b)))
  /\ Rec.wins (record (stats a)) = Rec.wins (record (stats b))
  /\ Rec.losses (record (stats a)) = Rec.losses (record (stats b))
  /\ currentWinStreak a = currentWinStreak b
  /\ currentLossStreak a = currentLossStreak b
  /\ outsideRecord (stats a) = outsideRecord (stats b)
  /\ folded (generateStats type playerName (L1 ++ w :: L2)) = stats a
  /\ folded (generateStats type playerName (L1 ++ L2)) = stats b
  /\ derived (generateStats type playerName (L1 ++ w :: L2))
     = derived (generateStats type playerName (L1 ++ L2)).
Proof.
  intros Hw a b.
  assert (E : a = onStats countWalkover b) by (apply foldMatches_walkover; exact Hw).
  assert (G : forall l, folded (generateStats type playerName l)
                        = stats (foldMatches type playerName l)).
  { intros l. unfold Aggregator.generateStats.
    destruct (fold_left comebackStep _ _). reflexivity. }
  repeat split; try (rewrite E; reflexivity); try apply G.
  unfold derived, Aggregator.generateStats. fold a b. rewrite E.
  cbn [onStats stats countWalkover matches record gamesRecord Rec.wins Rec.losses].
  destruct (fold_left comebackStep (matches (stats b)) (0%nat, 0%nat)).
  reflexivity.
Qed.

(** *** Best and worst month *)

Section StableSort.

Context {A : Type} (key : A -> Z).

Lemma in_insertDesc x y l : In y (insertDesc key x l) <-> y = x \/ In y l.
Proof.
  induction l as [|z l IH]; cbn [insertDesc In]; [intuition congruence|].
  destruct (key x <? key z); cbn [In]; [rewrite IH|]; intuition congruence.
Qed.

Lemma in_sortDesc y l : In y (sortDesc key l) <-> In y l.
Proof.
  induction l as [|x l IH]; cbn [sortDesc fold_right In]; [reflexivity|].
  fold (sortDesc key l). rewrite in_insertDesc, IH. intuition congruence.
Qed.

Lemma insertDesc_not_nil x l : insertDesc key x l <> [].
Proof. destruct l; cbn [insertDesc]; [|destruct (_ <? _)]; discriminate. Qed.

Lemma last_insertDesc x l :
  last (insertDesc key x l)
  = if forallb (fun y => key x <? key y) l then Some x else last l.
Proof.
  induction l as [|z l IH]; cbn [insertDesc forallb]; [reflexivity|].
  destruct (key x <? key z); cbn [andb]; [|reflexivity].
  pose proof (insertDesc_not_nil x l) as Hn.
  destruct (insertDesc key x l) as [|u v] eqn:E; [contradiction|].
  change (last (z :: u :: v)) with (last (u :: v)). rewrite IH.
  destruct l; reflexivity.
Qed.

(** The head of the sorted list is the first element of greatest key. *)
Lemma head_sortDesc l :
  match head (sortDesc key l) with
  | Some b => exists l1 l2, l = l1 ++ b :: l2
                /\ (forall y, In y l1 -> key y < key b)
                /\ (forall y, In y l2 -> key y <= key b)
  | None => l = []
  end.
Proof.
  induction l as [|x l IH]; [reflexivity|].
  cbn [sortDesc fold_right]. fold (sortDesc key l).
  destruct (sortDesc key l) as [|h r]; cbn [head insertDesc] in *.
  - subst l. exists [], []. repeat split; intros y [].
  - destruct IH as (l1 & l2 & -> & H1 & H2).
    destruct (Z.ltb_spec (key x) (key h)); cbn [head].
    + exists (x :: l1), l2. repeat split; [|exact H2].
      intros y [<-|Hy]; [assumption | auto].
    + exists [], (l1 ++ h :: l2). repeat split; [intros y []|].
      intros y Hy. apply in_app_or in Hy as [Hy|[<-|Hy]];
        [specialize (H1 _ Hy) | | specialize (H2 _ Hy)]; lia.
Qed.

(** The last element of the sorted list is the last element of least key. *)
Lemma last_sortDesc l :
  match last (sortDesc key l) with
  | Some w => exists l1 l2, l = l1 ++ w :: l2
                /\ (forall y, In y l1 -> key w <= key y)
                /\ (forall y, In y l2 -> key w < key y)
  | None => l = []
  end.
Proof.
  induction l as [|x l IH]; [reflexivity|].
  cbn [sortDesc fold_right]. fold (sortDesc key l).
  rewrite last_insertDesc.
  destruct (forallb _ (sortDesc key l)) eqn:Ef.
  - exists [], l. repeat split; [intros y []|].
    intros y Hy. rewrite forallb_forall in Ef.
    apply Z.ltb_lt, Ef, in_sortDesc, Hy.
  - destruct (last (sortDesc key l)) as [w|].
    + destruct IH as (l1 & l2 & -> & H1 & H2).
      exists (x :: l1), l2. repeat split; [|exact H2].
      intros y [E|Hy]; [subst y|auto].
      assert (Hex : exists z, In z (l1 ++ w :: l2) /\ key z <= key x).
      { destruct (existsb (fun z => negb (key x <? key z)) (sortDesc key (l1 ++ w :: l2)))
          eqn:Ee.
        - apply existsb_exists in Ee as (z & Hz & Hk).
          exists z. split; [apply in_sortDesc, Hz|].
          apply negb_true_iff, Z.ltb_ge in Hk. exact Hk.
        - assert (Hall : forallb (fun z => key x <? key z) (sortDesc key (l1 ++ w :: l2)) = true).
          { apply forallb_forall. intros z Hz.
            destruct (key x <? key z) eqn:Ek; [reflexivity|].
            assert (existsb (fun z => negb (key x <? key z)) (sortDesc key (l1 ++ w :: l2)) = true)
              by (apply existsb_exists; exists z; rewrite Ek; auto).
            congruence. }
          congruence. }
      destruct Hex as (z & Hz & Hk).
      apply in_app_or in Hz as [Hz|[<-|Hz]];
        [specialize (H1 _ Hz) | | specialize (H2 _ Hz)]; lia.
    + subst l. discriminate.
Qed.

End StableSort.

(** The months that [monthlyData] holds before it is sorted, in the order
    in which [Object.values] lists the table. *)
Definition monthCandidates (ms : list Clean.t) : list Month.t :=
  List.filter (fun mo => (0 <? Month.total mo)%nat)
    (map toMonth (objectValues (fold_left monthlyStep ms []))).

Definition wonIn (d : string) : Match :=
  {| rawText := None; date := Some d; opponent := Some "John Smith";
     opponentId := None; myUtr := Some 574; myUtrBefore := None;
     opponentUtr := Some 450; opponentUtrBefore := None;
     sets := Some ["6-4"; "6-4"]; won := Some true; isWalkover := false;
     score := None |}.

(** C8, as stated, fails: with one win in January followed by two wins in
    February both months stand at 100 per cent, and the best month is
    January although February has more matches. *)
Lemma C8_tie_counterexample :
  let r := Aggregator.generateStats Singles "Harper Chalat"
             [wonIn "2025-01-10"; wonIn "2025-02-01"; wonIn "2025-02-20"] in
  exists b y,
    bestMonth r = Some b /\ In y (monthlyBreakdown r)
    /\ Month.month b = Some "Jan"%string /\ Month.month y = Some "Feb"%string
    /\ Month.winPct y = Month.winPct b
    /\ (Month.total b < Month.total y)%nat.
Proof.
  eexists _, _. vm_compute.
  split; [reflexivity|]. split; [right; left; reflexivity|].
  repeat split; constructor.
Qed.

(** C8, amended: the best month is the first, and the worst month the
    last, in the order in which the monthly table lists its months (the
    order of first appearance, for month names), among the months of
    greatest, respectively least, win percentage; the number of matches
    played takes no part in the choice. *)
Theorem C8_best_and_worst_month (ms : list Match) :
  let r := generateStats type playerName ms in
  let cands := monthCandidates (matches (folded r)) in
  match bestMonth r with
  | Some b => exists l1 l2, cands = l1 ++ b :: l2
                /\ (forall y, In y l1 -> Month.winPct y < Month.winPct b)
                /\ (forall y, In y l2 -> Month.winPct y <= Month.winPct b)
  | None => cands = []
  end
  /\ match worstMonth r with
     | Some w => exists l1 l2, cands = l1 ++ w :: l2
                   /\ (forall y, In y l1 -> Month.winPct w <= Month.winPct y)
                   /\ (forall y, In y l2 -> Month.winPct w < Month.winPct y)
     | None => cands = []
     end.
Proof.
  intros r cands. subst r cands. unfold Aggregator.generateStats.
  destruct (fold_left comebackStep _ _).
  cbn [bestMonth worstMonth folded]. unfold monthlyData.
  fold (monthCandidates (matches (stats (foldMatches type playerName ms)))).
  split; [apply head_sortDesc | apply last_sortDesc].
Qed.

(** *** Game totals *)

(** The games that the sets of one match add to the game totals. *)
Definition gamesOf (l : list string) : Z * Z :=
  (matchGamesWon (tallyOf l), matchGamesLost (tallyOf l)).

Lemma digit_cases (d : Z) : 0 <= d <= 7 ->
  d = 0 \/ d = 1 \/ d = 2 \/ d = 3 \/ d = 4 \/ d = 5 \/ d = 6 \/ d = 7.
Proof. lia. Qed.

(** A regular set that the decoder records adds its two digits to the game
    totals, unless it is the level set "1-1". *)
Lemma regular_set_games (my opp : Z) :
  0 <= my <= 7 -> 0 <= opp <= 7 ->
  isIndicatorPair my opp = false -> isValidSet my opp = true ->
  (my, opp) <> (1, 1) ->
  gamesOf [render (RegularSet my opp)] = (my, opp)
  /\ Recompute.calculateGamesFromSets [render (RegularSet my opp)] = (my, opp, false).
Proof.
  intros Hm Ho Hi Hv Hne.
  destruct (digit_cases my Hm) as [->|[->|[->|[->|[->|[->|[->| ->]]]]]]];
    destruct (digit_cases opp Ho) as [->|[->|[->|[->|[->|[->|[->| ->]]]]]]];
    try discriminate Hi; try discriminate Hv; try (exfalso; apply Hne; reflexivity);
    split; vm_compute; reflexivity.
Qed.

(** A tiebreak set adds 7 and 6, with or without the points of the
    tiebreak game, and a super tiebreak without score adds nothing. *)
Lemma tiebreak_set_games (a b : Z) :
  0 <= a <= 7 -> 0 <= b <= 7 ->
  gamesOf [render (TiebreakSet 7 6 None)] = (7, 6)
  /\ gamesOf [render (TiebreakSet 6 7 None)] = (6, 7)
  /\ gamesOf [render (TiebreakSet 7 6 (Some (a, b)))] = (7, 6)
  /\ gamesOf [render (TiebreakSet 6 7 (Some (a, b)))] = (6, 7)
  /\ gamesOf [render (SuperTiebreak true None)] = (0, 0)
  /\ gamesOf [render (SuperTiebreak false None)] = (0, 0).
Proof.
  intros Ha Hb.
  destruct (digit_cases a Ha) as [->|[->|[->|[->|[->|[->|[->| ->]]]]]]];
    destruct (digit_cases b Hb) as [->|[->|[->|[->|[->|[->|[->| ->]]]]]]];
    repeat split; vm_compute; reflexivity.
Qed.

(** The match of C6: "6-4" and a second set left at 1-1, as the decoder
    returns it for the digit runs "61" and "41". *)
Definition levelSetMatch : Match :=
  {| rawText := Some "Harper Chalat 5.74 61 John Smith 4.50 41";
     date := Some "2025-03-01"; opponent := Some "John Smith";
     opponentId := None; myUtr := Some 574; myUtrBefore := None;
     opponentUtr := Some 450; opponentUtrBefore := None;
     sets := Some ["6-4"; "1-1"]; won := Some true; isWalkover := false;
     score := None |}.

(** C6: the regular set "1-1" is taken for a super tiebreak.  The match
    "6-4", "1-1" adds 6 and 4 to the game totals, overall and for the
    opponent, where the two regular sets hold 7 and 5 games, and it adds a
    super tiebreak won. *)
Lemma C6_level_set_games_dropped :
  let s := stats (Aggregator.perMatch Singles "Harper Chalat" initialFold levelSetMatch) in
  outcomes (decodeDigits "61" "41") = [RegularSet 6 4; RegularSet 1 1]
  /\ parsedSets (parseScoresFromRawText (rawText levelSetMatch) "Harper Chalat" Singles)
     = ["6-4"; "1-1"]%string
  /\ gamesRecord s = {| Games.won := 6; Games.lost := 4 |}
  /\ superTiebreaks s = {| WonLost.won := 1; WonLost.lost := 0 |}
  /\ (Agg.gamesWon <$> opponents s !! "John Smith"%string) = Some 6
  /\ (Agg.gamesLost <$> opponents s !! "John Smith"%string) = Some 4
  /\ Recompute.calculateGamesFromSets ["6-4"; "1-1"]%string = (6, 4, true).
Proof. repeat split; vm_compute; reflexivity. Qed.

End AggregatorProperties.

(** ** Set strings of the decoder as the aggregator reads them *)

Section Rendering.

Local Open Scope Z_scope.

Lemma isDigit_cases c : JS.isDigit c = true ->
  (c = "0" \/ c = "1" \/ c = "2" \/ c = "3" \/ c = "4" \/
   c = "5" \/ c = "6" \/ c = "7" \/ c = "8" \/ c = "9")%char.
Proof.
  destruct c as [[|] [|] [|] [|] [|] [|] [|] [|]]; intros H;
    try discriminate H; tauto.
Qed.

Lemma string_of_uint_digits d :
  JS.allChars JS.isDigit (NilEmpty.string_of_uint d) = true.
Proof. induction d; cbn; auto. Qed.

Lemma of_uint_acc_value d : forall acc,
  Z.pos (Pos.of_uint_acc d acc)
  = JS.digitsValue 10 JS.digitValue (Z.pos acc) (NilEmpty.string_of_uint d).
Proof.
  induction d; intros acc; cbn [Pos.of_uint_acc NilEmpty.string_of_uint JS.digitsValue];
    try reflexivity; rewrite IHd; f_equal;
    match goal with |- context [JS.digitValue ?c] =>
      let v := eval vm_compute in (JS.digitValue c) in
      change (JS.digitValue c) with v end;
    rewrite ?Pos2Z.inj_add, ?Pos2Z.inj_mul; lia.
Qed.

Lemma of_uint_value d :
  Z.of_N (Pos.of_uint d) = JS.digitsValue 10 JS.digitValue 0 (NilEmpty.string_of_uint d).
Proof.
  induction d; cbn [Pos.of_uint NilEmpty.string_of_uint JS.digitsValue];
    try reflexivity; try exact IHd;
    cbn [Z.of_N]; rewrite of_uint_acc_value; reflexivity.
Qed.

Lemma showZ_pos p : JS.showZ (Z.pos p) = NilEmpty.string_of_uint (Pos.to_uint p).
Proof.
  unfold JS.showZ. cbn [Z.to_int NilZero.string_of_int NilZero.string_of_uint].
  pose proof (Unsigned.to_uint_nonnil p) as H.
  destruct (Pos.to_uint p); [contradiction|reflexivity..].
Qed.

(** A number that is not negative is rendered by its decimal digits. *)
Lemma showZ_spec a : 0 <= a ->
  JS.allChars JS.isDigit (JS.showZ a) = true
  /\ JS.nonEmpty (JS.showZ a) = true
  /\ JS.digitsValue 10 JS.digitValue 0 (JS.showZ a) = a.
Proof.
  intros Ha. destruct a as [|p|p]; [repeat split; reflexivity| |lia].
  rewrite showZ_pos. repeat split.
  - apply string_of_uint_digits.
  - pose proof (Unsigned.to_uint_nonnil p) as H.
    destruct (Pos.to_uint p); [contradiction|reflexivity..].
  - rewrite <- of_uint_value, Unsigned.of_to. reflexivity.
Qed.


Lemma append_nil_l t : ("" ++ t)%string = t.
Proof. reflexivity. Qed.

Lemma append_cons c s t : (String c s ++ t)%string = String c (s ++ t).
Proof. reflexivity. Qed.

Lemma append_nil_r s : (s ++ "")%string = s.
Proof. induction s as [|c s IH]; [reflexivity|]. rewrite append_cons, IH. reflexivity. Qed.

Lemma append_assoc s t u : ((s ++ t) ++ u)%string = (s ++ t ++ u)%string.
Proof.
  induction s as [|c s IH]; [reflexivity|]. rewrite !append_cons, IH. reflexivity.
Qed.

Lemma span_app p A R :
  JS.allChars p A = true ->
  match R with String c _ => p c = false | EmptyString => True end ->
  JS.span p (A ++ R) = (A, R).
Proof.
  intros HA HR. induction A as [|c A IH].
  - rewrite append_nil_l. destruct R as [|c r]; [reflexivity|].
    cbn [JS.span]. rewrite HR. reflexivity.
  - cbn [JS.allChars] in HA. apply andb_true_iff in HA as [Hc HA].
    rewrite append_cons. cbn [JS.span]. rewrite Hc, (IH HA). reflexivity.
Qed.

Lemma allChars_impl (p q : ascii -> bool) s :
  (forall c, p c = true -> q c = true) ->
  JS.allChars p s = true -> JS.allChars q s = true.
Proof.
  intros Hpq. induction s as [|c s IH]; cbn [JS.allChars]; [reflexivity|].
  intros H. apply andb_true_iff in H as [Hc Hs]. rewrite (Hpq _ Hc), (IH Hs). reflexivity.
Qed.

Lemma digit_not c x : JS.isDigit c = true -> JS.isDigit x = false -> Ascii.eqb c x = false.
Proof.
  intros Hc Hx. destruct (Ascii.eqb_spec c x) as [->|]; [congruence | reflexivity].
Qed.

Lemma splitGo_no_sep sep A : forall cur R,
  JS.allChars (fun c => negb (Ascii.eqb c sep)) A = true ->
  JS.splitGo sep cur (A ++ R) = JS.splitGo sep (cur ++ A) R.
Proof.
  induction A as [|c A IH]; intros cur R H.
  - rewrite append_nil_l, append_nil_r. reflexivity.
  - cbn [JS.allChars] in H. apply andb_true_iff in H as [Hc HA].
    apply negb_true_iff in Hc. rewrite append_cons. cbn [JS.splitGo].
    rewrite Hc, (IH _ _ HA), append_assoc. reflexivity.
Qed.

(** Two runs of digits joined by a dash split into the two runs. *)
Lemma split_dash A B :
  JS.allChars JS.isDigit A = true -> JS.allChars JS.isDigit B = true ->
  JS.split "-" (A ++ "-" ++ B) = [A; B].
Proof.
  intros HA HB. unfold JS.split.
  assert (Hn : forall s, JS.allChars JS.isDigit s = true ->
                 JS.allChars (fun c => negb (Ascii.eqb c "-")) s = true).
  { intros s. apply allChars_impl. intros c Hc.
    apply negb_true_iff, digit_not; [exact Hc | reflexivity]. }
  rewrite (splitGo_no_sep "-" A "" _ (Hn _ HA)), append_nil_l, append_cons, append_nil_l.
  cbn [JS.splitGo]. replace (Ascii.eqb "-" "-") with true by reflexivity.
  f_equal. pose proof (splitGo_no_sep "-" B "" "" (Hn _ HB)) as E.
  rewrite append_nil_r, append_nil_l in E. rewrite E. reflexivity.
Qed.

Lemma stripParenthetical_plain s :
  JS.allChars (fun c => negb (Ascii.eqb c "(")) s = true ->
  Normalizer.stripParenthetical s = s.
Proof.
  induction s as [|c s IH]; cbn [JS.allChars Normalizer.stripParenthetical]; [reflexivity|].
  intros H. apply andb_true_iff in H as [Hc Hs]. apply negb_true_iff in Hc.
  rewrite Hc, (IH Hs). reflexivity.
Qed.

Lemma allChars_app p A B :
  JS.allChars p (A ++ B) = JS.allChars p A && JS.allChars p B.
Proof.
  induction A as [|c A IH]; [reflexivity|].
  rewrite append_cons. cbn [JS.allChars]. rewrite IH, andb_assoc. reflexivity.
Qed.

Ltac digit_split c H :=
  destruct (isDigit_cases c H) as [->|[->|[->|[->|[->|[->|[->|[->|[->| ->]]]]]]]]].

Lemma parseInt_digits A :
  JS.allChars JS.isDigit A = true -> JS.nonEmpty A = true ->
  JS.parseInt A = Some (JS.digitsValue 10 JS.digitValue 0 A).
Proof.
  intros HA Hne. destruct A as [|c A]; [discriminate|].
  assert (Hspan : JS.span JS.isDigit (String c A) = (String c A, ""%string)).
  { pose proof (span_app JS.isDigit (String c A) "" HA I) as E.
    rewrite append_nil_r in E. exact E. }
  cbn [JS.allChars] in HA. apply andb_true_iff in HA as [Hc HA].
  assert (Hsp : JS.isSpace c = false) by (digit_split c Hc; reflexivity).
  unfold JS.parseInt, JS.trimStart.
  cbn [JS.span]. rewrite Hsp. cbn [snd].
  destruct A as [|x A'].
  - digit_split c Hc; reflexivity.
  - cbn [JS.allChars] in HA. apply andb_true_iff in HA as [Hx HA'].
    digit_split c Hc; unfold JS.parseIntUnsigned; rewrite ?Hspan; try reflexivity.
    digit_split x Hx; reflexivity.
Qed.

Import Aggregator.

Definition isNumeral (A : string) : Prop :=
  JS.allChars JS.isDigit A = true /\ JS.nonEmpty A = true.

Definition valueOf (A : string) : Z := JS.digitsValue 10 JS.digitValue 0 A.

Lemma scoreInParens_numerals A B :
  isNumeral A -> isNumeral B ->
  scoreInParens (A ++ "-" ++ B ++ ")") = Some (A, B).
Proof.
  intros [HA NA] [HB NB]. unfold scoreInParens.
  rewrite (span_app JS.isDigit A _ HA); [|reflexivity].
  rewrite append_cons, append_nil_l.
  rewrite (span_app JS.isDigit B _ HB); [|reflexivity].
  rewrite NA, NB. reflexivity.
Qed.

(** A scored super tiebreak, as the decoder writes it, is read as one. *)
Lemma classify_scored_super_tiebreak (w : bool) (a b : Z) :
  0 <= a -> 0 <= b ->
  classifySet (render (SuperTiebreak w (Some (a, b))))
  = ScoredSuperTiebreak (if w then 1 else 0).
Proof.
  intros Ha Hb.
  destruct (showZ_spec a Ha) as (A1 & A2 & _), (showZ_spec b Hb) as (B1 & B2 & _).
  pose proof (scoreInParens_numerals _ _ (conj A1 A2) (conj B1 B2)) as E.
  unfold classifySet, matchScoredSuperTiebreak.
  rewrite !append_cons, !append_nil_l in E.
  destruct w; cbn [render]; rewrite !append_cons, !append_nil_l;
    cbn [Normalizer.is01 Ascii.eqb Bool.eqb andb orb]; rewrite E; reflexivity.
Qed.

Lemma digitValue_bound c : JS.isDigit c = true -> 0 <= JS.digitValue c <= 9.
Proof. intros H. digit_split c H; vm_compute; split; discriminate. Qed.

(** Two numerals joined by a dash, one of them ten or more, are read as a
    score of ten or more. *)
Lemma classify_large_score A B :
  isNumeral A -> isNumeral B ->
  10 <= valueOf A \/ 10 <= valueOf B ->
  classifySet (A ++ "-" ++ B) = LargeScore (valueOf A) (valueOf B).
Proof.
  intros [HA NA] [HB NB] Hten.
  assert (Hnum : Normalizer.setNumbers (A ++ "-" ++ B)
                 = Some (Some (valueOf A), Some (valueOf B))).
  { unfold Normalizer.setNumbers.
    rewrite stripParenthetical_plain.
    - rewrite (split_dash A B HA HB).
      rewrite (parseInt_digits A HA NA), (parseInt_digits B HB NB). reflexivity.
    - rewrite !allChars_app. cbn [JS.allChars].
      rewrite (allChars_impl JS.isDigit _ A), (allChars_impl JS.isDigit _ B); auto;
        intros c Hc; apply negb_true_iff, digit_not; auto. }
  assert (Hnone : matchScoredSuperTiebreak (A ++ "-" ++ B) = None
                  /\ matchBareSuperTiebreak (A ++ "-" ++ B) = None
                  /\ matchTiebreak (A ++ "-" ++ B) = None).
  { destruct A as [|c1 A']; [discriminate|].
    cbn [JS.allChars] in HA. apply andb_true_iff in HA as [Hc1 HA'].
    destruct A' as [|c A''].
    - destruct B as [|c2 B']; [discriminate|].
      cbn [JS.allChars] in HB. apply andb_true_iff in HB as [Hc2 HB'].
      destruct B' as [|e B''].
      + exfalso. unfold valueOf in Hten. cbn [JS.digitsValue] in Hten.
        pose proof (digitValue_bound c1 Hc1). pose proof (digitValue_bound c2 Hc2). lia.
      + cbn [JS.allChars] in HB'. apply andb_true_iff in HB' as [He _].
        rewrite !append_cons, !append_nil_l.
        unfold matchScoredSuperTiebreak, matchBareSuperTiebreak, matchTiebreak.
        split; [|split]; try (destruct (is67 c1 && is67 c2); [|reflexivity]);
          digit_split e He; reflexivity.
    - cbn [JS.allChars] in HA'. apply andb_true_iff in HA' as [Hc _].
      rewrite !append_cons.
      unfold matchScoredSuperTiebreak, matchBareSuperTiebreak, matchTiebreak.
      split; [|split]; digit_split c Hc; reflexivity. }
  destruct Hnone as (N1 & N2 & N3).
  unfold classifySet. rewrite N1, N2, N3, Hnum.
  destruct Hten as [H|H]; apply Z.leb_le in H; rewrite H, ?orb_true_r; reflexivity.
Qed.

Lemma classify_decider (a b : Z) :
  0 <= a -> 0 <= b -> 10 <= a \/ 10 <= b ->
  classifySet (render (Decider a b)) = LargeScore a b.
Proof.
  intros Ha Hb Hten.
  destruct (showZ_spec a Ha) as (A1 & A2 & A3), (showZ_spec b Hb) as (B1 & B2 & B3).
  cbn [render].
  rewrite (classify_large_score _ _ (conj A1 A2) (conj B1 B2));
    unfold valueOf; rewrite A3, B3; auto.
Qed.

(** *** The outcomes that the decoder can record *)

Definition wellFormed (o : SetOutcome) : Prop :=
  match o with
  | RegularSet my opp =>
      0 <= my <= 7 /\ 0 <= opp <= 7
      /\ isIndicatorPair my opp = false /\ isValidSet my opp = true
  | TiebreakSet my opp sub =>
      isTiebreakPair my opp = true
      /\ match sub with Some (a, b) => 0 <= a <= 7 /\ 0 <= b <= 7 | None => True end
  | SuperTiebreak _ (Some (a, b)) => 0 <= a /\ 0 <= b
  | SuperTiebreak _ None => True
  | Decider a b => 0 <= a /\ 0 <= b /\ (10 <= a \/ 10 <= b)
  end.

Lemma fold_digits_nonneg ds : forall acc,
  Forall isDigitZ ds -> 0 <= acc ->
  0 <= fold_left (fun acc d => 10 * acc + d) ds acc.
Proof.
  induction ds as [|d l IH]; intros acc Hds Hacc; cbn [fold_left]; [exact Hacc|].
  inversion Hds as [|? ? Hd Hl]; subst. apply IH; [exact Hl|].
  unfold isDigitZ in Hd. lia.
Qed.

Lemma parseDigits_nonneg ds : Forall isDigitZ ds -> 0 <= parseDigits ds.
Proof. intros H. apply fold_digits_nonneg; [exact H | lia]. Qed.

Lemma stbScores_nonneg nextUser nextOpp ru ro :
  Forall isDigitZ ru -> Forall isDigitZ ro ->
  0 <= fst (stbScores nextUser nextOpp ru ro) /\ 0 <= snd (stbScores nextUser nextOpp ru ro).
Proof.
  intros Du Do.
  pose proof (lastDigit_digit _ Du). pose proof (lastDigit_digit _ Do).
  pose proof (parseDigits_nonneg _ Du). pose proof (parseDigits_nonneg _ Do).
  assert (0 <= firstTwo ru) by (apply parseDigits_nonneg, Forall_take, Du).
  assert (0 <= firstTwo ro) by (apply parseDigits_nonneg, Forall_take, Do).
  assert (0 <= parseDigits (skipn (length ro - 2) ro))
    by (apply parseDigits_nonneg, Forall_drop, Do).
  unfold stbScores, stbSpecialCase, stbStrategy1.
  destruct ru as [|ru0 ru']; destruct ro as [|ro0 ro'];
    try (inversion Du as [|? ? Dru0 ?]; subst; unfold isDigitZ in Dru0);
    repeat match goal with
      | |- context [if ?c then _ else _] => destruct c
      end; cbn [fst snd]; split; lia.
Qed.

Lemma superTiebreakOutcome_wellFormed my us1 os1 :
  Forall isDigitZ us1 -> Forall isDigitZ os1 ->
  wellFormed (superTiebreakOutcome my us1 os1).
Proof.
  intros Du Do. unfold superTiebreakOutcome.
  destruct (remainingAfterIndicator us1 os1) as [ru ro] eqn:Hrem.
  destruct (remaining_digits _ _ _ _ Hrem Du Do) as [Dru Dro].
  destruct ru as [|ru0 ru'], ro as [|ro0 ro']; try exact I.
  pose proof (stbScores_nonneg (head us1) (head os1) _ _ Dru Dro) as [H1 H2].
  destruct (stbScores _ _ _ _) as [a b]. cbn [fst snd] in H1, H2.
  destruct ((10 <=? a) || (10 <=? b)); [split; assumption | exact I].
Qed.

Lemma Forall_push (P : SetOutcome -> Prop) o st f :
  (f = pushUser \/ f = pushOpp \/ f = pushNone) ->
  P o -> Forall P (outcomes st) -> Forall P (outcomes (f o st)).
Proof.
  intros [->|[->| ->]] Ho H; cbn [outcomes pushUser pushOpp pushNone];
    apply Forall_app; split; auto.
Qed.

Lemma scan_wellFormed n : forall us os st,
  (length us <= n)%nat -> Forall isDigitZ us -> Forall isDigitZ os ->
  Forall wellFormed (outcomes st) ->
  Forall wellFormed (outcomes (scan us os st)).
Proof.
  induction n as [|n IH]; intros us os st Hn Du Do Hst.
  - destruct us; [destruct os; exact Hst | simpl in Hn; lia].
  - destruct us as [|my us1]; [destruct os; exact Hst|].
    destruct os as [|opp os1]; [exact Hst|].
    simpl in Hn. cbn [scan].
    inversion Du as [|? ? Dmy Du1]; subst. inversion Do as [|? ? Dopp Do1]; subst.
    unfold isDigitZ in Dmy, Dopp.
    destruct (isTiebreakPair my opp) eqn:Etb.
    { assert (Hpush : forall sub,
                match sub with Some (a, b) => 0 <= a <= 7 /\ 0 <= b <= 7 | None => True end ->
                Forall wellFormed (outcomes (pushByScore my opp (TiebreakSet my opp sub) st))).
      { intros sub Hsub. unfold pushByScore.
        destruct (opp <? my); apply Forall_push; auto; split; auto. }
      destruct us1 as [|nextMy us2].
      - apply IH; [simpl; lia | assumption | assumption | apply (Hpush None I)].
      - destruct os1 as [|nextOpp os2].
        + apply IH; [simpl in *; lia | assumption | assumption | apply (Hpush None I)].
        + destruct (inRange07 nextMy && inRange07 nextOpp) eqn:Er.
          * inversion Du1; subst. inversion Do1; subst.
            apply IH; [simpl in *; lia | assumption | assumption |].
            apply (Hpush (Some (nextMy, nextOpp))).
            unfold inRange07 in Er. lia.
          * apply IH; [simpl in *; lia | assumption | assumption | apply (Hpush None I)]. }
    destruct (isIndicatorPair my opp) eqn:Ei.
    { pose proof (superTiebreakOutcome_wellFormed my us1 os1 Du1 Do1) as Hw.
      unfold pushSuperTiebreak.
      destruct (superTiebreakOutcome my us1 os1) as [| |[|] ?|];
        apply Forall_push; auto. }
    destruct (inRange07 my && inRange07 opp && isValidSet my opp) eqn:Ev.
    { apply IH; [lia | assumption | assumption |]. unfold pushRegular.
      assert (wellFormed (RegularSet my opp)).
      { unfold inRange07 in Ev. cbn [wellFormed].
        apply andb_true_iff in Ev as [Ev1 Ev2]. repeat split; auto; lia. }
      destruct (opp <? my); [|destruct (my <? opp)]; apply Forall_push; auto. }
    unfold deciderOutcome.
    destruct (_ && negb _) eqn:Ed; [|exact Hst].
    unfold pushByScore.
    assert (wellFormed (Decider (parseDigits (my :: us1)) (parseDigits (opp :: os1)))).
    { cbn [wellFormed]. apply andb_true_iff in Ed as [Ed _].
      repeat split; try (apply parseDigits_nonneg; assumption). lia. }
    destruct (_ <? _); apply Forall_push; auto.
Qed.

Lemma digitsOf_digits s :
  JS.allChars JS.isDigit s = true -> Forall isDigitZ (digitsOf s).
Proof.
  unfold digitsOf. induction s as [|c s IH]; cbn [JS.allChars list_ascii_of_string map];
    [constructor|].
  intros H. apply andb_true_iff in H as [Hc Hs].
  constructor; [apply digitValue_bound, Hc | apply IH, Hs].
Qed.

(** The games that a recorded set stands for. *)
Definition gamesIn (o : SetOutcome) : Z * Z :=
  match o with
  | RegularSet my opp | TiebreakSet my opp _ => (my, opp)
  | SuperTiebreak _ _ | Decider _ _ => (0, 0)
  end.

Lemma gamesOf_single x :
  gamesOf [x] = match classifySet x with
                | Tiebreak a b | Regular a b => (a, b)
                | _ => (0, 0)
                end.
Proof.
  unfold gamesOf, tallyOf. cbn [fold_left]. unfold analyzeSet.
  destruct (classifySet x); cbn [snd];
    repeat match goal with |- context [if ?c then _ else _] => destruct c end;
    reflexivity.
Qed.

(** Every set that the decoder records, the level set "1-1" apart, adds to
    the game totals the games it stands for: its two digits for a regular
    or tiebreak set, nothing for a super tiebreak. *)
Lemma wellFormed_games (o : SetOutcome) :
  wellFormed o -> o <> RegularSet 1 1 -> gamesOf [render o] = gamesIn o.
Proof.
  intros Hw Hne. destruct o as [my opp|my opp sub|w [[a b]|]|a b]; cbn [wellFormed gamesIn] in *.
  - destruct Hw as (H1 & H2 & H3 & H4).
    apply regular_set_games; auto. intros E. apply Hne. congruence.
  - destruct Hw as [Htb Hsub].
    assert (Hp : (my = 7 /\ opp = 6) \/ (my = 6 /\ opp = 7)) by (unfold isTiebreakPair in Htb; lia).
    destruct sub as [[a b]|].
    + destruct Hsub as [Ha Hb].
      destruct (tiebreak_set_games a b Ha Hb) as (_ & _ & T1 & T2 & _).
      destruct Hp as [[-> ->]|[-> ->]]; assumption.
    + destruct (tiebreak_set_games 0 0) as (T1 & T2 & _); [lia..|].
      destruct Hp as [[-> ->]|[-> ->]]; assumption.
  - destruct Hw as [Ha Hb]. rewrite gamesOf_single, classify_scored_super_tiebreak; auto.
  - destruct w; reflexivity.
  - destruct Hw as (Ha & Hb & Hten). rewrite gamesOf_single, classify_decider; auto.
Qed.

Lemma decoded_set_games (userScoreStr oppScoreStr : string) (o : SetOutcome) :
  JS.allChars JS.isDigit userScoreStr = true ->
  JS.allChars JS.isDigit oppScoreStr = true ->
  In o (outcomes (decodeDigits userScoreStr oppScoreStr)) ->
  o <> RegularSet 1 1 ->
  gamesOf [render o] = gamesIn o.
Proof.
  intros Hu Ho Hin Hne. apply wellFormed_games; [|exact Hne].
  assert (H : Forall wellFormed (outcomes (decodeDigits userScoreStr oppScoreStr))).
  { unfold decodeDigits. eapply scan_wellFormed;
      [reflexivity | apply digitsOf_digits, Hu | apply digitsOf_digits, Ho | constructor]. }
  rewrite List.Forall_forall in H. apply H, Hin.
Qed.

End Rendering.

(** The theorem at the split-sets match, folded first. *)
Lemma C7_deciding_sets_witness :
  decidingSets (Aggregator.stats
    (Aggregator.perMatch Singles "Harper Chalat" Aggregator.initialFold splitSetsMatch))
  = {| WonLost.won := 0; WonLost.lost := 1 |}.
Proof.
  rewrite (C7_deciding_sets Singles "Harper Chalat" Aggregator.initialFold
             splitSetsMatch "6-4" ["4-6"] eq_refl eq_refl).
  reflexivity.
Defined.

(** A walkover card between two played matches. *)
Definition walkoverMatch : Match :=
  {| rawText := Some "Harper Chalat 5.74 John Smith 4.50 Walkover";
     date := Some "2025-02-01"; opponent := Some "John Smith";
     opponentId := None; myUtr := Some 574%Z; myUtrBefore := None;
     opponentUtr := Some 450%Z; opponentUtrBefore := None;
     sets := Some []; won := Some true; isWalkover := true; score := Some "" |}.

(** The theorem at a walkover between two played matches. *)
Lemma C10_walkover_only_counted_witness :
  Rec.walkovers (record (Aggregator.stats
    (Aggregator.foldMatches Singles "Harper Chalat"
       ([wonIn "2025-01-10"] ++ walkoverMatch :: [splitSetsMatch]))))
  = S (Rec.walkovers (record (Aggregator.stats
        (Aggregator.foldMatches Singles "Harper Chalat"
           ([wonIn "2025-01-10"] ++ [splitSetsMatch]))))).
Proof.
  exact (proj1 (C10_walkover_only_counted Singles "Harper Chalat"
                  [wonIn "2025-01-10"] [splitSetsMatch] walkoverMatch eq_refl)).
Defined.

(** * Properties of the code beyond the specification *)

(** ** Further properties of the decoder *)

Section DecoderBounds.

Local Open Scope Z_scope.
Local Open Scope list_scope.

Lemma outcomes_push o st f :
  f = pushUser \/ f = pushOpp \/ f = pushNone ->
  outcomes (f o st) = outcomes st ++ [o].
Proof. intros [->|[->| ->]]; reflexivity. Qed.

Lemma outcomes_pushByScore a b o st :
  outcomes (pushByScore a b o st) = outcomes st ++ [o].
Proof. unfold pushByScore. destruct (b <? a); reflexivity. Qed.

Lemma outcomes_pushRegular my opp st :
  outcomes (pushRegular my opp st) = outcomes st ++ [RegularSet my opp].
Proof. unfold pushRegular. destruct (opp <? my), (my <? opp); reflexivity. Qed.

Lemma outcomes_pushSuperTiebreak o st :
  outcomes (pushSuperTiebreak o st) = outcomes st ++ [o].
Proof. unfold pushSuperTiebreak. destruct o as [| |[|] ?|]; reflexivity. Qed.

(** Each turn of the loop records at most one set and uses up at least one
    digit on each side. *)
Lemma scan_length n : forall us os st,
  (length us <= n)%nat ->
  (length (outcomes (scan us os st))
   <= length (outcomes st) + Nat.min (length us) (length os))%nat.
Proof.
  induction n as [|n IH]; intros us os st Hn.
  - destruct us; [destruct os; simpl; lia | simpl in Hn; lia].
  - destruct us as [|my us1]; [destruct os; simpl; lia|].
    destruct os as [|opp os1]; [simpl; lia|].
    simpl in Hn. cbn [scan].
    destruct (isTiebreakPair my opp).
    { destruct us1 as [|nextMy us2].
      - etransitivity; [apply IH; simpl; lia|].
        rewrite outcomes_pushByScore, List.length_app. simpl. lia.
      - destruct os1 as [|nextOpp os2].
        + etransitivity; [apply IH; simpl in *; lia|].
          rewrite outcomes_pushByScore, List.length_app. simpl. lia.
        + destruct (inRange07 nextMy && inRange07 nextOpp);
            (etransitivity; [apply IH; simpl in *; lia|]);
            rewrite outcomes_pushByScore, List.length_app; simpl; lia. }
    destruct (isIndicatorPair my opp).
    { rewrite outcomes_pushSuperTiebreak, List.length_app. simpl. lia. }
    destruct (inRange07 my && inRange07 opp && isValidSet my opp).
    { etransitivity; [apply IH; lia|].
      rewrite outcomes_pushRegular, List.length_app. simpl. lia. }
    unfold deciderOutcome.
    destruct (_ && negb _); [rewrite outcomes_pushByScore, List.length_app|];
      simpl; lia.
Qed.

Lemma length_digitsOf s : length (digitsOf s) = String.length s.
Proof.
  unfold digitsOf. rewrite List.length_map.
  induction s as [|c s IH]; [reflexivity|]. simpl. rewrite IH. reflexivity.
Qed.

(** X1: the decoder never returns more sets than the shorter of the two
    digit runs has digits. *)
Theorem decoded_sets_bounded (userScoreStr oppScoreStr : string) :
  (length (parsedSets (resultOf (decodeDigits userScoreStr oppScoreStr)))
   <= Nat.min (String.length userScoreStr) (String.length oppScoreStr))%nat.
Proof.
  unfold resultOf, decodeDigits. cbn [parsedSets]. rewrite List.length_map.
  pose proof (scan_length (length (digitsOf userScoreStr)) (digitsOf userScoreStr)
                (digitsOf oppScoreStr) scanStart (Nat.le_refl _)) as H.
  rewrite !length_digitsOf in H. exact H.
Qed.

(** The outcomes after which the loop breaks. *)
Definition endsScan (o : SetOutcome) : bool :=
  match o with
  | SuperTiebreak _ _ | Decider _ _ => true
  | RegularSet _ _ | TiebreakSet _ _ _ => false
  end.

Definition noneEnds (l : list SetOutcome) : bool := forallb (fun o => negb (endsScan o)) l.

Lemma noneEnds_app l x : noneEnds (l ++ [x]) = noneEnds l && negb (endsScan x).
Proof. unfold noneEnds. rewrite forallb_app. simpl. rewrite andb_true_r. reflexivity. Qed.

Lemma noneEnds_removelast l : noneEnds l = true -> noneEnds (removelast l) = true.
Proof.
  unfold noneEnds. rewrite !forallb_forall. intros H x Hx. apply H.
  destruct l as [|a l]; [contradiction|].
  rewrite (app_removelast_last a (l := a :: l)) by discriminate.
  apply in_or_app. left. exact Hx.
Qed.

Lemma scan_ends_last n : forall us os st,
  (length us <= n)%nat ->
  noneEnds (outcomes st) = true ->
  noneEnds (removelast (outcomes (scan us os st))) = true.
Proof.
  induction n as [|n IH]; intros us os st Hn Hst.
  - destruct us; [destruct os; apply noneEnds_removelast, Hst | simpl in Hn; lia].
  - destruct us as [|my us1]; [destruct os; apply noneEnds_removelast, Hst|].
    destruct os as [|opp os1]; [apply noneEnds_removelast, Hst|].
    simpl in Hn. cbn [scan].
    assert (Hstep : forall o, endsScan o = false -> noneEnds (outcomes st ++ [o]) = true)
      by (intros o Ho; rewrite noneEnds_app, Hst, Ho; reflexivity).
    destruct (isTiebreakPair my opp).
    { destruct us1 as [|nextMy us2].
      - apply IH; [simpl; lia|]. rewrite outcomes_pushByScore. apply Hstep. reflexivity.
      - destruct os1 as [|nextOpp os2].
        + apply IH; [simpl in *; lia|]. rewrite outcomes_pushByScore. apply Hstep. reflexivity.
        + destruct (inRange07 nextMy && inRange07 nextOpp);
            (apply IH; [simpl in *; lia|]); rewrite outcomes_pushByScore;
            apply Hstep; reflexivity. }
    destruct (isIndicatorPair my opp).
    { rewrite outcomes_pushSuperTiebreak, removelast_last. exact Hst. }
    destruct (inRange07 my && inRange07 opp && isValidSet my opp).
    { apply IH; [lia|]. rewrite outcomes_pushRegular. apply Hstep. reflexivity. }
    unfold deciderOutcome.
    destruct (_ && negb _).
    + rewrite outcomes_pushByScore, removelast_last. exact Hst.
    + apply noneEnds_removelast, Hst.
Qed.

(** X2: a super tiebreak, indicated or not, can only be the last set that
    the decoder returns. *)
Theorem super_tiebreak_only_last (userScoreStr oppScoreStr : string) :
  noneEnds (removelast (outcomes (decodeDigits userScoreStr oppScoreStr))) = true.
Proof.
  unfold decodeDigits. eapply scan_ends_last; [reflexivity | reflexivity].
Qed.

(** A pair that the loop takes for a regular set. *)
Definition plainPair (p : Z * Z) : bool :=
  negb (isTiebreakPair (fst p) (snd p)) && negb (isIndicatorPair (fst p) (snd p))
  && inRange07 (fst p) && inRange07 (snd p) && isValidSet (fst p) (snd p).

Lemma scan_plain us : forall os st,
  forallb plainPair (combine us os) = true ->
  outcomes (scan us os st)
  = outcomes st ++ map (fun p => RegularSet (fst p) (snd p)) (combine us os)
  /\ userSetsWon (scan us os st)
     = (userSetsWon st + length (List.filter (fun p => (snd p <? fst p)%Z) (combine us os)))%nat
  /\ oppSetsWon (scan us os st)
     = (oppSetsWon st + length (List.filter (fun p => (fst p <? snd p)%Z) (combine us os)))%nat.
Proof.
  induction us as [|my us1 IH]; intros os st H.
  - destruct os; cbn; rewrite app_nil_r; repeat split; lia.
  - destruct os as [|opp os1]; [cbn; rewrite app_nil_r; repeat split; lia|].
    cbn [combine forallb] in H. apply andb_true_iff in H as [Hp Hrest].
    unfold plainPair in Hp. cbn [fst snd] in Hp.
    repeat (apply andb_true_iff in Hp as [Hp ?]).
    apply negb_true_iff in Hp. 
    match goal with Hi : negb (isIndicatorPair _ _) = true |- _ => apply negb_true_iff in Hi end.
    cbn [scan]. rewrite Hp.
    repeat match goal with Hx : _ = _ |- _ => rewrite Hx; clear Hx end.
    cbn [andb].
    destruct (IH os1 (pushRegular my opp st) Hrest) as (E1 & E2 & E3).
    rewrite E1, E2, E3, outcomes_pushRegular. cbn [combine map List.filter fst snd].
    rewrite <- app_assoc. cbn [app]. unfold pushRegular.
    destruct (Z.ltb_spec opp my), (Z.ltb_spec my opp); try lia;
      cbn [userSetsWon oppSetsWon pushUser pushOpp pushNone length];
      repeat split; lia.
Qed.

(** X4: when every aligned pair of digits is an ordinary set score (within
    0..7, accepted by [isValidSet], neither a tiebreak pair nor an
    indicator pair), the decoder returns one regular set per pair, in
    order, and credits each set to the side with more games. *)
Theorem plain_runs_decode_pairwise (userScoreStr oppScoreStr : string) :
  let pairs := combine (digitsOf userScoreStr) (digitsOf oppScoreStr) in
  forallb plainPair pairs = true ->
  parsedSets (resultOf (decodeDigits userScoreStr oppScoreStr))
  = map (fun p => (JS.showZ (fst p) ++ "-" ++ JS.showZ (snd p))%string) pairs
  /\ userSetsWon (decodeDigits userScoreStr oppScoreStr)
     = length (List.filter (fun p => (snd p <? fst p)%Z) pairs)
  /\ oppSetsWon (decodeDigits userScoreStr oppScoreStr)
     = length (List.filter (fun p => (fst p <? snd p)%Z) pairs).
Proof.
  intros pairs H. unfold decodeDigits, resultOf. cbn [parsedSets].
  destruct (scan_plain _ _ scanStart H) as (E1 & E2 & E3).
  rewrite E1, E2, E3. cbn [scanStart outcomes userSetsWon oppSetsWon app].
  rewrite List.map_map. repeat split.
Qed.

End DecoderBounds.

Lemma plain_runs_decode_pairwise_witness :
  parsedSets (resultOf (decodeDigits "646" "463")) = ["6-4"; "4-6"; "6-3"]%string.
Proof.
  exact (proj1 (plain_runs_decode_pairwise "646" "463" eq_refl)).
Defined.
(** ** What the decoder can record *)

Section DecoderShapes.

Local Open Scope Z_scope.
Local Open Scope list_scope.








End DecoderShapes.


(** ** The digit runs of a singles fragment *)

Section Isolation.

Local Open Scope list_scope.

Definition noDigits (s : string) : Prop :=
  JS.allChars (fun c => negb (JS.isDigit c)) s = true.

Definition blank (s : string) : Prop :=
  JS.allChars JS.isSpace s = true /\ JS.nonEmpty s = true.

(** A rating as the fragments print it: digits, a point, two digits. *)
Definition isRatingText (r : string) : Prop :=
  exists ip a b, isNumeral ip /\ JS.isDigit a = true /\ JS.isDigit b = true
                 /\ r = (ip ++ "." ++ String a (String b ""))%string.

Definition startsWithoutDigit (s : string) : Prop :=
  match s with String c _ => JS.isDigit c = false | EmptyString => True end.

Lemma length_append s t : String.length (s ++ t) = (String.length s + String.length t)%nat.
Proof.
  induction s as [|c s IH]; [reflexivity|]. rewrite append_cons. simpl. rewrite IH. reflexivity.
Qed.

Lemma matchAllGo_skip {A} (m : string -> option (A * string)) pre : forall s,
  matchAllGo m (String.length pre) (pre ++ s) = matchAllGo m 0 s.
Proof.
  induction pre as [|c pre IH]; intros s.
  - rewrite append_nil_l. reflexivity.
  - rewrite append_cons. cbn [String.length matchAllGo]. apply IH.
Qed.

Lemma matchUtr_no_digit c s : JS.isDigit c = false -> matchUtr (String c s) = None.
Proof. intros H. unfold matchUtr. cbn [JS.span]. rewrite H. reflexivity. Qed.

Lemma matchAllGo_noDigits pre : forall s,
  noDigits pre ->
  matchAllGo matchUtrScore 0 (pre ++ s) = matchAllGo matchUtrScore 0 s.
Proof.
  induction pre as [|c pre IH]; intros s H.
  - rewrite append_nil_l. reflexivity.
  - unfold noDigits in H. cbn [JS.allChars] in H. apply andb_true_iff in H as [Hc Hp].
    apply negb_true_iff in Hc. rewrite append_cons. cbn [matchAllGo].
    unfold matchUtrScore at 1. rewrite (matchUtr_no_digit _ _ Hc). apply IH, Hp.
Qed.

Lemma startsWithoutDigit_app n s :
  noDigits n -> JS.nonEmpty n = true -> startsWithoutDigit (n ++ s).
Proof.
  intros H Hne. destruct n as [|c n]; [discriminate|].
  unfold noDigits in H. cbn [JS.allChars] in H. apply andb_true_iff in H as [Hc _].
  rewrite append_cons. cbn. apply negb_true_iff, Hc.
Qed.

(** One match of [utrPattern]: a rating, white space and a run of digits,
    at the start of the text. *)
Lemma matchUtrScore_rating r w u rest :
  isRatingText r -> blank w -> isNumeral u -> startsWithoutDigit rest ->
  matchUtrScore (r ++ w ++ u ++ rest) = Some (u, rest).
Proof.
  intros (ip & a & b & [Hip Nip] & Ha & Hb & ->) [Hw Nw] [Hu Nu] Hrest.
  unfold matchUtrScore, matchUtr.
  rewrite !append_assoc.
  rewrite (span_app JS.isDigit ip _ Hip); [|reflexivity].
  rewrite Nip. rewrite !append_cons, !append_nil_l. rewrite Ha, Hb. cbn [andb].
  destruct u as [|cu u']; [discriminate|].
  assert (Hcu : JS.isDigit cu = true)
    by (cbn [JS.allChars] in Hu; apply andb_true_iff in Hu as [Hcu _]; exact Hcu).
  rewrite (span_app JS.isSpace w _ Hw).
  2:{ rewrite append_cons.
      destruct (isDigit_cases cu Hcu) as [->|[->|[->|[->|[->|[->|[->|[->|[->| ->]]]]]]]]];
        reflexivity. }
  rewrite (span_app JS.isDigit (String cu u') rest Hu).
  2:{ destruct rest; [exact I | exact Hrest]. }
  rewrite Nw. reflexivity.
Qed.

Lemma matchAllGo_rating r w u rest :
  isRatingText r -> blank w -> isNumeral u -> startsWithoutDigit rest ->
  matchAllGo matchUtrScore 0 (r ++ w ++ u ++ rest)
  = u :: matchAllGo matchUtrScore 0 rest.
Proof.
  intros Hr Hw Hu Hrest.
  pose proof (matchUtrScore_rating r w u rest Hr Hw Hu Hrest) as Hm.
  destruct Hr as (ip & a & b & [Hip Nip] & Ha & Hb & Er).
  destruct ip as [|c0 ip']; [discriminate|].
  assert (Eshape : exists body, (r ++ w ++ u ++ rest)%string = String c0 (body ++ rest)
                                /\ (r ++ w ++ u)%string = String c0 body).
  { exists (ip' ++ "." ++ String a (String b "") ++ w ++ u)%string. subst r.
    repeat rewrite ?append_cons, ?append_assoc, ?append_nil_l. split; reflexivity. }
  destruct Eshape as (body & E1 & E2).
  rewrite E1 in *. cbn [matchAllGo]. rewrite Hm. f_equal.
  replace (String.length (String c0 (body ++ rest)) - String.length rest - 1)%nat
    with (String.length body)
    by (cbn [String.length]; rewrite length_append; lia).
  apply matchAllGo_skip.
Qed.

(** X5: in a singles fragment made of a name, a rating, white space and a
    run of digits, twice over, the decoder finds the two runs: what it
    returns is the decoding of exactly these two runs.  The names hold no
    digit and the second one is not empty; what follows the second run does
    not start with a digit. *)
Theorem singles_fragment_isolated (n1 r1 w1 u n2 r2 w2 o rest playerName : string) :
  noDigits n1 -> isRatingText r1 -> blank w1 -> isNumeral u ->
  noDigits n2 -> JS.nonEmpty n2 = true ->
  isRatingText r2 -> blank w2 -> isNumeral o ->
  startsWithoutDigit rest ->
  parseScoresFromRawText
    (Some (n1 ++ r1 ++ w1 ++ u ++ n2 ++ r2 ++ w2 ++ o ++ rest)%string) playerName Singles
  = resultOf (decodeDigits u o).
Proof.
  intros Hn1 Hr1 Hw1 Hu Hn2 Nn2 Hr2 Hw2 Ho Hrest.
  assert (Hall : matchAll matchUtrScore (n1 ++ r1 ++ w1 ++ u ++ n2 ++ r2 ++ w2 ++ o ++ rest)
                 = u :: o :: matchAllGo matchUtrScore 0 rest).
  { unfold matchAll. rewrite (matchAllGo_noDigits n1 _ Hn1).
    rewrite (matchAllGo_rating r1 w1 u _ Hr1 Hw1 Hu);
      [|apply startsWithoutDigit_app; assumption].
    rewrite (matchAllGo_noDigits n2 _ Hn2).
    rewrite (matchAllGo_rating r2 w2 o _ Hr2 Hw2 Ho Hrest). reflexivity. }
  unfold parseScoresFromRawText, singlesScores. rewrite Hall.
  destruct (n1 ++ r1 ++ w1 ++ u ++ n2 ++ r2 ++ w2 ++ o ++ rest)%string eqn:E; [|reflexivity].
  exfalso. apply (f_equal String.length) in E. rewrite !length_append in E.
  destruct Hr1 as (ip & a & b & _ & _ & _ & ->). rewrite !length_append in E.
  cbn [String.length] in E. lia.
Qed.

End Isolation.

Lemma singles_fragment_isolated_witness :
  parseScoresFromRawText (Some "Harper Chalat 5.74 66 John Smith 4.50 40 | Dec 3")
    "Harper Chalat" Singles
  = resultOf (decodeDigits "66" "40").
Proof.
  refine (singles_fragment_isolated "Harper Chalat " "5.74" " " "66" " John Smith "
            "4.50" " " "40" " | Dec 3" "Harper Chalat" _ _ _ _ _ _ _ _ _ _);
    try reflexivity; try (split; reflexivity).
  - exists "5"%string, "7"%char, "4"%char. repeat split; reflexivity.
  - exists "4"%string, "5"%char, "0"%char. repeat split; reflexivity.
Defined.

(** ** The decoder's counters and the recount of [fixMatchData] *)

Section Recount.

Local Open Scope Z_scope.
Local Open Scope list_scope.

(** An invariant of the loop variables is kept by the scan when each of
    its four pushes keeps it. *)
Lemma scan_invariant (I : Scan -> Prop) :
  (forall my opp sub st, isTiebreakPair my opp = true ->
     I st -> I (pushByScore my opp (TiebreakSet my opp sub) st)) ->
  (forall my us1 os1 st,
     I st -> I (pushSuperTiebreak (superTiebreakOutcome my us1 os1) st)) ->
  (forall my opp st, I st -> I (pushRegular my opp st)) ->
  (forall a b st, I st -> I (pushByScore a b (Decider a b) st)) ->
  forall n us os st, (length us <= n)%nat -> I st -> I (scan us os st).
Proof.
  intros Htb Hstb Hreg Hdec.
  induction n as [|n IH]; intros us os st Hn Hst.
  - destruct us; [destruct os; exact Hst | simpl in Hn; lia].
  - destruct us as [|my us1]; [destruct os; exact Hst|].
    destruct os as [|opp os1]; [exact Hst|].
    simpl in Hn. cbn [scan].
    destruct (isTiebreakPair my opp) eqn:Etb.
    { destruct us1 as [|nextMy us2].
      - apply IH; [simpl; lia | apply Htb; assumption].
      - destruct os1 as [|nextOpp os2].
        + apply IH; [simpl in *; lia | apply Htb; assumption].
        + destruct (inRange07 nextMy && inRange07 nextOpp);
            (apply IH; [simpl in *; lia | apply Htb; assumption]). }
    destruct (isIndicatorPair my opp); [apply Hstb, Hst|].
    destruct (inRange07 my && inRange07 opp && isValidSet my opp).
    { apply IH; [lia | apply Hreg, Hst]. }
    unfold deciderOutcome.
    destruct (_ && negb _); [apply Hdec, Hst | exact Hst].
Qed.

(** The side to which the decoder credits a set it records. *)
Definition creditedTo (o : SetOutcome) : bool * bool :=
  match o with
  | RegularSet my opp => (opp <? my, my <? opp)
  | TiebreakSet my opp _ => (opp <? my, negb (opp <? my))
  | SuperTiebreak userWon _ => (userWon, negb userWon)
  | Decider a b => (b <? a, negb (b <? a))
  end.

Definition creditedSets (l : list SetOutcome) : nat * nat :=
  (length (List.filter (fun o => fst (creditedTo o)) l),
   length (List.filter (fun o => snd (creditedTo o)) l)).

Lemma creditedSets_app l o :
  creditedSets (l ++ [o])
  = ((fst (creditedSets l) + if fst (creditedTo o) then 1 else 0)%nat,
     (snd (creditedSets l) + if snd (creditedTo o) then 1 else 0)%nat).
Proof.
  unfold creditedSets. rewrite !List.filter_app, !List.length_app. cbn [List.filter fst snd].
  destruct (fst (creditedTo o)), (snd (creditedTo o)); reflexivity.
Qed.

Definition countersMatch (st : Scan) : Prop :=
  (userSetsWon st, oppSetsWon st) = creditedSets (outcomes st).

Lemma countersMatch_push o st f :
  (f = pushUser /\ creditedTo o = (true, false)) \/
  (f = pushOpp /\ creditedTo o = (false, true)) \/
  (f = pushNone /\ creditedTo o = (false, false)) ->
  countersMatch st -> countersMatch (f o st).
Proof.
  unfold countersMatch.
  intros [[-> E]|[[-> E]|[-> E]]] H;
    cbn [pushUser pushOpp pushNone outcomes userSetsWon oppSetsWon];
    rewrite creditedSets_app, E, <- H; cbn [fst snd]; f_equal; lia.
Qed.

Lemma scan_countersMatch us os st :
  countersMatch st -> countersMatch (scan us os st).
Proof.
  apply (scan_invariant countersMatch) with (n := length us); [| | | |lia].
  - intros my opp sub st0 _ H. unfold pushByScore.
    destruct (opp <? my) eqn:E; apply countersMatch_push; auto;
      cbn [creditedTo]; rewrite E; auto.
  - intros my us1 os1 st0 H. unfold pushSuperTiebreak.
    destruct (superTiebreakOutcome my us1 os1) as [a b|a b sub|[|] sc|a b] eqn:E;
      try (apply countersMatch_push; auto; cbn [creditedTo]; auto; fail).
    all: exfalso; revert E; unfold superTiebreakOutcome;
      destruct (remainingAfterIndicator us1 os1) as [ru ro];
      destruct ru, ro; try discriminate;
      destruct (stbScores _ _ _ _) as [x y];
      destruct ((10 <=? x) || (10 <=? y)); discriminate.
  - intros my opp st0 H. unfold pushRegular.
    destruct (opp <? my) eqn:E1; [|destruct (my <? opp) eqn:E2];
      apply countersMatch_push; auto; cbn [creditedTo]; rewrite ?E1, ?E2; auto.
    left. split; [reflexivity|]. f_equal.
    apply Z.ltb_lt in E1. apply Z.ltb_ge. lia.
  - intros a b st0 H. unfold pushByScore.
    destruct (b <? a) eqn:E; apply countersMatch_push; auto;
      cbn [creditedTo]; rewrite E; auto.
Qed.

(** X6: the two counters of the decoder are read off its set list: the
    sets credited to the user and to the opponent are those that
    [creditedTo] names. *)
Theorem counters_follow_sets (userScoreStr oppScoreStr : string) :
  let st := decodeDigits userScoreStr oppScoreStr in
  (userSetsWon st, oppSetsWon st) = creditedSets (outcomes st).
Proof. apply scan_countersMatch. reflexivity. Qed.


(** *** The recount *)

Import Normalizer.

Lemma not_paren_digits (x : ascii) A :
  JS.isDigit x = false ->
  JS.allChars JS.isDigit A = true -> JS.allChars (fun c => negb (Ascii.eqb c x)) A = true.
Proof.
  intros Hx. apply allChars_impl. intros c Hc. apply negb_true_iff, digit_not; auto.
Qed.

Lemma setNumbers_plain A B :
  isNumeral A -> isNumeral B ->
  setNumbers (A ++ "-" ++ B) = Some (Some (valueOf A), Some (valueOf B)).
Proof.
  intros [HA NA] [HB NB]. unfold setNumbers.
  rewrite stripParenthetical_plain.
  - rewrite (split_dash A B HA HB).
    rewrite (parseInt_digits A HA NA), (parseInt_digits B HB NB). reflexivity.
  - rewrite !allChars_app. cbn [JS.allChars].
    rewrite (not_paren_digits "(" A), (not_paren_digits "(" B); auto.
Qed.













(** *** What the decoder is given *)







End Recount.


(** A doubles card, always read again from its text. *)
Definition doublesCard : Match :=
  {| rawText := Some "A One 5.10 B Two 5.20 66 C Three 5.30 D Four 5.40 24";
     date := Some "Mar 4"; opponent := Some "C Three"; opponentId := None;
     myUtr := Some 510%Z; myUtrBefore := None;
     opponentUtr := Some 530%Z; opponentUtrBefore := None;
     sets := None; won := None; isWalkover := false; score := None |}.


(** ** Normalisation applied twice *)

Section Idempotence.

Import Normalizer.
Local Open Scope list_scope.

Lemma split_dash_cons A R :
  JS.allChars JS.isDigit A = true ->
  JS.split "-" (A ++ "-" ++ R) = A :: JS.split "-" R.
Proof.
  intros HA. unfold JS.split.
  rewrite (splitGo_no_sep "-" A "" _ (not_paren_digits "-" A eq_refl HA)).
  rewrite append_nil_l, append_cons, append_nil_l. reflexivity.
Qed.

Lemma split_digits A :
  JS.allChars JS.isDigit A = true -> JS.split "-" A = [A].
Proof.
  intros HA. unfold JS.split.
  pose proof (splitGo_no_sep "-" A "" "" (not_paren_digits "-" A eq_refl HA)) as E.
  rewrite append_nil_r, append_nil_l in E. rewrite E. reflexivity.
Qed.

Lemma isIsoDate_built Y M D :
  allDigits 4 Y = true -> allDigits 2 M = true -> allDigits 2 D = true ->
  isIsoDate (Y ++ "-" ++ M ++ "-" ++ D) = true.
Proof.
  intros HY HM HD. unfold isIsoDate.
  pose proof HY as HY'. pose proof HM as HM'. pose proof HD as HD'.
  unfold allDigits in HY', HM', HD'.
  apply andb_true_iff in HY' as [Y1 _], HM' as [M1 _], HD' as [D1 _].
  rewrite (split_dash_cons Y _ Y1), (split_dash_cons M _ M1), (split_digits D D1).
  rewrite HY, HM, HD. reflexivity.
Qed.

Lemma monthMap_digits mon : allDigits 2 (default "01"%string (monthMap mon)) = true.
Proof.
  unfold monthMap.
  repeat match goal with |- context [if ?c then _ else _] => destruct c; [reflexivity|] end.
  reflexivity.
Qed.

Lemma matchMonDay_day s mon day :
  matchMonDay s = Some (mon, day) -> allDigits 2 (padDay day) = true.
Proof.
  unfold matchMonDay. destruct s as [|a [|b [|c r]]]; try discriminate.
  destruct (JS.isAlpha a && JS.isAlpha b && JS.isAlpha c); [|discriminate].
  destruct (JS.trimStart r) as [|d1 [|d2 r']]; [discriminate| |].
  - destruct (JS.isDigit d1) eqn:E1; [|discriminate]. intros E. injection E as _ <-.
    unfold allDigits, padDay. rewrite append_cons, append_nil_l.
    cbn [JS.allChars String.length]. rewrite E1. reflexivity.
  - destruct (JS.isDigit d1) eqn:E1; [|discriminate].
    destruct (JS.isDigit d2) eqn:E2; intros E; injection E as _ <-;
      unfold allDigits, padDay; rewrite ?append_cons, ?append_nil_l;
      cbn [JS.allChars String.length]; rewrite E1, ?E2; reflexivity.
Qed.

Lemma searchMonDay_day s : forall mon day,
  searchMonDay s = Some (mon, day) -> allDigits 2 (padDay day) = true.
Proof.
  induction s as [|c s IH]; intros mon day; cbn [searchMonDay].
  - destruct (matchMonDay "") as [[m d]|] eqn:E; [|discriminate].
    intros F. injection F as -> ->. eapply matchMonDay_day, E.
  - destruct (matchMonDay (String c s)) as [[m d]|] eqn:E.
    + intros F. injection F as -> ->. eapply matchMonDay_day, E.
    + apply IH.
Qed.

Lemma allDigits4_nonEmpty Y R : allDigits 4 Y = true -> exists c t, (Y ++ R)%string = String c t.
Proof.
  destruct Y as [|c Y]; [discriminate|]. intros _. exists c, (Y ++ R)%string. reflexivity.
Qed.

(** A date that [normalizeDate] returns is returned unchanged. *)
Lemma normalizeDate_stable (dateStr : option string) (inferYear d : string) :
  allDigits 4 inferYear = true ->
  normalizeDate dateStr inferYear = Some d ->
  normalizeDate (Some d) inferYear = Some d.
Proof.
  intros HY. destruct dateStr as [[|c0 d0]|]; [discriminate| |discriminate].
  unfold normalizeDate at 1.
  destruct (isIsoDate (String c0 d0)) eqn:Eiso.
  - intros E. injection E as <-. unfold normalizeDate. rewrite Eiso. reflexivity.
  - destruct (searchMonDay (String c0 d0)) as [[mon day]|] eqn:Es.
    + pose proof (isIsoDate_built inferYear _ _ HY (monthMap_digits mon)
                    (searchMonDay_day _ _ _ Es)) as Hiso.
      destruct (allDigits4_nonEmpty inferYear
                  ("-" ++ default "01" (monthMap mon) ++ "-" ++ padDay day) HY) as (c' & t & E).
      intros F. injection F as <-. unfold normalizeDate. rewrite E in *. rewrite Hiso.
      reflexivity.
    + intros F. injection F as <-. unfold normalizeDate. rewrite Eiso, Es. reflexivity.
Qed.

(** X9: with a year of four digits, [normalizeDate] leaves its own results
    as they are.  A text with a month and a day becomes a date in the form
    YYYY-MM-DD, which is returned unchanged. *)
Theorem normalizeDate_idempotent (dateStr : option string) (inferYear : string) :
  allDigits 4 inferYear = true ->
  normalizeDate (normalizeDate dateStr inferYear) inferYear = normalizeDate dateStr inferYear.
Proof.
  intros HY. destruct (normalizeDate dateStr inferYear) as [d|] eqn:E; [|reflexivity].
  eapply normalizeDate_stable; eassumption.
Qed.

Section FixTwice.

Variables TARGET_YEAR playerName : string.
Variable type : MatchType.
Hypothesis year_digits : allDigits 4 TARGET_YEAR = true.

(** The fields that [fixMatchData] computes, one by one. *)
Definition fixedCount (m : Match) : nat * nat :=
  let sets1 := chosenSets playerName type m in
  fold_left (countSet (existsb (looksSuperTiebreak (length sets1)) sets1)) sets1 (0, 0)%nat.

Definition fixedWon (m : Match) : bool :=
  let mySets := fst (fixedCount m) in
  let oppSets := snd (fixedCount m) in
  let won0 := (oppSets <? mySets)%nat in
  let won1 :=
    if (mySets =? 0)%nat && (oppSets =? 0)%nat then
      match won m, parsedWon (parseScoresFromRawText (rawText m) playerName type) with
      | Some w, _ => w
      | None, Some w => w
      | None, None => won0
      end
    else won0 in
  if walkoverFlag m then default true (won m) else won1.

Definition fixedDate (m : Match) : option string :=
  match normalizeDate (date m) TARGET_YEAR with
  | Some d => if JS.nonEmpty d then Some d else date m
  | None => date m
  end.

Lemma fixMatch_fields m :
  fixMatch TARGET_YEAR playerName type m
  = {| rawText := rawText m; date := fixedDate m;
       opponent := opponent m; opponentId := opponentId m;
       myUtr := myUtr m; myUtrBefore := myUtrBefore m;
       opponentUtr := opponentUtr m; opponentUtrBefore := opponentUtrBefore m;
       sets := Some (chosenSets playerName type m); won := Some (fixedWon m);
       isWalkover := walkoverFlag m;
       score := Some (JS.join " " (chosenSets playerName type m)) |}.
Proof.
  unfold fixMatch, fixedWon, fixedCount, fixedDate.
  destruct (fold_left _ _ _) as [mySets oppSets]. reflexivity.
Qed.

Lemma chosenSets_fixMatch m :
  chosenSets playerName type (fixMatch TARGET_YEAR playerName type m)
  = chosenSets playerName type m.
Proof.
  rewrite fixMatch_fields. unfold chosenSets at 1. cbn [sets rawText default from_option].
  unfold id. destruct type; cbn [orb]; [|unfold chosenSets; reflexivity].
  unfold chosenSets. destruct (default [] (sets m)) as [|first rest].
  - cbn [orb length Nat.eqb].
    destruct (parsedSets _) as [|p ps]; [reflexivity|].
    cbn [length Nat.eqb]. rewrite orb_false_r. destruct (looksConcatenated p); reflexivity.
  - cbn [orb length Nat.eqb]. rewrite orb_false_r.
    destruct (looksConcatenated first) eqn:E.
    + destruct (parsedSets _) as [|p ps]; [reflexivity|].
      cbn [length Nat.eqb]. rewrite orb_false_r. destruct (looksConcatenated p); reflexivity.
    + cbn [length Nat.eqb]. rewrite E. reflexivity.
Qed.

Lemma walkoverFlag_fixMatch m :
  walkoverFlag (fixMatch TARGET_YEAR playerName type m) = walkoverFlag m.
Proof.
  rewrite fixMatch_fields. unfold walkoverFlag at 1. cbn [isWalkover rawText].
  unfold walkoverFlag.
  destruct (isWalkover m), (rawText m) as [t|]; cbn [orb]; try reflexivity.
  destruct (JS.includes _ _); reflexivity.
Qed.

Lemma fixedCount_fixMatch m :
  fixedCount (fixMatch TARGET_YEAR playerName type m) = fixedCount m.
Proof. unfold fixedCount. rewrite chosenSets_fixMatch. reflexivity. Qed.

Lemma fixedWon_fixMatch m :
  fixedWon (fixMatch TARGET_YEAR playerName type m) = fixedWon m.
Proof.
  unfold fixedWon at 1. rewrite fixedCount_fixMatch, walkoverFlag_fixMatch.
  rewrite fixMatch_fields. cbn [won rawText default from_option]. unfold id.
  unfold fixedWon. destruct (walkoverFlag m); [reflexivity|].
  destruct (_ && _); reflexivity.
Qed.

Lemma fixedDate_fixMatch m :
  fixedDate (fixMatch TARGET_YEAR playerName type m) = fixedDate m.
Proof.
  rewrite fixMatch_fields. unfold fixedDate at 1. cbn [date].
  unfold fixedDate.
  destruct (normalizeDate (date m) TARGET_YEAR) as [d|] eqn:E; [|rewrite E; reflexivity].
  destruct (JS.nonEmpty d) eqn:Ed.
  - rewrite (normalizeDate_stable _ _ _ year_digits E), Ed. reflexivity.
  - rewrite E, Ed. reflexivity.
Qed.

(** X10: with a year of four digits, [fixMatchData] leaves the matches
    that it has fixed as they are: set list, result, walkover flag, date
    and score are all reproduced. *)
Theorem fixMatchData_idempotent (matches : list Match) :
  fixMatchData TARGET_YEAR playerName type (fixMatchData TARGET_YEAR playerName type matches)
  = fixMatchData TARGET_YEAR playerName type matches.
Proof.
  unfold fixMatchData. rewrite map_map. apply map_ext. intros m.
  rewrite (fixMatch_fields (fixMatch TARGET_YEAR playerName type m)).
  rewrite chosenSets_fixMatch, walkoverFlag_fixMatch, fixedWon_fixMatch, fixedDate_fixMatch.
  rewrite (fixMatch_fields m) at 1 2 3 4 5 6 7. cbn [rawText opponent opponentId myUtr
    myUtrBefore opponentUtr opponentUtrBefore].
  symmetry. apply fixMatch_fields.
Qed.

End FixTwice.

End Idempotence.

Lemma normalizeDate_idempotent_witness :
  Normalizer.normalizeDate (Normalizer.normalizeDate (Some "Dec 3") "2025") "2025"
  = Some "2025-12-03".
Proof. exact (normalizeDate_idempotent (Some "Dec 3") "2025" eq_refl). Defined.

Lemma fixMatchData_idempotent_witness :
  Normalizer.fixMatchData "2025" "A One" Doubles
    (Normalizer.fixMatchData "2025" "A One" Doubles [doublesCard])
  = Normalizer.fixMatchData "2025" "A One" Doubles [doublesCard].
Proof. exact (fixMatchData_idempotent "2025" "A One" Doubles eq_refl [doublesCard]). Defined.

(** ** The stored matches and their recomputation *)

Section StoredMatches.

Import Aggregator.

Variables (type : MatchType) (playerName : string).

Local Open Scope Z_scope.
Local Open Scope list_scope.

Lemma calculateGames_fold l : forall s t,
  fold_left
    (fun '(matchGamesWon, matchGamesLost, hasSuperTiebreak) set_ =>
      match matchScoredSuperTiebreak set_ with
      | Some _ => (matchGamesWon, matchGamesLost, true)
      | None =>
          match matchBareSuperTiebreak set_ with
          | Some _ => (matchGamesWon, matchGamesLost, true)
          | None =>
              match matchTiebreak set_ with
              | Some (a, b) =>
                  (matchGamesWon + JS.digitValue a, matchGamesLost + JS.digitValue b,
                   hasSuperTiebreak)
              | None =>
                  match Normalizer.setNumbers set_ with
                  | Some (Some myGames, Some oppGames) =>
                      if (10 <=? myGames) || (10 <=? oppGames)
                      then (matchGamesWon, matchGamesLost, true)
                      else (matchGamesWon + myGames, matchGamesLost + oppGames,
                            hasSuperTiebreak)
                  | _ => (matchGamesWon, matchGamesLost, hasSuperTiebreak)
                  end
              end
          end
      end) l (matchGamesWon t, matchGamesLost t, hasSuperTiebreak t)
  = (matchGamesWon (snd (fold_left analyzeSet l (s, t))),
     matchGamesLost (snd (fold_left analyzeSet l (s, t))),
     hasSuperTiebreak (snd (fold_left analyzeSet l (s, t)))).
Proof.
  induction l as [|x l IH]; intros s t; [reflexivity|].
  cbn [fold_left].
  destruct (analyzeSet (s, t) x) as [s1 t1] eqn:E.
  rewrite <- (IH s1 t1). f_equal.
  revert E. unfold analyzeSet, classifySet.
  destruct (matchScoredSuperTiebreak x) as [a|].
  { destruct (JS.digitValue a =? 1); intros E; injection E as _ <-; reflexivity. }
  destruct (matchBareSuperTiebreak x) as [a|].
  { destruct (JS.digitValue a =? 1); intros E; injection E as _ <-; reflexivity. }
  destruct (matchTiebreak x) as [[a b]|].
  { destruct (JS.digitValue b <? JS.digitValue a); intros E; injection E as _ <-; reflexivity. }
  destruct (Normalizer.setNumbers x) as [[[a|] [b|]]|];
    try (intros E; injection E as _ <-; reflexivity).
  destruct ((10 <=? a) || (10 <=? b)).
  - destruct (b <? a); intros E; injection E as _ <-; reflexivity.
  - destruct (b <? a); [|destruct (a <? b)]; intros E; injection E as _ <-; reflexivity.
Qed.

(** X11: [calculateGamesFromSets] of the recomputation returns, for every
    list of set strings, the game totals and the super-tiebreak flag that
    the set analysis of [generateStats] computes for it. *)
Theorem calculateGamesFromSets_as_generateStats (sets_ : list string) :
  Recompute.calculateGamesFromSets sets_
  = (matchGamesWon (tallyOf sets_), matchGamesLost (tallyOf sets_),
     hasSuperTiebreak (tallyOf sets_)).
Proof. apply (calculateGames_fold sets_ initialStats emptyTally). Qed.


(** *** What one match does to [stats.matches] and [stats.record] *)

Lemma setPhase_cases m s :
  (setPhase type playerName m s = s /\ (sets m = None \/ sets m = Some []))
  \/ exists x l s', sets m = Some (x :: l)
       /\ s' = fst (fold_left analyzeSet (x :: l) (s, emptyTally))
       /\ outsideSets s' = outsideSets s
       /\ setPhase type playerName m s = afterSets type playerName m (tallyOf (x :: l)) s'.
Proof.
  unfold setPhase. destruct (sets m) as [[|x l]|]; [left; auto| |left; auto].
  right. exists x, l, (fst (fold_left analyzeSet (x :: l) (s, emptyTally))).
  split; [reflexivity|]. split; [reflexivity|]. split; [apply fold_analyzeSet_frame|].
  pose proof (fold_analyzeSet_snd (x :: l) s initialStats emptyTally) as Ht.
  fold (tallyOf (x :: l)) in Ht.
  destruct (fold_left analyzeSet (x :: l) (s, emptyTally)) as [s' t].
  cbn [fst snd] in *. subst t. reflexivity.
Qed.

Lemma afterSets_matches m t s :
  matches (afterSets type playerName m t s) = matches s
  /\ record (afterSets type playerName m t s) = record s.
Proof. unfold afterSets. destruct (partnerAndTeam _ _ _). split; reflexivity. Qed.

Lemma setPhase_matches m s :
  matches (setPhase type playerName m s) = matches s
  /\ record (setPhase type playerName m s) = record s.
Proof.
  destruct (setPhase_cases m s) as [[-> _]|(x & l & s' & _ & _ & Hf & ->)]; [auto|].
  destruct (afterSets_matches m (tallyOf (x :: l)) s') as [-> ->].
  unfold outsideSets in Hf. injection Hf as -> _ _ _ _ _ _ _ _ _ _ _ ->. auto.
Qed.

Lemma tablePhase_matches m s :
  matches (tablePhase type playerName m s) = matches s
  /\ record (tablePhase type playerName m s) = record s.
Proof.
  unfold tablePhase. destruct (partnerAndTeam _ _ _) as [p t].
  destruct (if isDoubles type then t else None); [auto|].
  destruct (opponentName m); auto.
Qed.

Lemma ratingPhase_matches m s :
  matches (ratingPhase m s) = matches s /\ record (ratingPhase m s) = record s.
Proof. unfold ratingPhase. destruct (won m); auto. Qed.

Lemma recordPhase_matches m f : matches (stats (recordPhase m f)) = matches (stats f).
Proof. unfold recordPhase. destruct (won m) as [[|]|]; reflexivity. Qed.

Definition played (m : Match) : bool := negb (isWalkover m).

Lemma perMatch_matches f m :
  matches (stats (perMatch type playerName f m))
  = matches (stats f) ++ (if played m then [cleanMatch type playerName m] else []).
Proof.
  unfold Aggregator.perMatch, played. destruct (isWalkover m); cbn [negb].
  - cbn. rewrite app_nil_r. reflexivity.
  - cbn [onStats stats pushPhase matches].
    rewrite (proj1 (setPhase_matches _ _)), (proj1 (tablePhase_matches _ _)),
      (proj1 (ratingPhase_matches _ _)), recordPhase_matches. reflexivity.
Qed.

Lemma fold_perMatch_matches ms : forall f,
  matches (stats (fold_left (perMatch type playerName) ms f))
  = matches (stats f) ++ map (cleanMatch type playerName) (List.filter played ms).
Proof.
  induction ms as [|m ms IH]; intros f; cbn [fold_left List.filter map].
  - rewrite app_nil_r. reflexivity.
  - rewrite IH, perMatch_matches. destruct (played m); cbn [map].
    + rewrite <- app_assoc. reflexivity.
    + rewrite app_nil_r. reflexivity.
Qed.

(** X12: [stats.matches] holds the matches that are not walkovers, each
    one cleaned, in the order of the input. *)
Theorem stored_matches_are_played_matches (ms : list Match) :
  matches (folded (generateStats type playerName ms))
  = map (cleanMatch type playerName) (List.filter (fun m => negb (isWalkover m)) ms).
Proof.
  assert (E : folded (generateStats type playerName ms) = stats (foldMatches type playerName ms)).
  { unfold Aggregator.generateStats. destruct (fold_left comebackStep _ _). reflexivity. }
  rewrite E. unfold Aggregator.foldMatches. rewrite fold_perMatch_matches. reflexivity.
Qed.


(** *** The loop of [recomputeStats] *)

Import RecomputeStats.

Definition emptyLoop : Loop :=
  {| wonWithFewer := 0; lostWithMore := 0; matchesUpdated := 0; updated := [] |}.

(** What one stored match adds to the loop variables. *)
Lemma recomputeMatch_adds st c :
  recomputeMatch st c
  = {| wonWithFewer := (wonWithFewer st + wonWithFewer (recomputeMatch emptyLoop c))%nat;
       lostWithMore := (lostWithMore st + lostWithMore (recomputeMatch emptyLoop c))%nat;
       matchesUpdated := (matchesUpdated st + matchesUpdated (recomputeMatch emptyLoop c))%nat;
       updated := updated st ++ updated (recomputeMatch emptyLoop c) |}.
Proof.
  assert (F : forall a b u (l : list Clean.t) a' b' u' l',
    a' = a -> b' = b -> u' = u -> l' = l ->
    {| wonWithFewer := a; lostWithMore := b; matchesUpdated := u; updated := l |}
    = {| wonWithFewer := a'; lostWithMore := b'; matchesUpdated := u'; updated := l' |})
    by (intros; subst; reflexivity).
  unfold recomputeMatch. destruct st as [a b u l].
  destruct (Clean.isWalkover c);
    [cbn [wonWithFewer lostWithMore matchesUpdated updated emptyLoop app];
     apply F; solve [lia | reflexivity]|].
  destruct (Clean.sets c) as [|x r];
    [cbn [wonWithFewer lostWithMore matchesUpdated updated emptyLoop app];
     apply F; solve [lia | reflexivity]|].
  destruct (Recompute.calculateGamesFromSets (x :: r)) as [[gw gl] h].
  repeat match goal with |- context [if ?c then _ else _] => destruct c end;
    cbn [wonWithFewer lostWithMore matchesUpdated updated emptyLoop app];
    apply F; solve [lia | reflexivity].
Qed.

Lemma fold_recomputeMatch cs : forall st,
  fold_left recomputeMatch cs st
  = {| wonWithFewer := (wonWithFewer st + wonWithFewer (fold_left recomputeMatch cs emptyLoop))%nat;
       lostWithMore := (lostWithMore st + lostWithMore (fold_left recomputeMatch cs emptyLoop))%nat;
       matchesUpdated :=
         (matchesUpdated st + matchesUpdated (fold_left recomputeMatch cs emptyLoop))%nat;
       updated := updated st ++ updated (fold_left recomputeMatch cs emptyLoop) |}.
Proof.
  induction cs as [|c cs IH]; intros st; cbn [fold_left].
  - destruct st; cbn. rewrite app_nil_r. f_equal; lia.
  - rewrite (IH (recomputeMatch st c)), (IH (recomputeMatch emptyLoop c)).
    rewrite (recomputeMatch_adds st c). cbn [wonWithFewer lostWithMore matchesUpdated updated].
    rewrite app_assoc. f_equal; lia.
Qed.

(** The stored result of a match is the one its sets give. *)
Definition resultFromSets (m : Match) : Prop :=
  match sets m with
  | Some ((_ :: _) as l) => won m = recalculateWonFromSets l
  | _ => True
  end.

Lemma sameResult_refl w : sameResult w w = true.
Proof. destruct w as [[|]|]; reflexivity. Qed.

Lemma recomputeMatch_clean m :
  isWalkover m = false -> resultFromSets m ->
  recomputeMatch emptyLoop (cleanMatch type playerName m)
  = {| wonWithFewer := fst (anomalyOf m); lostWithMore := snd (anomalyOf m);
       matchesUpdated := 0; updated := [cleanMatch type playerName m] |}.
Proof.
  intros Hw Hr. unfold anomalyOf, resultFromSets in *.
  assert (Ec : Clean.isWalkover (cleanMatch type playerName m) = false
               /\ Clean.sets (cleanMatch type playerName m) = default [] (sets m)
               /\ Clean.won (cleanMatch type playerName m) = won m).
  { unfold cleanMatch. destruct (partnerAndTeam _ _ _). auto. }
  destruct Ec as (E1 & E2 & E3).
  unfold recomputeMatch. rewrite E1, E2, Hw.
  destruct (sets m) as [[|x l]|]; cbn [default from_option]; unfold id; try reflexivity.
  rewrite E3, <- Hr.
  assert (Er : exists r, won m = Some r).
  { rewrite Hr. unfold recalculateWonFromSets. destruct (fold_left _ _ _). eauto. }
  destruct Er as [r Er]. rewrite Er, sameResult_refl. cbn [negb]. rewrite E3, Er.
  rewrite (calculateGames_fold (x :: l) initialStats emptyTally
           : Recompute.calculateGamesFromSets (x :: l) = _).
  fold (tallyOf (x :: l)).
  destruct r;
    repeat match goal with |- context [if ?c then _ else _] => destruct c end;
    reflexivity.
Qed.

Lemma fold_recomputeMatch_clean ms :
  (forall m, In m ms -> isWalkover m = false -> resultFromSets m) ->
  fold_left recomputeMatch (map (cleanMatch type playerName) (List.filter played ms)) emptyLoop
  = {| wonWithFewer := fst (fold_right (fun m acc => addPair (anomalyOf m) acc) (0, 0)%nat ms);
       lostWithMore := snd (fold_right (fun m acc => addPair (anomalyOf m) acc) (0, 0)%nat ms);
       matchesUpdated := 0;
       updated := map (cleanMatch type playerName) (List.filter played ms) |}.
Proof.
  induction ms as [|m ms IH]; intros H; [reflexivity|].
  assert (IH' := IH (fun m' Hin => H m' (or_intror Hin))). clear IH.
  cbn [List.filter fold_right].
  destruct (isWalkover m) eqn:Ew.
  - replace (played m) with false by (unfold played; rewrite Ew; reflexivity).
    rewrite IH'.
    replace (anomalyOf m) with (0, 0)%nat by (unfold anomalyOf; rewrite Ew; reflexivity).
    unfold addPair. cbn [fst snd]. reflexivity.
  - replace (played m) with true by (unfold played; rewrite Ew; reflexivity).
    cbn [map fold_left]. rewrite fold_recomputeMatch, IH'.
    rewrite (recomputeMatch_clean m Ew (H m (or_introl eq_refl) Ew)).
    cbn [wonWithFewer lostWithMore matchesUpdated updated]. unfold addPair. cbn [fst snd app].
    reflexivity.
Qed.

(** X13: run on the matches that [generateStats] stored, the loop of
    [recomputeStats] finds the two counters of [gamesDifferential] that
    [generateStats] had found, and corrects no match, provided the stored
    result of every played match with sets is the one that
    [recalculateWonFromSets] reads in its sets. *)
Theorem recompute_reproduces_differential (ms : list Match) :
  (forall m, In m ms -> isWalkover m = false -> resultFromSets m) ->
  let s := folded (generateStats type playerName ms) in
  let r := recomputeMatches (matches s) in
  wonWithFewer r = GD.wonWithFewer (gamesDifferential s)
  /\ lostWithMore r = GD.lostWithMore (gamesDifferential s)
  /\ matchesUpdated r = 0%nat
  /\ updated r = matches s.
Proof.
  intros H s r.
  assert (E : s = stats (foldMatches type playerName ms)).
  { subst s. unfold Aggregator.generateStats. destruct (fold_left comebackStep _ _). reflexivity. }
  assert (Em : matches s = map (cleanMatch type playerName) (List.filter played ms)).
  { rewrite E. unfold Aggregator.foldMatches. rewrite fold_perMatch_matches. reflexivity. }
  assert (Ea : anomalies s
               = fold_right (fun m acc => addPair (anomalyOf m) acc) (0, 0)%nat ms).
  { rewrite E. unfold Aggregator.foldMatches. rewrite fold_perMatch_anomalies.
    unfold addPair. cbn [anomalies fst snd initialFold stats initialStats gamesDifferential
      GD.wonWithFewer GD.lostWithMore Nat.add].
    destruct (fold_right _ _ _). reflexivity. }
  subst r. unfold recomputeMatches. fold emptyLoop. rewrite Em.
  rewrite (fold_recomputeMatch_clean ms H).
  cbn [wonWithFewer lostWithMore matchesUpdated updated]. rewrite <- Ea.
  unfold anomalies. cbn [fst snd]. auto.
Qed.

(** *** A second run *)

Lemma recomputeMatch_again c :
  fold_left recomputeMatch (updated (recomputeMatch emptyLoop c)) emptyLoop
  = {| wonWithFewer := wonWithFewer (recomputeMatch emptyLoop c);
       lostWithMore := lostWithMore (recomputeMatch emptyLoop c);
       matchesUpdated := 0;
       updated := updated (recomputeMatch emptyLoop c) |}.
Proof.
  assert (Hsame : forall c0 x l,
    Clean.isWalkover c0 = false -> Clean.sets c0 = x :: l ->
    match recalculateWonFromSets (x :: l) with
    | Some r => sameResult (Some r) (Clean.won c0) = true
    | None => True
    end ->
    exists a b, recomputeMatch emptyLoop c0
      = {| wonWithFewer := a; lostWithMore := b; matchesUpdated := 0; updated := [c0] |}).
  { intros c0 x l Ew Es Hr. unfold recomputeMatch. rewrite Ew, Es.
    destruct (recalculateWonFromSets (x :: l)) as [r|]; [rewrite Hr|];
      destruct (Recompute.calculateGamesFromSets (x :: l)) as [[gw gl] h];
      cbn [negb wonWithFewer lostWithMore matchesUpdated updated emptyLoop app];
      eauto. }
  destruct (Clean.isWalkover c) eqn:Ew.
  { assert (E1 : recomputeMatch emptyLoop c = {| wonWithFewer := 0; lostWithMore := 0;
                   matchesUpdated := 0; updated := [c] |})
      by (unfold recomputeMatch; rewrite Ew; reflexivity).
    rewrite E1. cbn [updated fold_left wonWithFewer lostWithMore]. exact E1. }
  destruct (Clean.sets c) as [|x l] eqn:Es.
  { assert (E1 : recomputeMatch emptyLoop c = {| wonWithFewer := 0; lostWithMore := 0;
                   matchesUpdated := 0; updated := [c] |})
      by (unfold recomputeMatch; rewrite Ew, Es; reflexivity).
    rewrite E1. cbn [updated fold_left wonWithFewer lostWithMore]. exact E1. }
  destruct (recalculateWonFromSets (x :: l)) as [r|] eqn:Er.
  - destruct (sameResult (Some r) (Clean.won c)) eqn:Esame.
    + pose proof (Hsame c x l Ew Es) as E1. rewrite Er in E1.
      destruct (E1 Esame) as (a & b & E).
      rewrite E. cbn [updated fold_left wonWithFewer lostWithMore]. exact E.
    + assert (E1 : recomputeMatch emptyLoop c
                   = recomputeMatch
                       {| wonWithFewer := 0; lostWithMore := 0; matchesUpdated := 1;
                          updated := [] |} (setWon (Some r) c)).
      { unfold recomputeMatch at 1. rewrite Ew, Es, Er, Esame. cbn [negb].
        unfold recomputeMatch. cbn [setWon Clean.isWalkover Clean.sets Clean.won].
        rewrite Ew, Es, Er, sameResult_refl. cbn [negb setWon Clean.won].
        destruct (Recompute.calculateGamesFromSets (x :: l)) as [[gw gl] h].
        reflexivity. }
      rewrite E1, (recomputeMatch_adds _ (setWon (Some r) c)).
      pose proof (Hsame (setWon (Some r) c) x l Ew Es) as E2. rewrite Er in E2.
      destruct (E2 (sameResult_refl _)) as (a & b & E).
      rewrite E. cbn [wonWithFewer lostWithMore matchesUpdated updated app Nat.add fold_left].
      exact E.
  - pose proof (Hsame c x l Ew Es) as E1. rewrite Er in E1.
    destruct (E1 I) as (a & b & E).
    rewrite E. cbn [updated fold_left wonWithFewer lostWithMore]. exact E.
Qed.

Lemma fold_recomputeMatch_again cs :
  let r := fold_left recomputeMatch cs emptyLoop in
  fold_left recomputeMatch (updated r) emptyLoop
  = {| wonWithFewer := wonWithFewer r; lostWithMore := lostWithMore r;
       matchesUpdated := 0; updated := updated r |}.
Proof.
  induction cs as [|c cs IH]; [reflexivity|].
  cbn [fold_left]. cbv zeta in *.
  rewrite (fold_recomputeMatch cs (recomputeMatch emptyLoop c)).
  cbn [updated wonWithFewer lostWithMore].
  rewrite fold_left_app, (recomputeMatch_again c).
  rewrite fold_recomputeMatch, IH.
  cbn [wonWithFewer lostWithMore matchesUpdated updated]. reflexivity.
Qed.

(** X14: after one run of the loop of [recomputeStats], a second run over
    the matches as the first one left them corrects no result, leaves the
    matches as they are and finds the same two counters. *)
Theorem recompute_twice (stored : list Clean.t) :
  let r1 := recomputeMatches stored in
  let r2 := recomputeMatches (updated r1) in
  matchesUpdated r2 = 0%nat /\ updated r2 = updated r1
  /\ wonWithFewer r2 = wonWithFewer r1 /\ lostWithMore r2 = lostWithMore r1.
Proof.
  intros r1 r2. subst r1 r2. unfold recomputeMatches. fold emptyLoop.
  rewrite (fold_recomputeMatch_again stored).
  cbn [wonWithFewer lostWithMore matchesUpdated updated]. auto.
Qed.

End StoredMatches.

(** A win in a super tiebreak with fewer games than the opponent. *)
Definition fewerGamesWin : Match :=
  {| rawText := None; date := Some "2025-04-02"; opponent := Some "Ann Lee";
     opponentId := None; myUtr := Some 574%Z; myUtrBefore := None;
     opponentUtr := Some 602%Z; opponentUtrBefore := None;
     sets := Some ["7-6"; "0-6"; "1-0"]; won := Some true; isWalkover := false;
     score := None |}.

Lemma recompute_reproduces_differential_witness :
  RecomputeStats.wonWithFewer
    (RecomputeStats.recomputeMatches
       (matches (Aggregator.folded
          (Aggregator.generateStats Singles "Harper Chalat" [fewerGamesWin]))))
  = 1%nat.
Proof.
  refine (proj1 (recompute_reproduces_differential Singles "Harper Chalat"
                   [fewerGamesWin] _)).
  intros m [<-|[]] _. vm_compute. reflexivity.
Defined.

(** ** Invariants of the fold over the matches *)

Section FoldInvariants.

Import Aggregator.

Variables (type : MatchType) (playerName : string).

Local Open Scope nat_scope.
Local Open Scope list_scope.

Lemma fold_left_invariant {A B} (step : A -> B -> A) (I : A -> Prop) :
  (forall a b, I a -> I (step a b)) -> forall l a, I a -> I (fold_left step l a).
Proof.
  intros Hstep. induction l as [|b l IH]; intros a Ha; [exact Ha|].
  cbn [fold_left]. apply IH, Hstep, Ha.
Qed.

Lemma folded_generateStats ms :
  folded (generateStats type playerName ms) = stats (foldMatches type playerName ms).
Proof. unfold Aggregator.generateStats. destruct (fold_left comebackStep _ _). reflexivity. Qed.

(** The fields that only the first two phases of a match write. *)
Definition scalars (s : Stats) :=
  (record s, vsHigherRated s, vsLowerRated s, longestWinStreak s, longestLossStreak s).

Lemma tablePhase_scalars m s : scalars (tablePhase type playerName m s) = scalars s.
Proof.
  unfold tablePhase. destruct (partnerAndTeam _ _ _) as [p t].
  destruct (if isDoubles type then t else None); [reflexivity|].
  destruct (opponentName m); reflexivity.
Qed.

Lemma afterSets_scalars m t s : scalars (afterSets type playerName m t s) = scalars s.
Proof. unfold afterSets. destruct (partnerAndTeam _ _ _). reflexivity. Qed.

Lemma setPhase_scalars m s : scalars (setPhase type playerName m s) = scalars s.
Proof.
  destruct (setPhase_cases type playerName m s) as [[-> _]|(x & l & s' & _ & _ & Hf & ->)];
    [reflexivity|].
  rewrite afterSets_scalars. unfold outsideSets in Hf. unfold scalars.
  injection Hf as -> -> -> _ _ _ _ _ _ _ -> -> _. reflexivity.
Qed.

Lemma perMatch_scalars f m :
  isWalkover m = false ->
  scalars (stats (perMatch type playerName f m))
  = scalars (ratingPhase m (stats (recordPhase m f)))
  /\ currentWinStreak (perMatch type playerName f m) = currentWinStreak (recordPhase m f)
  /\ currentLossStreak (perMatch type playerName f m) = currentLossStreak (recordPhase m f).
Proof.
  intros Hw. unfold Aggregator.perMatch. rewrite Hw.
  cbn [onStats stats currentWinStreak currentLossStreak].
  split; [|split; reflexivity].
  change (scalars (pushPhase type playerName m ?s)) with (scalars s).
  rewrite setPhase_scalars, tablePhase_scalars. reflexivity.
Qed.

Lemma perMatch_walkover f m :
  isWalkover m = true -> perMatch type playerName f m = onStats countWalkover f.
Proof. intros Hw. unfold Aggregator.perMatch. rewrite Hw. reflexivity. Qed.

(** *** The record *)

Definition wonBy (w : bool) (m : Match) : bool :=
  negb (isWalkover m) && match won m with Some b => Bool.eqb b w | None => false end.

Definition countOf {A} (p : A -> bool) (l : list A) : nat := length (List.filter p l).

Lemma perMatch_record f m :
  let r := record (stats f) in
  record (stats (perMatch type playerName f m))
  = {| Rec.wins := Rec.wins r + (if wonBy true m then 1 else 0);
       Rec.losses := Rec.losses r + (if wonBy false m then 1 else 0);
       Rec.walkovers := Rec.walkovers r + (if isWalkover m then 1 else 0) |}.
Proof.
  cbv zeta. unfold wonBy. destruct (isWalkover m) eqn:Hw; cbn [negb andb].
  - rewrite (perMatch_walkover f m Hw). cbn. destruct (record (stats f)). cbn.
    f_equal; lia.
  - destruct (perMatch_scalars f m Hw) as [E _]. unfold scalars in E.
    injection E as -> _ _ _ _.
    unfold ratingPhase, recordPhase.
    destruct (won m) as [[|]|]; cbn; destruct (record (stats f)); cbn; f_equal; lia.
Qed.

Lemma fold_perMatch_record ms : forall f,
  let r := record (stats f) in
  record (stats (fold_left (perMatch type playerName) ms f))
  = {| Rec.wins := Rec.wins r + countOf (wonBy true) ms;
       Rec.losses := Rec.losses r + countOf (wonBy false) ms;
       Rec.walkovers := Rec.walkovers r + countOf isWalkover ms |}.
Proof.
  unfold countOf.
  induction ms as [|m ms IH]; intros f; cbn [fold_left List.filter].
  - cbn. destruct (record (stats f)). cbn. f_equal; lia.
  - cbv zeta in *. rewrite IH, perMatch_record. cbn [Rec.wins Rec.losses Rec.walkovers].
    destruct (wonBy true m), (wonBy false m), (isWalkover m); cbn [length]; f_equal; lia.
Qed.

(** X15: the record counts the matches: [wins] the matches that are not
    walkovers and were won, [losses] those that are not walkovers and were
    lost, [walkovers] the walkovers.  A match without result that is not a
    walkover is counted nowhere. *)
Theorem record_counts_matches (ms : list Match) :
  record (folded (generateStats type playerName ms))
  = {| Rec.wins := countOf (wonBy true) ms;
       Rec.losses := countOf (wonBy false) ms;
       Rec.walkovers := countOf isWalkover ms |}.
Proof.
  rewrite folded_generateStats. unfold Aggregator.foldMatches.
  rewrite fold_perMatch_record. reflexivity.
Qed.

(** *** Rating splits and streaks *)

Definition splitsAndStreaks (f : Fold) : Prop :=
  let s := stats f in
  WL.wins (vsHigherRated s) + WL.wins (vsLowerRated s) = Rec.wins (record s)
  /\ WL.losses (vsHigherRated s) + WL.losses (vsLowerRated s) = Rec.losses (record s)
  /\ currentWinStreak f <= longestWinStreak s <= Rec.wins (record s)
  /\ currentLossStreak f <= longestLossStreak s <= Rec.losses (record s)
  /\ (currentWinStreak f = 0 \/ currentLossStreak f = 0)
  /\ (1 <= Rec.wins (record s) -> 1 <= longestWinStreak s)
  /\ (1 <= Rec.losses (record s) -> 1 <= longestLossStreak s).

Lemma perMatch_splitsAndStreaks f m :
  splitsAndStreaks f -> splitsAndStreaks (perMatch type playerName f m).
Proof.
  unfold splitsAndStreaks. cbv zeta. intros H.
  destruct (isWalkover m) eqn:Hw.
  - rewrite (perMatch_walkover f m Hw). cbn. exact H.
  - destruct (perMatch_scalars f m Hw) as (E & -> & ->). unfold scalars in E.
    injection E as -> -> -> -> ->.
    unfold ratingPhase, recordPhase.
    destruct (won m) as [[|]|]; [| |exact H];
      destruct (Z.ltb (myUtrOf m) (oppUtrOf m));
      cbn [stats record vsHigherRated vsLowerRated longestWinStreak longestLossStreak
           currentWinStreak currentLossStreak winFor lossFor WL.wins WL.losses
           Rec.wins Rec.losses];
      repeat match goal with |- context [if ?c then _ else _] =>
               destruct (Nat.ltb_spec0 (longestWinStreak (stats f)) (S (currentWinStreak f)));
               destruct (Nat.ltb_spec0 (longestLossStreak (stats f)) (S (currentLossStreak f)))
             end; lia.
Qed.

Lemma foldMatches_splitsAndStreaks ms : splitsAndStreaks (foldMatches type playerName ms).
Proof.
  unfold Aggregator.foldMatches. apply fold_left_invariant.
  - intros f m. apply perMatch_splitsAndStreaks.
  - unfold splitsAndStreaks. cbn. lia.
Qed.

(** X16: every win and every loss of the record is counted in exactly one
    of the two rating splits. *)
Theorem rating_splits_partition_record (ms : list Match) :
  let s := folded (generateStats type playerName ms) in
  WL.wins (vsHigherRated s) + WL.wins (vsLowerRated s) = Rec.wins (record s)
  /\ WL.losses (vsHigherRated s) + WL.losses (vsLowerRated s) = Rec.losses (record s).
Proof.
  cbv zeta. rewrite folded_generateStats.
  destruct (foldMatches_splitsAndStreaks ms) as (H1 & H2 & _). auto.
Qed.

(** X17: the longest winning streak is at most the number of wins and at
    least one when there is a win, and the streak running at the end is
    at most the longest one; the same holds for losses; and the two
    running streaks are never both positive. *)
Theorem streaks_bounded (ms : list Match) :
  let f := foldMatches type playerName ms in
  let s := folded (generateStats type playerName ms) in
  currentWinStreak f <= longestWinStreak s <= Rec.wins (record s)
  /\ currentLossStreak f <= longestLossStreak s <= Rec.losses (record s)
  /\ (currentWinStreak f = 0 \/ currentLossStreak f = 0)
  /\ (Rec.wins (record s) = 0 \/ 1 <= longestWinStreak s)
  /\ (Rec.losses (record s) = 0 \/ 1 <= longestLossStreak s).
Proof.
  cbv zeta. rewrite folded_generateStats.
  destruct (foldMatches_splitsAndStreaks ms) as (_ & _ & H1 & H2 & H3 & H4 & H5).
  repeat split; try tauto; lia.
Qed.


(** *** Sets by kind *)

(** The sets counted as won, and as lost, under one of the four kinds. *)
Definition kindsWon (s : Stats) : nat :=
  WonLost.won (superTiebreaks s) + WonLost.won (tiebreaks s)
  + GR.given (bagels s) + GR.given (breadsticks s).
Definition kindsLost (s : Stats) : nat :=
  WonLost.lost (superTiebreaks s) + WonLost.lost (tiebreaks s)
  + GR.received (bagels s) + GR.received (breadsticks s).

Definition setFields (s : Stats) :=
  (bagels s, breadsticks s, tiebreaks s, superTiebreaks s, setsRecord s).

Lemma analyzeSet_kinds s t x :
  let s' := fst (analyzeSet (s, t) x) in
  let t' := snd (analyzeSet (s, t) x) in
  kindsWon s' + matchSetsWon t <= kindsWon s + matchSetsWon t'
  /\ kindsLost s' + matchSetsLost t <= kindsLost s + matchSetsLost t'
  /\ matchSetsWon t <= matchSetsWon t' /\ matchSetsLost t <= matchSetsLost t'.
Proof.
  cbv zeta. unfold analyzeSet, kindsWon, kindsLost.
  destruct (classifySet x) as [w|w|a b|a b|a b|]; cbn [fst snd].
  - destruct (Z.eqb w 1); cbn; lia.
  - destruct (Z.eqb w 1); cbn; lia.
  - destruct (Z.eqb_spec a 7), (Z.eqb_spec b 6), (Z.eqb_spec a 6), (Z.eqb_spec b 7),
      (Z.ltb_spec b a); cbn; lia.
  - destruct (Z.ltb b a); cbn; lia.
  - destruct (Z.eqb_spec a 6), (Z.eqb_spec b 0), (Z.eqb_spec a 0), (Z.eqb_spec b 6),
      (Z.eqb_spec b 1), (Z.eqb_spec a 1), (Z.ltb_spec b a), (Z.ltb_spec a b); cbn; lia.
  - lia.
Qed.

Lemma fold_analyzeSet_kinds l : forall s t,
  let s' := fst (fold_left analyzeSet l (s, t)) in
  let t' := snd (fold_left analyzeSet l (s, t)) in
  kindsWon s' + matchSetsWon t <= kindsWon s + matchSetsWon t'
  /\ kindsLost s' + matchSetsLost t <= kindsLost s + matchSetsLost t'.
Proof.
  induction l as [|x l IH]; intros s t; cbn [fold_left]; [cbn; lia|].
  pose proof (analyzeSet_kinds s t x) as H. cbv zeta in *.
  destruct (analyzeSet (s, t) x) as [s1 t1]. cbn [fst snd] in H.
  specialize (IH s1 t1). lia.
Qed.

Definition kindsWithinSets (s : Stats) : Prop :=
  kindsWon s <= WonLost.won (setsRecord s) /\ kindsLost s <= WonLost.lost (setsRecord s).

Lemma kinds_setFields s1 s2 :
  setFields s1 = setFields s2 -> kindsWithinSets s2 -> kindsWithinSets s1.
Proof.
  unfold setFields, kindsWithinSets, kindsWon, kindsLost.
  intros E. injection E as -> -> -> -> ->. auto.
Qed.

Lemma setPhase_kinds m s :
  kindsWithinSets s -> kindsWithinSets (setPhase type playerName m s).
Proof.
  intros H.
  destruct (setPhase_cases type playerName m s) as [[-> _]|(x & l & s' & _ & Es & Hf & ->)];
    [exact H|].
  pose proof (fold_analyzeSet_kinds (x :: l) s emptyTally) as K. cbv zeta in K.
  rewrite <- Es in K.
  rewrite (fold_analyzeSet_snd (x :: l) s initialStats emptyTally) in K.
  fold (tallyOf (x :: l)) in K.
  assert (Hs : setsRecord s' = setsRecord s)
    by (unfold outsideSets in Hf; injection Hf as _ _ _ -> _ _ _ _ _ _ _ _ _; reflexivity).
  unfold kindsWithinSets in *. unfold afterSets. destruct (partnerAndTeam _ _ _).
  unfold kindsWon, kindsLost in *.
  cbn [superTiebreaks tiebreaks bagels breadsticks setsRecord WonLost.won WonLost.lost].
  rewrite Hs. cbn [emptyTally matchSetsWon matchSetsLost] in K. lia.
Qed.

Lemma perMatch_kinds f m :
  kindsWithinSets (stats f) -> kindsWithinSets (stats (perMatch type playerName f m)).
Proof.
  intros H. unfold Aggregator.perMatch. destruct (isWalkover m).
  - exact H.
  - cbn [onStats stats].
    apply (kinds_setFields _ (setPhase type playerName m
             (tablePhase type playerName m (ratingPhase m (stats (recordPhase m f)))))
             eq_refl).
    apply setPhase_kinds.
    refine (kinds_setFields _ (stats f) _ H).
    unfold tablePhase, ratingPhase, recordPhase, setFields.
    destruct (partnerAndTeam _ _ _) as [p t].
    destruct (if isDoubles type then t else None);
      [|destruct (opponentName m)]; destruct (won m) as [[|]|]; reflexivity.
Qed.

(** X18: the sets counted as won under a kind (super tiebreaks and
    tiebreaks won, bagels and breadsticks given) are together at most the
    sets won, and likewise for the sets lost: a set is counted under at
    most one kind, and only where it is counted for that side. *)
Theorem set_kinds_within_sets (ms : list Match) :
  let s := folded (generateStats type playerName ms) in
  WonLost.won (superTiebreaks s) + WonLost.won (tiebreaks s)
    + GR.given (bagels s) + GR.given (breadsticks s) <= WonLost.won (setsRecord s)
  /\ WonLost.lost (superTiebreaks s) + WonLost.lost (tiebreaks s)
    + GR.received (bagels s) + GR.received (breadsticks s) <= WonLost.lost (setsRecord s).
Proof.
  cbv zeta. rewrite folded_generateStats. unfold Aggregator.foldMatches.
  apply (fold_left_invariant (perMatch type playerName) (fun f => kindsWithinSets (stats f))).
  - intros f m. apply perMatch_kinds.
  - unfold kindsWithinSets, kindsWon, kindsLost. cbn. lia.
Qed.

(** *** Counters of matches *)

Definition matchCounters (s : Stats) : Prop :=
  WonLost.won (decidingSets s) <= Rec.wins (record s)
  /\ WonLost.lost (decidingSets s) <= Rec.losses (record s)
  /\ GD.wonWithFewer (gamesDifferential s) <= Rec.wins (record s)
  /\ GD.lostWithMore (gamesDifferential s) <= Rec.losses (record s).

Lemma perMatch_matchCounters f m :
  matchCounters (stats f) -> matchCounters (stats (perMatch type playerName f m)).
Proof.
  unfold matchCounters. intros H.
  pose proof (perMatch_record f m) as Hr. cbv zeta in Hr. rewrite Hr.
  cbn [Rec.wins Rec.losses].
  pose proof (perMatch_anomalies type playerName f m) as Ha.
  unfold anomalies, addPair in Ha. cbn [fst snd] in Ha. injection Ha as -> ->.
  assert (Hd : WonLost.won (decidingSets (stats (perMatch type playerName f m)))
               <= WonLost.won (decidingSets (stats f)) + (if wonBy true m then 1 else 0)
            /\ WonLost.lost (decidingSets (stats (perMatch type playerName f m)))
               <= WonLost.lost (decidingSets (stats f)) + (if wonBy false m then 1 else 0)).
  { unfold Aggregator.perMatch, wonBy. destruct (isWalkover m); [cbn; lia|].
    cbn [onStats stats pushPhase decidingSets negb andb].
    destruct (setPhase_cases type playerName m
                (tablePhase type playerName m (ratingPhase m (stats (recordPhase m f)))))
      as [[-> _]|(x & l & s' & _ & _ & Hf & ->)].
    - rewrite tablePhase_ds, ratingPhase_ds, recordPhase_ds. lia.
    - assert (Hs : decidingSets s' = decidingSets (stats f)).
      { unfold outsideSets in Hf. injection Hf as _ _ _ _ _ -> _ _ _ _ _ _ _.
        rewrite tablePhase_ds, ratingPhase_ds, recordPhase_ds. reflexivity. }
      unfold afterSets. destruct (partnerAndTeam _ _ _). cbn [decidingSets]. rewrite Hs.
      destruct (wentToDecider _), (won m) as [[|]|]; cbn; lia. }
  assert (Hb : fst (anomalyOf m) <= (if wonBy true m then 1 else 0)
            /\ snd (anomalyOf m) <= (if wonBy false m then 1 else 0)).
  { unfold anomalyOf, wonBy. destruct (isWalkover m); [cbn; lia|]. cbn [negb andb].
    destruct (sets m) as [[|x l]|]; try (cbn; lia).
    destruct (won m) as [[|]|]; try (cbn; lia);
      match goal with |- context [if ?c then _ else _] => destruct c end; cbn; lia. }
  lia.
Qed.

(** X19: the deciding sets won and the matches won with fewer games are
    at most the wins of the record; the deciding sets lost and the matches
    lost with more games are at most its losses. *)
Theorem match_counters_within_record (ms : list Match) :
  let s := folded (generateStats type playerName ms) in
  WonLost.won (decidingSets s) <= Rec.wins (record s)
  /\ WonLost.lost (decidingSets s) <= Rec.losses (record s)
  /\ GD.wonWithFewer (gamesDifferential s) <= Rec.wins (record s)
  /\ GD.lostWithMore (gamesDifferential s) <= Rec.losses (record s).
Proof.
  cbv zeta. rewrite folded_generateStats. unfold Aggregator.foldMatches.
  apply (fold_left_invariant (perMatch type playerName) (fun f => matchCounters (stats f))).
  - intros f m. apply perMatch_matchCounters.
  - unfold matchCounters. cbn. lia.
Qed.

End FoldInvariants.

(** ** The table of opponents *)

Section OpponentsTable.

Import Aggregator.

Variable playerName : string.

Local Open Scope nat_scope.
Local Open Scope list_scope.

















End OpponentsTable.

(** ** Comebacks and months *)

Section AfterTheFold.

Import Aggregator.

Variables (type : MatchType) (playerName : string).

Local Open Scope nat_scope.
Local Open Scope list_scope.

(** *** Comebacks *)

Definition cleanWonIs (w : bool) (c : Clean.t) : bool :=
  match Clean.won c with Some b => Bool.eqb b w | None => false end.

Lemma comebackStep_bound acc c :
  fst (comebackStep acc c) <= fst acc + (if cleanWonIs true c then 1 else 0)
  /\ snd (comebackStep acc c) <= snd acc + (if cleanWonIs false c then 1 else 0).
Proof.
  unfold comebackStep, cleanWonIs. destruct acc as [a b].
  destruct (Clean.sets c) as [|first [|second rest]]; cbn [fst snd]; try lia.
  destruct (firstSetNumbers first) as [[x y]|]; cbn [fst snd]; try lia.
  destruct (Clean.won c) as [[|]|], (Z.ltb y x); cbn; lia.
Qed.

Lemma fold_comebackStep_bound cs : forall acc,
  fst (fold_left comebackStep cs acc) <= fst acc + countOf (cleanWonIs true) cs
  /\ snd (fold_left comebackStep cs acc) <= snd acc + countOf (cleanWonIs false) cs.
Proof.
  unfold countOf.
  induction cs as [|c cs IH]; intros acc; cbn [fold_left List.filter]; [lia|].
  pose proof (comebackStep_bound acc c) as H. specialize (IH (comebackStep acc c)).
  destruct (cleanWonIs true c), (cleanWonIs false c); cbn [length]; lia.
Qed.

Lemma count_clean w ms :
  countOf (cleanWonIs w) (map (cleanMatch type playerName) (List.filter played ms))
  = countOf (wonBy w) ms.
Proof.
  unfold countOf. induction ms as [|m ms IH]; [reflexivity|].
  cbn [List.filter]. unfold played at 1, wonBy at 1.
  destruct (isWalkover m); cbn [negb andb]; [exact IH|].
  cbn [map List.filter].
  replace (cleanWonIs w (cleanMatch type playerName m))
    with (match won m with Some b => Bool.eqb b w | None => false end)
    by (unfold cleanWonIs, cleanMatch; destruct (partnerAndTeam _ _ _); reflexivity).
  destruct (match won m with Some b => Bool.eqb b w | None => false end);
    cbn [length]; rewrite IH; reflexivity.
Qed.

(** X21: the comebacks are at most the wins of the record and the matches
    lost after winning the first set are at most its losses. *)
Theorem comebacks_within_record (ms : list Match) :
  let r := generateStats type playerName ms in
  WonLost.won (comebacks r) <= Rec.wins (record (folded r))
  /\ WonLost.lost (comebacks r) <= Rec.losses (record (folded r)).
Proof.
  cbv zeta.
  pose proof (fold_perMatch_record type playerName ms initialFold) as Hr. cbv zeta in Hr.
  pose proof (fold_perMatch_matches type playerName ms initialFold) as Hm.
  fold (foldMatches type playerName ms) in Hr, Hm.
  cbn [initialFold stats initialStats record matches Rec.wins Rec.losses Rec.walkovers app
       Nat.add] in Hr, Hm.
  unfold Aggregator.generateStats.
  pose proof (fold_comebackStep_bound (matches (stats (foldMatches type playerName ms)))
                (0, 0)) as Hc.
  destruct (fold_left comebackStep _ _) as [a b].
  cbn [comebacks folded WonLost.won WonLost.lost fst snd Nat.add] in *.
  rewrite Hm, !count_clean in Hc. rewrite Hr. cbn [Rec.wins Rec.losses]. exact Hc.
Qed.

(** *** The monthly breakdown *)

Lemma insertDesc_sorted {A} (key : A -> Z) x l :
  StronglySorted (fun a b => (key b <= key a)%Z) l ->
  StronglySorted (fun a b => (key b <= key a)%Z) (insertDesc key x l).
Proof.
  induction 1 as [|y l Hl IH Hy]; cbn [insertDesc].
  - constructor; constructor.
  - destruct (Z.ltb_spec (key x) (key y)).
    + constructor; [exact IH|].
      rewrite List.Forall_forall in *. intros z Hz.
      apply in_insertDesc in Hz as [->|Hz]; [lia | apply Hy, Hz].
    + constructor; [constructor; assumption|].
      constructor; [lia|].
      rewrite List.Forall_forall in *. intros z Hz. specialize (Hy z Hz). lia.
Qed.

Lemma sortDesc_sorted {A} (key : A -> Z) l :
  StronglySorted (fun a b => (key b <= key a)%Z) (sortDesc key l).
Proof.
  induction l as [|x l IH]; cbn [sortDesc fold_right]; [constructor|].
  apply insertDesc_sorted, IH.
Qed.




End AfterTheFold.

(** ** The callouts *)

Section CalloutProperties.

Import Callouts.

Local Open Scope Z_scope.
Local Open Scope list_scope.

Section StableSortWith.

Context {A : Type} (cmp : A -> A -> Z).
Hypothesis cmp_anti : forall a b, 0 < cmp a b -> cmp b a < 0.
Hypothesis cmp_trans : forall a b c, cmp a b <= 0 -> cmp b c <= 0 -> cmp a c <= 0.

(** The head of the sorted list comes strictly before everything that
    stood before it and is not after anything that stood behind it. *)
Lemma head_sortWith l :
  match head (sortWith cmp l) with
  | Some b => exists l1 l2, l = l1 ++ b :: l2
                /\ (forall y, In y l1 -> cmp b y < 0)
                /\ (forall y, In y l2 -> cmp b y <= 0)
  | None => l = []
  end.
Proof.
  induction l as [|x l IH]; [reflexivity|].
  cbn [sortWith fold_right]. fold (sortWith cmp l).
  destruct (sortWith cmp l) as [|h r]; cbn [head insertWith] in *.
  - subst l. exists [], []. repeat split; intros y [].
  - destruct IH as (l1 & l2 & -> & H1 & H2).
    destruct (Z.ltb_spec 0 (cmp x h)); cbn [head].
    + exists (x :: l1), l2. repeat split; [|exact H2].
      intros y [<-|Hy]; [apply cmp_anti; assumption | auto].
    + exists [], (l1 ++ h :: l2). repeat split; [intros y []|].
      intros y Hy. apply in_app_or in Hy as [Hy|[<-|Hy]].
      * apply (cmp_trans x h y); [assumption|]. specialize (H1 _ Hy). lia.
      * assumption.
      * apply (cmp_trans x h y); [assumption | auto].
Qed.

End StableSortWith.

Ltac order_cases :=
  repeat match goal with
    | |- context [?a =? ?b] => destruct (Z.eqb_spec a b)
    | H : context [?a =? ?b] |- _ => destruct (Z.eqb_spec a b)
    end; cbn [negb] in *.

Lemma nemesisOrder_anti a b : 0 < nemesisOrder a b -> nemesisOrder b a < 0.
Proof. unfold nemesisOrder. cbv zeta. order_cases; lia. Qed.

Lemma nemesisOrder_trans a b c :
  nemesisOrder a b <= 0 -> nemesisOrder b c <= 0 -> nemesisOrder a c <= 0.
Proof. unfold nemesisOrder. cbv zeta. order_cases; lia. Qed.

Lemma dominatedOrder_anti a b : 0 < dominatedOrder a b -> dominatedOrder b a < 0.
Proof. unfold dominatedOrder. cbv zeta. order_cases; lia. Qed.

Lemma dominatedOrder_trans a b c :
  dominatedOrder a b <= 0 -> dominatedOrder b c <= 0 -> dominatedOrder a c <= 0.
Proof. unfold dominatedOrder. cbv zeta. order_cases; lia. Qed.

(** Ranking by net record, then game difference, then matches played. *)
Definition ranksBefore (net diff : Entry -> Z) (e c : Entry) : Prop :=
  net c < net e
  \/ (net c = net e /\ (diff e < diff c
                        \/ (diff e = diff c /\ played c <= played e))).

Definition strictlyBefore (net diff : Entry -> Z) (e c : Entry) : Prop :=
  net c < net e
  \/ (net c = net e /\ (diff e < diff c
                        \/ (diff e = diff c /\ played c < played e))).

Lemma filter_split {B} (p : B -> bool) l : forall l1 b l2,
  List.filter p l = l1 ++ b :: l2 ->
  exists k1 k2, l = k1 ++ b :: k2 /\ List.filter p k1 = l1 /\ List.filter p k2 = l2.
Proof.
  induction l as [|x l IH]; intros l1 b l2 E; cbn [List.filter] in E.
  - destruct l1; discriminate.
  - destruct (p x) eqn:Ep.
    + destruct l1 as [|y l1]; cbn [app] in E; injection E as -> E.
      * exists [], l. repeat split. exact E.
      * destruct (IH _ _ _ E) as (k1 & k2 & -> & F1 & F2).
        exists (y :: k1), k2. repeat split; [|exact F2].
        cbn [List.filter]. rewrite Ep, F1. reflexivity.
    + destruct (IH _ _ _ E) as (k1 & k2 & -> & F1 & F2).
      exists (x :: k1), k2. repeat split; [|exact F2].
      cbn [List.filter]. rewrite Ep. exact F1.
Qed.

(** X23: the nemesis is the candidate (at least one loss, at least two
    matches) with the greatest excess of losses over wins; among those,
    the one with the least game difference; among those, the one with the
    most matches; and among those that tie on all three, the first in the
    order of [Object.entries].  There is none exactly when there is no
    candidate. *)
Theorem nemesis_worst_record (entries : list Entry) :
  let candidate o := (1 <=? losses o) && (2 <=? played o) in
  let net o := losses o - wins o in
  match nemesisEntry entries with
  | Some e =>
      candidate e = true
      /\ exists before behind, entries = before ++ e :: behind
         /\ Forall (fun c => candidate c = true -> strictlyBefore net gameDiff e c) before
         /\ Forall (fun c => candidate c = true -> ranksBefore net gameDiff e c) behind
  | None => Forall (fun c => candidate c = false) entries
  end.
Proof.
  cbv zeta. unfold nemesisEntry.
  pose proof (head_sortWith nemesisOrder nemesisOrder_anti nemesisOrder_trans
                (List.filter (fun o => (1 <=? losses o) && (2 <=? played o)) entries)) as H.
  destruct (head _) as [e|].
  - destruct H as (l1 & l2 & E & H1 & H2).
    destruct (filter_split _ _ _ _ _ E) as (k1 & k2 & -> & F1 & F2).
    split.
    { assert (Hin : In e (List.filter (fun o => (1 <=? losses o) && (2 <=? played o))
                            (k1 ++ e :: k2))) by (rewrite E; apply in_elt).
      apply filter_In in Hin as [_ Hc]. exact Hc. }
    exists k1, k2. split; [reflexivity|]. split; rewrite List.Forall_forall; intros c Hc Hcand.
    + assert (Hlt : nemesisOrder e c < 0)
        by (apply H1; rewrite <- F1; apply filter_In; auto).
      revert Hlt. unfold nemesisOrder, strictlyBefore. cbv zeta. order_cases; lia.
    + assert (Hle : nemesisOrder e c <= 0)
        by (apply H2; rewrite <- F2; apply filter_In; auto).
      revert Hle. unfold nemesisOrder, ranksBefore. cbv zeta. order_cases; lia.
  - rewrite List.Forall_forall. intros c Hc.
    destruct ((1 <=? losses c) && (2 <=? played c)) eqn:Ec; [|reflexivity].
    assert (Hin : In c (List.filter (fun o => (1 <=? losses o) && (2 <=? played o)) entries))
      by (apply filter_In; auto).
    rewrite H in Hin. destruct Hin.
Qed.

(** X24: the dominated opponent is the candidate (at least one win, at
    least two matches) with the greatest excess of wins over losses; among
    those, the one with the greatest game difference; among those, the one
    with the most matches; and among those that tie on all three, the
    first in the order of [Object.entries]. *)
Theorem dominated_best_record (entries : list Entry) :
  let candidate o := (1 <=? wins o) && (2 <=? played o) in
  let net o := wins o - losses o in
  let lead o := - gameDiff o in
  match dominatedEntry entries with
  | Some e =>
      candidate e = true
      /\ exists before behind, entries = before ++ e :: behind
         /\ Forall (fun c => candidate c = true -> strictlyBefore net lead e c) before
         /\ Forall (fun c => candidate c = true -> ranksBefore net lead e c) behind
  | None => Forall (fun c => candidate c = false) entries
  end.
Proof.
  cbv zeta. unfold dominatedEntry.
  pose proof (head_sortWith dominatedOrder dominatedOrder_anti dominatedOrder_trans
                (List.filter (fun o => (1 <=? wins o) && (2 <=? played o)) entries)) as H.
  destruct (head _) as [e|].
  - destruct H as (l1 & l2 & E & H1 & H2).
    destruct (filter_split _ _ _ _ _ E) as (k1 & k2 & -> & F1 & F2).
    split.
    { assert (Hin : In e (List.filter (fun o => (1 <=? wins o) && (2 <=? played o))
                            (k1 ++ e :: k2))) by (rewrite E; apply in_elt).
      apply filter_In in Hin as [_ Hc]. exact Hc. }
    exists k1, k2. split; [reflexivity|]. split; rewrite List.Forall_forall; intros c Hc Hcand.
    + assert (Hlt : dominatedOrder e c < 0)
        by (apply H1; rewrite <- F1; apply filter_In; auto).
      revert Hlt. unfold dominatedOrder, strictlyBefore. cbv zeta. order_cases; lia.
    + assert (Hle : dominatedOrder e c <= 0)
        by (apply H2; rewrite <- F2; apply filter_In; auto).
      revert Hle. unfold dominatedOrder, ranksBefore. cbv zeta. order_cases; lia.
  - rewrite List.Forall_forall. intros c Hc.
    destruct ((1 <=? wins c) && (2 <=? played c)) eqn:Ec; [|reflexivity].
    assert (Hin : In c (List.filter (fun o => (1 <=? wins o) && (2 <=? played o)) entries))
      by (apply filter_In; auto).
    rewrite H in Hin. destruct Hin.
Qed.

(** *** The most frequent opponents *)

Lemma insertDesc_length {B} (key : B -> Z) x l :
  length (Aggregator.insertDesc key x l) = S (length l).
Proof.
  induction l as [|y l IH]; cbn [Aggregator.insertDesc length]; [reflexivity|].
  destruct (key x <? key y); cbn [length]; [rewrite IH|]; reflexivity.
Qed.

Lemma sortDesc_length {B} (key : B -> Z) l : length (Aggregator.sortDesc key l) = length l.
Proof.
  induction l as [|x l IH]; [reflexivity|].
  cbn [Aggregator.sortDesc fold_right]. fold (Aggregator.sortDesc key l).
  rewrite insertDesc_length, IH. reflexivity.
Qed.

Lemma in_skipn {B} (b : B) n : forall l, In b (skipn n l) -> In b l.
Proof.
  induction n as [|n IH]; intros l H; [exact H|].
  destruct l as [|x l]; [destruct H|]. right. apply IH, H.
Qed.

Lemma StronglySorted_split {B} (R : B -> B -> Prop) l :
  StronglySorted R l ->
  forall n a b, In a (firstn n l) -> In b (skipn n l) -> R a b.
Proof.
  intros Hs. induction Hs as [|x l Hs IH Hx]; intros n a b Ha Hb.
  - destruct n; destruct Ha.
  - destruct n as [|n]; [destruct Ha|]. cbn [firstn skipn] in *.
    destruct Ha as [<-|Ha].
    + rewrite List.Forall_forall in Hx. apply Hx. eapply in_skipn, Hb.
    + eapply IH; eauto.
Qed.

Lemma StronglySorted_firstn {B} (R : B -> B -> Prop) l :
  StronglySorted R l -> forall n, StronglySorted R (firstn n l).
Proof.
  intros Hs. induction Hs as [|x l Hs IH Hx]; intros n.
  - destruct n; constructor.
  - destruct n as [|n]; cbn [firstn]; constructor; [apply IH|].
    rewrite List.Forall_forall in *. intros y Hy. apply Hx.
    rewrite <- (firstn_skipn n l). apply in_or_app. left. exact Hy.
Qed.

(** X25: the frequent opponents are the first five entries, or all of them
    when there are fewer, of the list put in the order of falling number
    of matches: they are entries of the list, and every entry that is left
    out has played no more matches than any entry that is kept. *)
Theorem frequent_opponents_top_five (entries : list Entry) :
  let kept := frequentEntries entries in
  length kept = Nat.min 5 (length entries)
  /\ StronglySorted (fun a b => played b <= played a) kept
  /\ exists rest,
       (forall e, In e entries <-> In e kept \/ In e rest)
       /\ (length kept + length rest)%nat = length entries
       /\ Forall (fun r => Forall (fun k => played r <= played k) kept) rest.
Proof.
  cbv zeta. unfold frequentEntries.
  pose proof (sortDesc_sorted played entries) as Hs.
  set (sorted := Aggregator.sortDesc played entries) in *.
  split; [|split].
  - rewrite List.length_firstn. subst sorted. rewrite sortDesc_length. reflexivity.
  - apply StronglySorted_firstn, Hs.
  - exists (skipn 5 sorted). split; [|split].
    + intros e. rewrite <- in_app_iff, firstn_skipn. subst sorted.
      symmetry. apply in_sortDesc.
    + rewrite <- List.length_app, firstn_skipn. subst sorted. apply sortDesc_length.
    + rewrite List.Forall_forall. intros r Hr. rewrite List.Forall_forall. intros k Hk.
      apply (StronglySorted_split _ _ Hs 5 k r Hk Hr).
Qed.

End CalloutProperties.

(** ** The scraper's scores *)

Section ScoreTokenProperties.

Import ScoreTokens.

Local Open Scope Z_scope.
Local Open Scope list_scope.

Ltac digit_cases c H :=
  destruct (isDigit_cases c H) as [->|[->|[->|[->|[->|[->|[->|[->|[->| ->]]]]]]]]].

Lemma parseInt_one a :
  JS.isDigit a = true ->
  JS.parseInt (String a "") = Some (JS.digitValue a)
  /\ JS.showZ (JS.digitValue a) = String a ""
  /\ 0 <= JS.digitValue a < 10.
Proof. intros Ha. digit_cases a Ha; repeat split; reflexivity || lia || discriminate. Qed.

Lemma parseInt_two a b :
  JS.isDigit a = true -> JS.isDigit b = true ->
  JS.parseInt (String a (String b "")) = Some (10 * JS.digitValue a + JS.digitValue b).
Proof. intros Ha Hb. digit_cases a Ha; digit_cases b Hb; reflexivity. Qed.

Lemma showZ_two a b :
  JS.isDigit a = true -> JS.isDigit b = true -> 1 <= JS.digitValue a ->
  JS.showZ (10 * JS.digitValue a + JS.digitValue b) = String a (String b "").
Proof.
  intros Ha Hb. digit_cases a Ha; digit_cases b Hb; intros H1;
    try reflexivity; exfalso; revert H1; vm_compute; intros H1; apply H1; reflexivity.
Qed.

Lemma join_empty_cons x l : JS.join "" (x :: l) = (x ++ JS.join "" l)%string.
Proof.
  destruct l as [|y l]; cbn [JS.join]; [rewrite append_nil_r|rewrite append_nil_l];
    reflexivity.
Qed.

Lemma omap_some (v : Z) (l : list (option Z)) :
  omap (fun t => t) (Some v :: l) = v :: omap (fun t => t) l.
Proof. reflexivity. Qed.

Lemma tokens_two a b r :
  tokens (String a (String b r))
  = if JS.geNum (JS.parseInt (String a (String b ""))) 10
    then JS.parseInt (String a (String b "")) :: tokens r
    else JS.parseInt (String a "") :: tokens (String b r).
Proof. reflexivity. Qed.

Lemma scores_digits n : forall s,
  (String.length s <= n)%nat -> JS.allChars JS.isDigit s = true ->
  JS.join "" (map JS.showZ (scores s)) = s
  /\ Forall (fun k => 0 <= k < 100) (scores s)
  /\ (length (scores s) <= String.length s)%nat.
Proof.
  unfold scores.
  induction n as [|n IH]; intros s Hn Hs.
  - destruct s; [repeat split; constructor | simpl in Hn; lia].
  - destruct s as [|a [|b r]]; [repeat split; constructor| |].
    + cbn [JS.allChars] in Hs. apply andb_true_iff in Hs as [Ha _].
      destruct (parseInt_one a Ha) as (E1 & E2 & E3).
      cbn [tokens]. rewrite E1, omap_some. cbn [map JS.join].
      change (omap (fun t => t) []) with (@nil Z). cbn [map JS.join]. rewrite E2.
      repeat split; [repeat constructor; lia | cbn; lia].
    + pose proof Hs as Hs'. cbn [JS.allChars] in Hs.
      apply andb_true_iff in Hs as [Ha Hs]. apply andb_true_iff in Hs as [Hb Hr].
      destruct (parseInt_one a Ha) as (E1 & E2 & E3).
      destruct (parseInt_one b Hb) as (_ & _ & F3).
      rewrite tokens_two, (parseInt_two a b Ha Hb), E1. cbn [JS.geNum].
      destruct (Z.leb_spec 10 (10 * JS.digitValue a + JS.digitValue b)).
      * destruct (IH r) as (I1 & I2 & I3); [simpl in Hn |- *; lia | exact Hr |].
        rewrite omap_some. cbn [map]. rewrite join_empty_cons, I1, showZ_two by (auto; lia).
        repeat split; [constructor; [lia | exact I2] | cbn [length String.length]; lia].
      * destruct (IH (String b r)) as (I1 & I2 & I3);
          [simpl in Hn |- *; lia | cbn [JS.allChars]; rewrite Hb, Hr; reflexivity |].
        rewrite omap_some. cbn [map]. rewrite join_empty_cons, I1, E2.
        repeat split; [constructor; [lia | exact I2] | cbn [length String.length] in *; lia].
Qed.

(** X26: the scores that the scraper reads in a run of digits are numbers
    from 0 to 99, at most as many as the run has digits, and written one
    after the other they give back the run. *)
Theorem scores_round_trip (rawScores : string) :
  JS.allChars JS.isDigit rawScores = true ->
  JS.join "" (map JS.showZ (scores rawScores)) = rawScores
  /\ Forall (fun k => 0 <= k < 100) (scores rawScores)
  /\ (length (scores rawScores) <= String.length rawScores)%nat.
Proof. intros H. apply (scores_digits (String.length rawScores)); [lia | exact H]. Qed.

(** *** From the scraper to [fixMatchData] *)

(** A run that starts with a digit other than 0 followed by a digit. *)
Definition startsTwoDigit (s : string) : bool :=
  match s with
  | String a (String b _) => JS.isDigit a && negb (Ascii.eqb a "0") && JS.isDigit b
  | _ => false
  end.

Lemma scores_startsTwoDigit s :
  startsTwoDigit s = true ->
  exists a b rest, JS.isDigit a = true /\ JS.isDigit b = true /\ 1 <= JS.digitValue a
    /\ scores s = (10 * JS.digitValue a + JS.digitValue b) :: rest.
Proof.
  destruct s as [|a [|b r]]; try discriminate. cbn [startsTwoDigit].
  intros H. apply andb_true_iff in H as [H Hb]. apply andb_true_iff in H as [Ha Hz].
  apply negb_true_iff in Hz.
  assert (H1 : 1 <= JS.digitValue a).
  { digit_cases a Ha; try discriminate Hz; vm_compute; discriminate. }
  exists a, b, (scores r). repeat split; auto.
  unfold scores. rewrite tokens_two, (parseInt_two a b Ha Hb). cbn [JS.geNum].
  pose proof (digitValue_bound b Hb).
  destruct (Z.leb_spec 10 (10 * JS.digitValue a + JS.digitValue b)); [|lia].
  apply omap_some.
Qed.

Lemma looksConcatenated_two a b c d :
  JS.isDigit a = true -> JS.isDigit b = true -> JS.isDigit c = true -> JS.isDigit d = true ->
  Normalizer.looksConcatenated
    (String a (String b "") ++ "-" ++ String c (String d "")) = true.
Proof.
  intros Ha Hb Hc Hd. unfold Normalizer.looksConcatenated.
  rewrite split_dash by (cbn [JS.allChars]; rewrite ?Ha, ?Hb, ?Hc, ?Hd; reflexivity).
  cbn [JS.allChars String.length]. rewrite Ha, Hb, Hc, Hd. reflexivity.
Qed.

(** X27: when the two runs of score characters of a card each start with
    a digit other than 0 followed by a digit, as in "64" and "26", the
    scraper reads two-digit scores, the set list it stores is empty or
    starts with a set like "64-26", and [fixMatchData] reads the sets again
    from the text of the card instead. *)
Theorem scraped_sets_are_reread (playerName : string) (type : MatchType) (m : Match)
    (myRaw oppRaw : string) (sup : list Z) :
  startsTwoDigit myRaw = true ->
  startsTwoDigit oppRaw = true ->
  sets m = Some (scrapedSets myRaw oppRaw sup) ->
  Normalizer.chosenSets playerName type m
  = parsedSets (parseScoresFromRawText (rawText m) playerName type).
Proof.
  intros Hu Ho Hsets. unfold Normalizer.chosenSets. rewrite Hsets.
  cbn [default from_option]. unfold id.
  destruct (scores_startsTwoDigit _ Hu) as (a & b & ru & Ha & Hb & Ha1 & Eu).
  destruct (scores_startsTwoDigit _ Ho) as (c & d & ro & Hc & Hd & Hc1 & Eo).
  unfold scrapedSets, setsOf. rewrite Eu, Eo.
  destruct type; cbn [orb]; [|reflexivity].
  destruct (_ && _ && _); [|reflexivity].
  cbn [combine buildSets].
  pose proof (digitValue_bound a Ha). pose proof (digitValue_bound b Hb).
  pose proof (digitValue_bound c Hc). pose proof (digitValue_bound d Hd).
  set (x := 10 * JS.digitValue a + JS.digitValue b) in *.
  set (y := 10 * JS.digitValue c + JS.digitValue d) in *.
  replace (x =? 7) with false by (symmetry; apply Z.eqb_neq; lia).
  replace (x =? 6) with false by (symmetry; apply Z.eqb_neq; lia).
  replace (x =? 1) with false by (symmetry; apply Z.eqb_neq; lia).
  replace (x =? 0) with false by (symmetry; apply Z.eqb_neq; lia).
  cbn [andb orb]. unfold setString. subst x y.
  rewrite (showZ_two a b Ha Hb Ha1), (showZ_two c d Hc Hd Hc1).
  rewrite (looksConcatenated_two a b c d Ha Hb Hc Hd). reflexivity.
Qed.

End ScoreTokenProperties.

Lemma scores_round_trip_witness :
  JS.join "" (map JS.showZ (ScoreTokens.scores "64106")) = "64106".
Proof. exact (proj1 (scores_round_trip "64106" eq_refl)). Defined.

(** A singles card as the scraper stores it. *)
Definition scrapedCard : Match :=
  {| rawText := Some "Harper Chalat 5.74 64 John Smith 4.50 26";
     date := Some "Dec 3"; opponent := Some "John Smith"; opponentId := None;
     myUtr := Some 574%Z; myUtrBefore := None;
     opponentUtr := Some 450%Z; opponentUtrBefore := None;
     sets := Some (ScoreTokens.scrapedSets "64" "26" []); won := Some true;
     isWalkover := false; score := None |}.

Lemma scraped_sets_are_reread_witness :
  Normalizer.chosenSets "Harper Chalat" Singles scrapedCard = ["6-2"; "4-6"].
Proof.
  exact (scraped_sets_are_reread "Harper Chalat" Singles scrapedCard "64" "26" []
           eq_refl eq_refl eq_refl).
Defined.

(** ** Ratings around a match *)

Section RatingHistoryProperties.

Import RatingHistory.

Local Open Scope Z_scope.
Local Open Scope list_scope.

Lemma findRatingBeforeFrom_spec history d : forall closest,
  Forall (fun e => exists t, time e = Some t) history ->
  StronglySorted (fun a b => default 0 (time a) <= default 0 (time b)) history ->
  exists pre post, history = pre ++ post
    /\ Forall (fun e => default 0 (time e) <= d) pre
    /\ Forall (fun e => d < default 0 (time e)) post
    /\ findRatingBeforeFrom closest history (Some d)
       = match last pre with Some e => Some e | None => closest end
    /\ findRatingAfter history (Some d) = head post.
Proof.
  induction history as [|e history IH]; intros closest Hv Hs.
  - exists [], []. repeat split; constructor.
  - inversion Hv as [|? ? [t Ht] Hv']; subst. inversion Hs as [|? ? Hs' He]; subst.
    cbn [findRatingBeforeFrom findRatingAfter]. rewrite Ht. cbn [notAfter isAfter].
    destruct (Z.leb_spec t d) as [Hle|Hgt].
    + destruct (IH (Some e) Hv' Hs') as (pre & post & -> & P1 & P2 & P3 & P4).
      replace (d <? t) with false by (symmetry; apply Z.ltb_ge; lia).
      exists (e :: pre), post. repeat split; auto.
      * constructor; [rewrite Ht; exact Hle | exact P1].
      * rewrite P3. destruct pre as [|p pre]; [reflexivity|].
        change (last (e :: p :: pre)) with (last (p :: pre)).
        destruct (last (p :: pre)) eqn:El; [reflexivity|].
        apply last_None in El. discriminate.
    + replace (d <? t) with true by (symmetry; apply Z.ltb_lt; lia).
      exists [], (e :: history). repeat split; auto.
      constructor; [rewrite Ht; exact Hgt|].
      rewrite List.Forall_forall in *. intros x Hx. specialize (He x Hx).
      rewrite Ht in He. change (t <= default 0 (time x)) in He. lia.
Qed.

(** X28: in a history whose dates are valid and do not fall, the entry
    that [findRatingBefore] returns and the entry that [findRatingAfter]
    returns stand next to each other: the history splits into the entries
    on or before the date, of which the first function returns the last,
    and the entries after the date, of which the second returns the
    first. *)
Theorem ratings_bracket_the_date (history : list Entry) (d : Z) :
  Forall (fun e => exists t, time e = Some t) history ->
  StronglySorted (fun a b => default 0 (time a) <= default 0 (time b)) history ->
  exists pre post, history = pre ++ post
    /\ Forall (fun e => default 0 (time e) <= d) pre
    /\ Forall (fun e => d < default 0 (time e)) post
    /\ findRatingBefore history (Some d) = last pre
    /\ findRatingAfter history (Some d) = head post.
Proof.
  intros Hv Hs.
  destruct (findRatingBeforeFrom_spec history d None Hv Hs)
    as (pre & post & E & P1 & P2 & P3 & P4).
  exists pre, post. repeat split; auto.
  unfold findRatingBefore. rewrite P3. destruct (last pre); reflexivity.
Qed.

End RatingHistoryProperties.

Lemma ratings_bracket_the_date_witness :
  exists pre post,
    [ {| RatingHistory.time := Some 10%Z; RatingHistory.rating := 570%Z |};
      {| RatingHistory.time := Some 20%Z; RatingHistory.rating := 574%Z |};
      {| RatingHistory.time := Some 30%Z; RatingHistory.rating := 581%Z |} ]
    = (pre ++ post)%list
    /\ RatingHistory.findRatingBefore
         [ {| RatingHistory.time := Some 10%Z; RatingHistory.rating := 570%Z |};
           {| RatingHistory.time := Some 20%Z; RatingHistory.rating := 574%Z |};
           {| RatingHistory.time := Some 30%Z; RatingHistory.rating := 581%Z |} ] (Some 25%Z)
       = last pre.
Proof.
  destruct (ratings_bracket_the_date
    [ {| RatingHistory.time := Some 10%Z; RatingHistory.rating := 570%Z |};
      {| RatingHistory.time := Some 20%Z; RatingHistory.rating := 574%Z |};
      {| RatingHistory.time := Some 30%Z; RatingHistory.rating := 581%Z |} ] 25%Z)
    as (pre & post & E & _ & _ & B & _).
  - repeat constructor; eexists; reflexivity.
  - repeat constructor; cbn; lia.
  - exists pre, post. split; assumption.
Defined.

(** ** Fields of the CSV export *)

Section CsvProperties.

Import CsvExport.

Local Open Scope string_scope.

Lemma includes_head c r t : JS.includes (String c "") (String c r ++ t) = true.
Proof.
  unfold JS.includes. rewrite append_cons. cbn [JS.indexOf String.prefix].
  destruct (ascii_dec c c) as [_|Hn]; [|contradiction].
  destruct (r ++ t); reflexivity.
Qed.

Lemma doubleQuotes_inj s : forall t, doubleQuotes s = doubleQuotes t -> s = t.
Proof.
  induction s as [|c s IH]; intros [|d t]; cbn [doubleQuotes].
  - reflexivity.
  - destruct (Ascii.eqb d quote); discriminate.
  - destruct (Ascii.eqb c quote); discriminate.
  - destruct (Ascii.eqb_spec c quote) as [->|Hc], (Ascii.eqb_spec d quote) as [->|Hd];
      intros E.
    + injection E as E. f_equal. apply IH, E.
    + injection E as E1 E2. congruence.
    + injection E as E1 E2. congruence.
    + injection E as -> E. f_equal. apply IH, E.
Qed.

Lemma append_inv_tail s : forall t u, s ++ u = t ++ u -> s = t.
Proof.
  intros t u E.
  assert (Hl : String.length s = String.length t).
  { apply (f_equal String.length) in E. rewrite !length_append in E. lia. }
  revert t E Hl. induction s as [|c s IH]; intros [|d t] E Hl; try discriminate Hl.
  - reflexivity.
  - rewrite !append_cons in E. injection E as -> E. f_equal.
    apply IH; [exact E | simpl in Hl; lia].
Qed.

(** X29: [escapeCSV] writes different values as different fields.  A
    field that is put in quotes starts with a quote, and a field that is
    not holds none, so the two forms cannot be taken for each other. *)
Theorem escapeCSV_injective (s t : string) :
  escapeCSV (Some s) = escapeCSV (Some t) -> s = t.
Proof.
  assert (Hq : forall a b,
    (JS.includes (String comma "") b || JS.includes (String quote "") b
     || JS.includes (String newline "") b) = false ->
    String quote (doubleQuotes a ++ String quote "") = b -> False).
  { intros a b Hb E. subst b.
    pose proof (includes_head quote (doubleQuotes a ++ String quote "") "") as H.
    rewrite append_nil_r in H. rewrite H, orb_true_r in Hb. discriminate. }
  unfold escapeCSV.
  destruct (_ || _ || _) eqn:Es; destruct (_ || _ || JS.includes _ t) eqn:Et; intros E.
  - injection E as E. apply append_inv_tail in E. apply doubleQuotes_inj, E.
  - exfalso. exact (Hq s t Et E).
  - exfalso. exact (Hq t s Es (eq_sym E)).
  - exact E.
Qed.

End CsvProperties.

Lemma escapeCSV_injective_witness :
  CsvExport.escapeCSV (Some "Smith, John") = CsvExport.escapeCSV (Some "Smith, John")
  /\ "Smith, John" = "Smith, John".
Proof.
  split; [reflexivity | exact (escapeCSV_injective "Smith, John" "Smith, John" eq_refl)].
Defined.

(** ** The month of a normalised date *)

Section MonthOfDate.

Import Normalizer Aggregator.

Local Open Scope string_scope.

Lemma monthKey_built Y mm dd mon :
  allDigits 4 Y = true -> allDigits 2 dd = true ->
  monthMap mon = Some mm ->
  monthKey (Y ++ "-" ++ mm ++ "-" ++ dd) = Some mon.
Proof.
  intros HY Hdd Hm.
  assert (Hmm : allDigits 2 mm = true).
  { pose proof (monthMap_digits mon) as H. rewrite Hm in H. exact H. }
  unfold monthKey. rewrite (isIsoDate_built Y mm dd HY Hmm Hdd).
  destruct Y as [|y1 [|y2 [|y3 [|y4 [|y5 Y]]]]];
    try (unfold allDigits in HY; cbn [String.length Nat.eqb] in HY;
         rewrite andb_false_r in HY; discriminate HY).
  rewrite !append_cons, !append_nil_l. cbn [JS.drop].
  revert Hm. unfold monthMap.
  repeat match goal with
    | |- context [String.eqb mon ?k] =>
        destruct (String.eqb_spec mon k) as [->|_];
        [intros E; injection E as <-; reflexivity|]
    end.
  discriminate.
Qed.

(** X30: a date text in which [normalizeDate] finds one of the twelve
    month names is turned, with a year of four digits, into a date that the
    monthly breakdown of [generateStats] files under that same month. *)
Theorem normalized_date_keeps_month (dateStr inferYear mon day mm : string) :
  allDigits 4 inferYear = true ->
  isIsoDate dateStr = false ->
  searchMonDay dateStr = Some (mon, day) ->
  monthMap mon = Some mm ->
  exists d, normalizeDate (Some dateStr) inferYear = Some d /\ monthKey d = Some mon.
Proof.
  intros HY Hiso Hs Hm.
  exists (inferYear ++ "-" ++ mm ++ "-" ++ padDay day). split.
  - unfold normalizeDate. destruct dateStr as [|c r]; [discriminate Hs|].
    rewrite Hiso, Hs, Hm. reflexivity.
  - apply monthKey_built; [exact HY | eapply searchMonDay_day, Hs | exact Hm].
Qed.

End MonthOfDate.

Lemma normalized_date_keeps_month_witness :
  exists d, Normalizer.normalizeDate (Some "Dec 3") "2025" = Some d
            /\ Aggregator.monthKey d = Some "Dec".
Proof.
  exact (normalized_date_keeps_month "Dec 3" "2025" "Dec" "3" "12"
           eq_refl eq_refl eq_refl eq_refl).
Defined.
